(** * matrixdll: Matrix VoIP signaling and the PCM audio boundary

    A shallow embedding of [matrixDLL.go].  The file holds three
    generations of the package, kept here as three modules:

    - [Signaling]  : [MatrixClient], the signaling-only client (lines 1-166);
    - [MautrixCall]: [Client] on top of the mautrix SDK (lines 167-425);
    - [HttpCall]   : [Client] on top of its own [postJSON] (lines 426-653).

    Everything outside the package (the uuid generator, the clock, the
    HTTP stack, the JSON codec, the WebRTC engine and the Opus codec) is
    an input: each operation receives a [World] describing how the outside
    answers during that call. *)

From Stdlib Require Import ZArith List String Ascii Lia DecimalString DecimalZ Permutation.
From stdpp Require Import base list strings.

Local Open Scope Z_scope.
#[local] Set Warnings "-register-all".

(** ** Machine integers *)

(** Conversion to Go's [int16]: two's complement wrap-around. *)
Definition int16 (z : Z) : Z := (z + 32768) mod 65536 - 32768.

(** Conversion to Go's [byte] (uint8). *)
Definition byte (z : Z) : Z := z mod 256.

Definition is_int16 (z : Z) : Prop := -32768 <= z < 32768.
Definition is_byte (z : Z) : Prop := 0 <= z < 256.

(** ** PCM at the boundary *)

Module PCM.

(** [data[i]] on a slice.  Every index the two loops below use is in
    range (lemma [SendAudio_reads_in_range]), so the value chosen for a
    missing index is never observed. *)
Definition at_index (data : list Z) (i : nat) : Z := default 0 (data !! i).

(** [int16(data[2*i]) | int16(data[2*i+1])<<8] *)
Definition sample_of (lo hi : Z) : Z :=
  Z.lor (int16 lo) (int16 (Z.shiftl (int16 hi) 8)).

(** The loop of [SendAudio]:
    [n := len(data)/2; samples := make([]int16, n);
     for i := 0; i < n; i++ { samples[i] = ... }] *)
Definition SendAudio_samples (data : list Z) : list Z :=
  let n := (length data / 2)%nat in
  foldl (fun samples i =>
           <[i := sample_of (at_index data (2 * i)) (at_index data (2 * i + 1))]> samples)
        (replicate n 0) (seq 0 n).

(** The loop of [ReceiveAudio]:
    [out := make([]byte, len(pcm)*2);
     for i, v := range pcm { out[2*i] = byte(v); out[2*i+1] = byte(v >> 8) }] *)
Definition ReceiveAudio_out (pcm : list Z) : list Z :=
  foldl (fun out iv =>
           <[(2 * iv.1 + 1)%nat := byte (Z.shiftr iv.2 8)]> (<[(2 * iv.1)%nat := byte iv.2]> out))
        (replicate (length pcm * 2) 0) (zip (seq 0 (length pcm)) pcm).

(** Closed forms of the two loops, used by the proofs only. *)
Fixpoint pairs (data : list Z) : list Z :=
  match data with
  | lo :: hi :: rest => sample_of lo hi :: pairs rest
  | _ => []
  end.

Definition le_bytes (v : Z) : list Z := [byte v; byte (Z.shiftr v 8)].

End PCM.

(** ** Buffered channels *)

(** A Go channel made by [make(chan T, cap)]: the frames waiting in the
    buffer, oldest first.  A field of channel type holds [None] while it
    is [nil]. *)
Record chan (A : Type) := mkChan { cap : nat; buf : list A }.
Arguments mkChan {A}.
Arguments cap {A}.
Arguments buf {A}.

(** What a call does to its caller: it comes back with a value, or the
    calling goroutine stays parked. *)
Inductive outcome (A : Type) :=
| Returns (a : A)
| Blocks.
Arguments Returns {A}.
Arguments Blocks {A}.

Module Chan.

Definition make {A} (n : nat) : option (chan A) := Some (mkChan n []).

(** [ch <- x]: parks on a nil channel and on a full buffer. *)
Definition send {A} (ch : option (chan A)) (x : A) : outcome (option (chan A)) :=
  match ch with
  | None => Blocks
  | Some q =>
      if decide (length (buf q) < cap q)%nat
      then Returns (Some (mkChan (cap q) (buf q ++ [x])))
      else Blocks
  end.

(** [select { case ch <- x: default: }]: the send is taken when it can
    proceed at once, the empty default otherwise. *)
Definition try_send {A} (ch : option (chan A)) (x : A) : outcome (option (chan A)) :=
  match send ch x with
  | Returns ch' => Returns ch'
  | Blocks => Returns ch
  end.

(** [<-ch]: parks on a nil channel and on an empty buffer. *)
Definition recv {A} (ch : option (chan A)) : outcome (A * option (chan A)) :=
  match ch with
  | None => Blocks
  | Some q =>
      match buf q with
      | [] => Blocks
      | x :: rest => Returns (x, Some (mkChan (cap q) rest))
      end
  end.

Definition frames {A} (ch : option (chan A)) : list A :=
  match ch with
  | None => []
  | Some q => buf q
  end.

End Chan.

(** ** Errors *)

(** A Go [error] value, observed through the text of [err.Error()]. *)
Definition error := string.

Inductive result (A : Type) :=
| Ok (a : A)
| Err (e : error).
Arguments Ok {A}.
Arguments Err {A}.

Definition is_Err {A} (r : result A) : Prop :=
  match r with
  | Ok _ => False
  | Err _ => True
  end.

(** The [v, err := f(); if err != nil { return err }] idiom is the bind
    of [result]; it is written [v ← f; k] below. *)
#[global] Instance result_ret : MRet result := fun A a => Ok a.
#[global] Instance result_bind : MBind result := fun A B k r =>
  match r with
  | Ok a => k a
  | Err e => Err e
  end.

(** A call that yields only an [error]: [nil] lets the caller go on. *)
Definition must (e : option error) : result unit :=
  match e with
  | None => Ok tt
  | Some err => Err err
  end.

(** The [error] a Go function returns, read off a [result]. *)
Definition err_of {A} (r : result A) : option error :=
  match r with
  | Ok _ => None
  | Err e => Some e
  end.

(** ** fmt *)

Inductive operand :=
| AStr (s : string)
| AInt (z : Z).

Definition string_of_Z (z : Z) : string := NilZero.string_of_int (Z.to_int z).

Definition render (a : operand) : string :=
  match a with
  | AStr s => s
  | AInt z => string_of_Z z
  end.

(** [fmt.Sprintf] for the directives the package writes: [%s], [%d] and
    [%w] print the next operand, [%%] a percent sign.  Flags, widths and
    a directive left without an operand are not interpreted: they are
    copied as they stand. *)
Fixpoint Sprintf (format : string) (args : list operand) : string :=
  match format with
  | EmptyString => EmptyString
  | String c rest =>
      match rest with
      | String v rest' =>
          if Ascii.eqb c "%" then
            if Ascii.eqb v "%" then String "%" (Sprintf rest' args)
            else if Ascii.eqb v "s" || Ascii.eqb v "d" || Ascii.eqb v "w" then
              match args with
              | a :: args' => render a +:+ Sprintf rest' args'
              | [] => String c (Sprintf rest args)
              end
            else String c (Sprintf rest args)
          else String c (Sprintf rest args)
      | EmptyString => String c EmptyString
      end
  end.

(** [fmt.Errorf]: the error whose text is the formatted string. *)
Definition Errorf (format : string) (args : list operand) : error :=
  Sprintf format args.

(** ** JSON values *)

(** What the package hands to the JSON encoder: [map[string]interface{}]
    literals (an object lists its entries in the order of the literal),
    slices, strings, integers and nil pointers. *)
Inductive JSON :=
| JNull
| JString (s : string)
| JNumber (z : Z)
| JObject (entries : list (string * JSON))
| JArray (items : list JSON).

Fixpoint assoc (key : string) (entries : list (string * JSON)) : option JSON :=
  match entries with
  | [] => None
  | (k, v) :: rest => if String.eqb k key then Some v else assoc key rest
  end.

(** [m[key]] on an object. *)
Definition field (key : string) (j : JSON) : option JSON :=
  match j with
  | JObject entries => assoc key entries
  | _ => None
  end.

Definition keys (j : JSON) : list string :=
  match j with
  | JObject entries => map fst entries
  | _ => []
  end.

(** A [*string] and a [*uint16] under the encoder: [null] when nil. *)
Definition JString_ptr (p : option string) : JSON :=
  match p with
  | Some s => JString s
  | None => JNull
  end.

Definition JNumber_ptr (p : option Z) : JSON :=
  match p with
  | Some z => JNumber z
  | None => JNull
  end.

(** A Go slice under the encoder: [null] when the slice is nil, an array
    of its elements otherwise (the empty array for an empty slice). *)
Definition JArray_slice (s : option (list JSON)) : JSON :=
  match s with
  | Some items => JArray items
  | None => JNull
  end.

(** The struct [loginResp], the target the login response is decoded
    into.  How the decoder fills it from the body (which keys it accepts,
    what it does with a value of another type) is the decoder's business:
    the world answers with the struct as it stands after [Decode]. *)
Module Login.
Record loginResp := mkLoginResp {
  UserID : string;        (* `json:"user_id"` *)
  AccessToken : string    (* `json:"access_token"` *)
}.
End Login.

(** ** The outside world *)

Record Request := mkRequest {
  Method : string;
  URL : string;
  ContentType : string;
  Body : JSON            (* the payload whose encoding is the request body *)
}.

Record Response := mkResponse {
  StatusCode : Z;
  RespBody : string      (* what [io.ReadAll(resp.Body)] yields *)
}.

(** The [webrtc.ICECandidateInit] that [cand.ToJSON()] returns. *)
Record ICECandidateInit := mkICE {
  Candidate : string;
  SDPMid : option string;
  SDPMLineIndex : option Z
}.

(** How everything outside the package answers during one call. *)
Record World := mkWorld {
  (* github.com/google/uuid: the k-th [uuid.NewString()] of the call *)
  uuid_NewString : nat -> string;
  (* [time.Now().Unix()] *)
  time_Now_Unix : Z;
  (* encoding/json *)
  json_Marshal : JSON -> option error;
  json_Decode : bool -> string -> result JSON;   (* [true]: the target is a non-nil pointer *)
  (* net/http *)
  http_NewRequest : string -> option error;
  http_Do : Request -> result Response;
  (* maunium.net/go/mautrix *)
  mautrix_NewClient : string -> option error;
  mautrix_Login : string -> string -> result (string * string);   (* UserID, AccessToken *)
  mautrix_SendMessageEvent : string -> string -> JSON -> option error;
  (* github.com/pion/webrtc and layeh.com/gopus *)
  webrtc_NewPeerConnection : option error;
  gopus_NewEncoder : option error;
  webrtc_NewTrackLocalStaticSample : option error;
  pc_AddTrack : option error;
  pc_CreateOffer : result string;                 (* the SDP of the offer *)
  pc_SetLocalDescription : string -> option error;
  gathering_completes : bool;                     (* whether [GatheringCompletePromise] is ever closed *)
  (* encoding/json again: [Decode(&resp)] for [resp] a [loginResp] *)
  json_Decode_loginResp : string -> result Login.loginResp
}.

(** One call of the signaling send primitive ([postJSON] or
    [SendMessageEvent]) made by an operation. *)
Record Sent := mkSent {
  target : string;        (* the URL, or the room for mautrix *)
  event_type : string;
  content : JSON
}.

Definition loginPath : string := "/_matrix/client/r0/login".
Definition sendEventPath : string := "/_matrix/client/r0/rooms/%s/send/%s/%s".

(** [loginReq] under the encoder. *)
Definition loginReq (username password : string) : JSON :=
  JObject [("type", JString "m.login.password");
           ("identifier", JObject [("type", JString "m.id.user"); ("user", JString username)]);
           ("password", JString password)].

(** The effect of one method call: the receiver afterwards, the
    signaling sends it made (oldest first) and what it returned. *)
Record ran (S A : Type) := mkRan { after : S; sent : list Sent; ret : A }.
Arguments mkRan {S A}.
Arguments after {S A}.
Arguments sent {S A}.
Arguments ret {S A}.

(** ** [MatrixClient]: signaling only (lines 1-166) *)

Module Signaling.

(** The struct without its mutex: every method below holds [c.mu] from
    entry to return, so a method is one atomic step. *)
Record MatrixClient := mkMatrixClient {
  Homeserver : string;
  AccessToken : string;
  UserID : string;
  RoomID : string;
  CurrentCallID : string;
  MyPartyID : string
}.

Definition set_CurrentCallID (callID : string) (c : MatrixClient) : MatrixClient :=
  {| Homeserver := Homeserver c; AccessToken := AccessToken c; UserID := UserID c;
     RoomID := RoomID c; CurrentCallID := callID; MyPartyID := MyPartyID c |}.

Definition postJSON (w : World) (url : string) (payload : JSON) (out : bool) : result JSON :=
  _ ← must (json_Marshal w payload);
  _ ← must (http_NewRequest w url);
  resp ← http_Do w (mkRequest "POST" url "application/json" payload);
  if 300 <=? StatusCode resp
  then Err (Errorf "HTTP %d: %s" [AInt (StatusCode resp); AStr (RespBody resp)])
  else if out then json_Decode w true (RespBody resp)
  else Ok JNull.

(** [postJSON] as [NewMatrixClient] calls it, with [out] the address of a
    [loginResp]: the same steps, the decoder filling the struct. *)
Definition postJSON_login (w : World) (url : string) (payload : JSON)
  : result Login.loginResp :=
  _ ← must (json_Marshal w payload);
  _ ← must (http_NewRequest w url);
  resp ← http_Do w (mkRequest "POST" url "application/json" payload);
  if 300 <=? StatusCode resp
  then Err (Errorf "HTTP %d: %s" [AInt (StatusCode resp); AStr (RespBody resp)])
  else json_Decode_loginResp w (RespBody resp).

Definition NewMatrixClient (w : World) (homeserver username password roomID : string)
  : result MatrixClient :=
  let url := homeserver +:+ loginPath in
  match postJSON_login w url (loginReq username password) with
  | Err err => Err (Errorf "login error: %w" [AStr err])
  | Ok resp =>
      Ok {| Homeserver := homeserver;
            AccessToken := Login.AccessToken resp;
            UserID := Login.UserID resp;
            RoomID := roomID;
            CurrentCallID := "";
            MyPartyID := uuid_NewString w 0 |}
  end.

Definition send_url (c : MatrixClient) (evt txn : string) : string :=
  Sprintf (Homeserver c +:+ sendEventPath) [AStr (RoomID c); AStr evt; AStr txn].

Definition SendCallInvite (w : World) (c : MatrixClient) (sdpOffer : string)
  : ran MatrixClient (result string) :=
  let c := set_CurrentCallID (uuid_NewString w 0) c in
  let invite :=
    JObject [("call_id", JString (CurrentCallID c));
             ("party_id", JString (MyPartyID c));
             ("lifetime", JNumber 120000);
             ("offer", JObject [("type", JString "offer"); ("sdp", JString sdpOffer)]);
             ("version", JString "1")] in
  let txn := uuid_NewString w 1 in
  let url := send_url c "m.call.invite" txn in
  mkRan c [mkSent url "m.call.invite" invite]
    (_ ← postJSON w url invite true; Ok (CurrentCallID c)).

Definition SendCallAnswer (w : World) (c : MatrixClient) (sdpAnswer callID : string)
  : ran MatrixClient (option error) :=
  let c := if String.eqb callID "" then c else set_CurrentCallID callID c in
  let answer :=
    JObject [("call_id", JString (CurrentCallID c));
             ("party_id", JString (MyPartyID c));
             ("answer", JObject [("type", JString "answer"); ("sdp", JString sdpAnswer)]);
             ("version", JString "1")] in
  let txn := uuid_NewString w 0 in
  let url := send_url c "m.call.answer" txn in
  mkRan c [mkSent url "m.call.answer" answer] (err_of (postJSON w url answer true)).

(** [candidates] is a Go slice: [None] is the nil slice. *)
Definition SendCandidates (w : World) (c : MatrixClient) (candidates : option (list JSON))
  (callID : string) : ran MatrixClient (option error) :=
  let c := if String.eqb callID "" then c else set_CurrentCallID callID c in
  let payload :=
    JObject [("call_id", JString (CurrentCallID c));
             ("party_id", JString (MyPartyID c));
             ("version", JString "1");
             ("candidates", JArray_slice candidates)] in
  let txn := uuid_NewString w 0 in
  let url := send_url c "m.call.candidates" txn in
  mkRan c [mkSent url "m.call.candidates" payload] (err_of (postJSON w url payload true)).

Definition GetUserID (c : MatrixClient) : string := UserID c.
Definition GetAccessToken (c : MatrixClient) : string := AccessToken c.
Definition GetPartyID (c : MatrixClient) : string := MyPartyID c.
Definition GetCallID (c : MatrixClient) : string := CurrentCallID c.

(** The methods a holder of the client can invoke, each with the world
    it meets. *)
Inductive call :=
| DoSendCallInvite (w : World) (sdpOffer : string)
| DoSendCallAnswer (w : World) (sdpAnswer callID : string)
| DoSendCandidates (w : World) (candidates : option (list JSON)) (callID : string)
| DoGetUserID
| DoGetAccessToken
| DoGetPartyID
| DoGetCallID.

Definition exec (c : MatrixClient) (op : call) : MatrixClient * list Sent :=
  match op with
  | DoSendCallInvite w sdp => let r := SendCallInvite w c sdp in (after r, sent r)
  | DoSendCallAnswer w sdp callID => let r := SendCallAnswer w c sdp callID in (after r, sent r)
  | DoSendCandidates w cands callID => let r := SendCandidates w c cands callID in (after r, sent r)
  | DoGetUserID | DoGetAccessToken | DoGetPartyID | DoGetCallID => (c, [])
  end.

(** A lifetime of calls: the client at the end and all it sent. *)
Fixpoint run (c : MatrixClient) (ops : list call) : MatrixClient * list Sent :=
  match ops with
  | [] => (c, [])
  | op :: rest =>
      let '(c1, s1) := exec c op in
      let '(c2, s2) := run c1 rest in
      (c2, s1 ++ s2)
  end.

End Signaling.

(** [http.Post(url, contentType, body)]: net/http builds the request
    with [NewRequest], sets the content type and runs [Do]. *)
Definition http_Post (w : World) (url contentType : string) (payload : JSON) : result Response :=
  _ ← must (http_NewRequest w url);
  http_Do w (mkRequest "POST" url contentType payload).

(** The body both clients give to [OnICECandidate]'s payload. *)
Definition candidates_payload (callID partyID : string) (ice : ICECandidateInit) : JSON :=
  JObject [("call_id", JString callID);
           ("party_id", JString partyID);
           ("version", JString "1");
           ("candidates",
             JArray [JObject [("candidate", JString (Candidate ice));
                              ("sdpMid", JString_ptr (SDPMid ice));
                              ("sdpMLineIndex", JNumber_ptr (SDPMLineIndex ice))]])].

(** ** [Client] on the mautrix SDK (lines 167-425) *)

Module MautrixCall.

(** The struct without [mautrixClient] and [pc], which are handles into
    the SDK and the WebRTC engine: what they answer is in the [World]. *)
Record Client := mkClient {
  homeserver : string;
  username : string;
  password : string;
  roomID : string;
  currentCallID : string;
  myPartyID : string;
  myUserID : string;
  dataCh : option (chan (list Z));
  decodeCh : option (chan (list Z))
}.

Definition set_currentCallID (callID : string) (c : Client) : Client :=
  {| homeserver := homeserver c; username := username c; password := password c;
     roomID := roomID c; currentCallID := callID; myPartyID := myPartyID c;
     myUserID := myUserID c; dataCh := dataCh c; decodeCh := decodeCh c |}.

Definition set_dataCh (ch : option (chan (list Z))) (c : Client) : Client :=
  {| homeserver := homeserver c; username := username c; password := password c;
     roomID := roomID c; currentCallID := currentCallID c; myPartyID := myPartyID c;
     myUserID := myUserID c; dataCh := ch; decodeCh := decodeCh c |}.

Definition set_decodeCh (ch : option (chan (list Z))) (c : Client) : Client :=
  {| homeserver := homeserver c; username := username c; password := password c;
     roomID := roomID c; currentCallID := currentCallID c; myPartyID := myPartyID c;
     myUserID := myUserID c; dataCh := dataCh c; decodeCh := ch |}.

Definition NewClient (w : World) (homeserver username password roomID : string)
  : result Client :=
  match mautrix_NewClient w homeserver with
  | Some err => Err (Errorf "mautrix NewClient: %w" [AStr err])
  | None =>
      match mautrix_Login w username password with
      | Err err => Err (Errorf "login error: %w" [AStr err])
      | Ok (userID, _) =>
          match webrtc_NewPeerConnection w with
          | Some err => Err (Errorf "NewPeerConnection: %w" [AStr err])
          | None =>
              Ok {| homeserver := homeserver; username := username; password := password;
                    roomID := roomID; currentCallID := "";
                    myPartyID := uuid_NewString w 0; myUserID := userID;
                    dataCh := Chan.make 50; decodeCh := Chan.make 50 |}
          end
      end
  end.

(** The closure given to [pc.OnICECandidate]; it reads the client as it
    is when the engine calls it.  The error of the send is only logged. *)
Definition OnICECandidate (w : World) (c : Client) (cand : option ICECandidateInit)
  : list Sent :=
  match cand with
  | None => []
  | Some ice =>
      let payload := candidates_payload (currentCallID c) (myPartyID c) ice in
      [mkSent (roomID c) "m.call.candidates" payload]
  end.

(** The goroutine of [pc.OnTrack], for one decoded frame:
    [select { case c.decodeCh <- pcm: default: }]. *)
Definition OnTrack_frame (c : Client) (pcm : list Z) : outcome Client :=
  match Chan.try_send (decodeCh c) pcm with
  | Returns ch => Returns (set_decodeCh ch c)
  | Blocks => Blocks
  end.

(** One turn of [for pcm := range c.dataCh] in the sending goroutine. *)
Definition send_loop_next (c : Client) : outcome (list Z * Client) :=
  match Chan.recv (dataCh c) with
  | Returns (pcm, ch) => Returns (pcm, set_dataCh ch c)
  | Blocks => Blocks
  end.

Definition BuildOfferSDP (w : World) : outcome (result string) :=
  match pc_CreateOffer w with
  | Err err => Returns (Err (Errorf "CreateOffer error: %w" [AStr err]))
  | Ok sdp =>
      match pc_SetLocalDescription w sdp with
      | Some err => Returns (Err (Errorf "SetLocalDescription error: %w" [AStr err]))
      | None => if gathering_completes w then Returns (Ok sdp) else Blocks
      end
  end.

(** [after] is the client where the call returned, or where it parked.
    Between [AddTrack] and the assignment of [currentCallID] the method
    registers the connection-state closure (which starts [send_loop_next]
    once connected) and starts the sync goroutine; neither writes a field
    of the client. *)
Definition StartCall (w : World) (c : Client) : ran Client (outcome (option error)) :=
  match gopus_NewEncoder w with
  | Some err => mkRan c [] (Returns (Some (Errorf "gopus encoder: %w" [AStr err])))
  | None =>
  match webrtc_NewTrackLocalStaticSample w with
  | Some err => mkRan c [] (Returns (Some (Errorf "create send track: %w" [AStr err])))
  | None =>
  match pc_AddTrack w with
  | Some err => mkRan c [] (Returns (Some (Errorf "add send track: %w" [AStr err])))
  | None =>
      let c := set_currentCallID (Sprintf "call-%d" [AInt (time_Now_Unix w)]) c in
      match BuildOfferSDP w with
      | Blocks => mkRan c [] Blocks
      | Returns (Err err) =>
          mkRan c [] (Returns (Some (Errorf "BuildOfferSDP error: %w" [AStr err])))
      | Returns (Ok sdp) =>
          let invite :=
            JObject [("call_id", JString (currentCallID c));
                     ("lifetime", JNumber 60000);
                     ("offer", JObject [("type", JString "offer"); ("sdp", JString sdp)]);
                     ("version", JString "1");
                     ("party_id", JString (myPartyID c))] in
          mkRan c [mkSent (roomID c) "m.call.invite" invite]
            (Returns
               match mautrix_SendMessageEvent w (roomID c) "m.call.invite" invite with
               | Some err => Some (Errorf "send invite: %w" [AStr err])
               | None => None
               end)
      end
  end end end.

Definition SendAudio (c : Client) (data : list Z) : ran Client (outcome (option error)) :=
  match dataCh c with
  | None => mkRan c [] (Returns (Some (Errorf "client not initialized" [])))
  | Some _ =>
      let samples := PCM.SendAudio_samples data in
      match Chan.try_send (dataCh c) samples with
      | Returns ch => mkRan (set_dataCh ch c) [] (Returns None)
      | Blocks => mkRan c [] Blocks
      end
  end.

(** Returns the bytes and the error; the bytes are a nil slice when the
    client is not initialized. *)
Definition ReceiveAudio (c : Client) : ran Client (outcome (list Z * option error)) :=
  match decodeCh c with
  | None => mkRan c [] (Returns ([], Some (Errorf "client not initialized" [])))
  | Some _ =>
      match Chan.recv (decodeCh c) with
      | Returns (pcm, ch) =>
          mkRan (set_decodeCh ch c) [] (Returns (PCM.ReceiveAudio_out pcm, None))
      | Blocks => mkRan c [] Blocks
      end
  end.

(** What can happen to a client: its holder calls a method, or the
    engine runs one of the closures and goroutines it was given. *)
Inductive call :=
| DoStartCall (w : World)
| DoSendAudio (data : list Z)
| DoReceiveAudio
| FireICECandidate (w : World) (cand : option ICECandidateInit)
| FireTrackFrame (pcm : list Z)
| FireSendLoop.

Definition exec (c : Client) (op : call) : Client * list Sent :=
  match op with
  | DoStartCall w => let r := StartCall w c in (after r, sent r)
  | DoSendAudio data => let r := SendAudio c data in (after r, sent r)
  | DoReceiveAudio => let r := ReceiveAudio c in (after r, sent r)
  | FireICECandidate w cand => (c, OnICECandidate w c cand)
  | FireTrackFrame pcm =>
      match OnTrack_frame c pcm with
      | Returns c' => (c', [])
      | Blocks => (c, [])
      end
  | FireSendLoop =>
      match send_loop_next c with
      | Returns (_, c') => (c', [])
      | Blocks => (c, [])
      end
  end.

Fixpoint run (c : Client) (ops : list call) : Client * list Sent :=
  match ops with
  | [] => (c, [])
  | op :: rest =>
      let '(c1, s1) := exec c op in
      let '(c2, s2) := run c1 rest in
      (c2, s1 ++ s2)
  end.

End MautrixCall.

(** ** [Client] on its own HTTP helper (lines 426-653) *)

Module HttpCall.

Definition postJSON (w : World) (url : string) (payload : JSON) (out : bool) : result JSON :=
  _ ← must (json_Marshal w payload);
  resp ← http_Post w url "application/json" payload;
  if 300 <=? StatusCode resp
  then Err (Errorf "HTTP %d: %s" [AInt (StatusCode resp); AStr (RespBody resp)])
  else json_Decode w out (RespBody resp).

(** The struct without [pc], a handle into the WebRTC engine. *)
Record Client := mkClient {
  homeserver : string;
  accessToken : string;
  userID : string;
  roomID : string;
  currentCallID : string;
  myPartyID : string;
  dataCh : option (chan (list Z));
  decodeCh : option (chan (list Z))
}.

Definition set_currentCallID (callID : string) (c : Client) : Client :=
  {| homeserver := homeserver c; accessToken := accessToken c; userID := userID c;
     roomID := roomID c; currentCallID := callID; myPartyID := myPartyID c;
     dataCh := dataCh c; decodeCh := decodeCh c |}.

Definition set_dataCh (ch : option (chan (list Z))) (c : Client) : Client :=
  {| homeserver := homeserver c; accessToken := accessToken c; userID := userID c;
     roomID := roomID c; currentCallID := currentCallID c; myPartyID := myPartyID c;
     dataCh := ch; decodeCh := decodeCh c |}.

Definition set_decodeCh (ch : option (chan (list Z))) (c : Client) : Client :=
  {| homeserver := homeserver c; accessToken := accessToken c; userID := userID c;
     roomID := roomID c; currentCallID := currentCallID c; myPartyID := myPartyID c;
     dataCh := dataCh c; decodeCh := ch |}.

(** [postJSON] as [NewClient] calls it, with [out] the address of a
    [loginResp]. *)
Definition postJSON_login (w : World) (url : string) (payload : JSON)
  : result Login.loginResp :=
  _ ← must (json_Marshal w payload);
  resp ← http_Post w url "application/json" payload;
  if 300 <=? StatusCode resp
  then Err (Errorf "HTTP %d: %s" [AInt (StatusCode resp); AStr (RespBody resp)])
  else json_Decode_loginResp w (RespBody resp).

Definition NewClient (w : World) (homeserver username password roomID : string)
  : result Client :=
  let url := homeserver +:+ loginPath in
  match postJSON_login w url (loginReq username password) with
  | Err err => Err (Errorf "login error: %w" [AStr err])
  | Ok resp =>
      match webrtc_NewPeerConnection w with
      | Some err => Err (Errorf "NewPeerConnection: %w" [AStr err])
      | None =>
          Ok {| homeserver := homeserver;
                accessToken := Login.AccessToken resp;
                userID := Login.UserID resp;
                roomID := roomID;
                currentCallID := "";
                myPartyID := uuid_NewString w 0;
                dataCh := Chan.make 50;
                decodeCh := Chan.make 50 |}
      end
  end.

Definition send_url (c : Client) (evt txn : string) : string :=
  Sprintf (homeserver c +:+ sendEventPath) [AStr (roomID c); AStr evt; AStr txn].

(** The closure given to [pc.OnICECandidate]; the error of [postJSON]
    is only logged. *)
Definition OnICECandidate (w : World) (c : Client) (cand : option ICECandidateInit)
  : list Sent :=
  match cand with
  | None => []
  | Some ice =>
      let payload := candidates_payload (currentCallID c) (myPartyID c) ice in
      let txn := uuid_NewString w 0 in
      let url := send_url c "m.call.candidates" txn in
      [mkSent url "m.call.candidates" payload]
  end.

Definition OnTrack_frame (c : Client) (pcm : list Z) : outcome Client :=
  match Chan.try_send (decodeCh c) pcm with
  | Returns ch => Returns (set_decodeCh ch c)
  | Blocks => Blocks
  end.

Definition send_loop_next (c : Client) : outcome (list Z * Client) :=
  match Chan.recv (dataCh c) with
  | Returns (pcm, ch) => Returns (pcm, set_dataCh ch c)
  | Blocks => Blocks
  end.

(** The errors of [NewEncoder], [NewTrackLocalStaticSample], [AddTrack],
    [CreateOffer] and [SetLocalDescription] are all dropped here; after
    a failed [CreateOffer], [off] is the zero description and [off.SDP]
    the empty string. *)
Definition StartCall (w : World) (c : Client) : ran Client (outcome (option error)) :=
  let sdp := match pc_CreateOffer w with
             | Ok sdp => sdp
             | Err _ => ""
             end in
  if gathering_completes w then
    let c := set_currentCallID (Sprintf "call-%d" [AInt (time_Now_Unix w)]) c in
    let invite :=
      JObject [("call_id", JString (currentCallID c));
               ("party_id", JString (myPartyID c));
               ("lifetime", JNumber 60000);
               ("offer", JObject [("type", JString "offer"); ("sdp", JString sdp)]);
               ("version", JString "1")] in
    let txn := uuid_NewString w 0 in
    let url := send_url c "m.call.invite" txn in
    mkRan c [mkSent url "m.call.invite" invite]
      (Returns (err_of (postJSON w url invite true)))
  else mkRan c [] Blocks.

Definition SendAudio (c : Client) (data : list Z) : ran Client (outcome unit) :=
  let samples := PCM.SendAudio_samples data in
  match Chan.try_send (dataCh c) samples with
  | Returns ch => mkRan (set_dataCh ch c) [] (Returns tt)
  | Blocks => mkRan c [] Blocks
  end.

Definition ReceiveAudio (c : Client) : ran Client (outcome (list Z)) :=
  match Chan.recv (decodeCh c) with
  | Returns (pcm, ch) => mkRan (set_decodeCh ch c) [] (Returns (PCM.ReceiveAudio_out pcm))
  | Blocks => mkRan c [] Blocks
  end.

Inductive call :=
| DoStartCall (w : World)
| DoSendAudio (data : list Z)
| DoReceiveAudio
| FireICECandidate (w : World) (cand : option ICECandidateInit)
| FireTrackFrame (pcm : list Z)
| FireSendLoop.

Definition exec (c : Client) (op : call) : Client * list Sent :=
  match op with
  | DoStartCall w => let r := StartCall w c in (after r, sent r)
  | DoSendAudio data => let r := SendAudio c data in (after r, sent r)
  | DoReceiveAudio => let r := ReceiveAudio c in (after r, sent r)
  | FireICECandidate w cand => (c, OnICECandidate w c cand)
  | FireTrackFrame pcm =>
      match OnTrack_frame c pcm with
      | Returns c' => (c', [])
      | Blocks => (c, [])
      end
  | FireSendLoop =>
      match send_loop_next c with
      | Returns (_, c') => (c', [])
      | Blocks => (c, [])
      end
  end.

Fixpoint run (c : Client) (ops : list call) : Client * list Sent :=
  match ops with
  | [] => (c, [])
  | op :: rest =>
      let '(c1, s1) := exec c op in
      let '(c2, s2) := run c1 rest in
      (c2, s1 ++ s2)
  end.

End HttpCall.

(** * Vocabulary of the statements and sample inputs *)

(** The outgoing queue as [NewClient] makes it, holding all it can. *)
Definition queue_full (ch : option (chan (list Z))) : Prop :=
  exists q, ch = Some q /\ cap q = 50%nat /\ length (buf q) = 50%nat.

(** A world in which every outside call succeeds: the server answers
    200 with an empty object, the engine produces an offer and finishes
    gathering, and the clock reads 1700000000. *)
Definition calm : World :=
  {| uuid_NewString := fun k => "uuid-" +:+ string_of_Z (Z.of_nat k);
     time_Now_Unix := 1700000000;
     json_Marshal := fun _ => None;
     json_Decode := fun _ body =>
       if String.eqb body "{}" then Ok (JObject [])
       else if String.eqb body "" then Err "EOF"
       else Err "invalid character";
     http_NewRequest := fun _ => None;
     http_Do := fun _ => Ok (mkResponse 200 "{}");
     mautrix_NewClient := fun _ => None;
     mautrix_Login := fun user _ => Ok ("@" +:+ user +:+ ":example.org", "token");
     mautrix_SendMessageEvent := fun _ _ _ => None;
     webrtc_NewPeerConnection := None;
     gopus_NewEncoder := None;
     webrtc_NewTrackLocalStaticSample := None;
     pc_AddTrack := None;
     pc_CreateOffer := Ok "v=0";
     pc_SetLocalDescription := fun _ => None;
     gathering_completes := true;
     json_Decode_loginResp := fun body =>
       if String.eqb body "{}" then Ok (Login.mkLoginResp "" "")
       else if String.eqb body "" then Err "EOF"
       else Err "invalid character" |}.

Definition alice2 : MautrixCall.Client :=
  {| MautrixCall.homeserver := "https://example.org"; MautrixCall.username := "alice";
     MautrixCall.password := "secret"; MautrixCall.roomID := "!room:example.org";
     MautrixCall.currentCallID := ""; MautrixCall.myPartyID := "party-a";
     MautrixCall.myUserID := "@alice:example.org";
     MautrixCall.dataCh := Chan.make 50; MautrixCall.decodeCh := Chan.make 50 |}.

Definition alice3 : HttpCall.Client :=
  {| HttpCall.homeserver := "https://example.org"; HttpCall.accessToken := "token";
     HttpCall.userID := "@alice:example.org"; HttpCall.roomID := "!room:example.org";
     HttpCall.currentCallID := ""; HttpCall.myPartyID := "party-a";
     HttpCall.dataCh := Chan.make 50; HttpCall.decodeCh := Chan.make 50 |}.

(** The same clients after fifty frames were queued and none was sent. *)
Definition backlog : option (chan (list Z)) := Some (mkChan 50 (replicate 50 [0; 0])).
Definition alice2_full : MautrixCall.Client := MautrixCall.set_dataCh backlog alice2.
Definition alice3_full : HttpCall.Client := HttpCall.set_dataCh backlog alice3.

(** The [call_id] each message of a trace carries. *)
Definition call_ids (msgs : list Sent) : list (option JSON) :=
  map (fun m => field "call_id" (content m)) msgs.

(** A message stamped with this party. *)
Definition tagged_with (party : string) (m : Sent) : Prop :=
  field "party_id" (content m) = Some (JString party).

(** A [Candidates] message for exactly this one candidate, sent on
    behalf of this call and party. *)
Definition announces (callID partyID : string) (ice : ICECandidateInit) (m : Sent) : Prop :=
  event_type m = "m.call.candidates" /\
  field "call_id" (content m) = Some (JString callID) /\
  field "party_id" (content m) = Some (JString partyID) /\
  field "candidates" (content m)
    = Some (JArray [JObject [("candidate", JString (Candidate ice));
                             ("sdpMid", JString_ptr (SDPMid ice));
                             ("sdpMLineIndex", JNumber_ptr (SDPMLineIndex ice))]]).

(** The wire format of an Invite, as the interface description gives it:
    [{"call_id","party_id","lifetime":<ms int>,
      "offer":{"type":"offer","sdp":<string>},"version":"1"}]. *)
Definition is_offer (sdp : string) (o : JSON) : Prop :=
  keys o ≡ₚ ["type"; "sdp"] /\
  field "type" o = Some (JString "offer") /\
  field "sdp" o = Some (JString sdp).

Definition is_Invite (sdp : string) (j : JSON) : Prop :=
  keys j ≡ₚ ["call_id"; "party_id"; "lifetime"; "offer"; "version"] /\
  (exists callID, field "call_id" j = Some (JString callID)) /\
  (exists partyID, field "party_id" j = Some (JString partyID)) /\
  (exists ms, field "lifetime" j = Some (JNumber ms)) /\
  (exists o, field "offer" j = Some o /\ is_offer sdp o) /\
  field "version" j = Some (JString "1").

Definition sends_Invite (sdp : string) (m : Sent) : Prop :=
  event_type m = "m.call.invite" /\ is_Invite sdp (content m).

Definition sample_ice : ICECandidateInit :=
  mkICE "candidate:1 1 udp 2130706431 192.0.2.1 50000 typ host" (Some "") (Some 0).

Definition alice1 : Signaling.MatrixClient :=
  {| Signaling.Homeserver := "https://example.org"; Signaling.AccessToken := "token";
     Signaling.UserID := "@alice:example.org"; Signaling.RoomID := "!room:example.org";
     Signaling.CurrentCallID := "call-in-progress"; Signaling.MyPartyID := "party-a" |}.

(** A day in the life of each client, for the sample runs. *)
Definition day1 : list Signaling.call :=
  [Signaling.DoSendCallInvite calm "v=0"; Signaling.DoGetCallID;
   Signaling.DoSendCandidates calm (Some []) ""; Signaling.DoSendCallAnswer calm "v=0" "call-7";
   Signaling.DoGetPartyID].

Definition day2 : list MautrixCall.call :=
  [MautrixCall.DoSendAudio [1; 2; 3; 4]; MautrixCall.DoStartCall calm;
   MautrixCall.FireICECandidate calm (Some sample_ice); MautrixCall.FireSendLoop;
   MautrixCall.FireTrackFrame [7; 8]; MautrixCall.DoReceiveAudio].

Definition day3 : list HttpCall.call :=
  [HttpCall.DoSendAudio [1; 2; 3; 4]; HttpCall.DoStartCall calm;
   HttpCall.FireICECandidate calm (Some sample_ice); HttpCall.FireSendLoop;
   HttpCall.FireTrackFrame [7; 8]; HttpCall.DoReceiveAudio].

(** The request of [postJSON] up to the arrival of a response: the
    payload is encoded, the request is built and performed.  An [Err]
    here is a request that could not be performed. *)
Definition round_trip (w : World) (url : string) (payload : JSON) : result Response :=
  _ ← must (json_Marshal w payload);
  _ ← must (http_NewRequest w url);
  http_Do w (mkRequest "POST" url "application/json" payload).

(** "An error if and only if the request cannot be performed or the
    status is 300 or more", for one call of a [postJSON]. *)
Definition errs_only_on_failure_or_status
  (post : World -> string -> JSON -> bool -> result JSON)
  (w : World) (url : string) (payload : JSON) (out : bool) : Prop :=
  is_Err (post w url payload out) <->
  (is_Err (round_trip w url payload) \/
   exists resp, round_trip w url payload = Ok resp /\ 300 <= StatusCode resp).

(** The text of the error for a refused request. *)
Definition status_error (resp : Response) : error :=
  "HTTP " +:+ string_of_Z (StatusCode resp) +:+ ": " +:+ RespBody resp.

Definition with_http_Do (f : Request -> result Response) (w : World) : World :=
  {| uuid_NewString := uuid_NewString w; time_Now_Unix := time_Now_Unix w;
     json_Marshal := json_Marshal w; json_Decode := json_Decode w;
     http_NewRequest := http_NewRequest w; http_Do := f;
     mautrix_NewClient := mautrix_NewClient w; mautrix_Login := mautrix_Login w;
     mautrix_SendMessageEvent := mautrix_SendMessageEvent w;
     webrtc_NewPeerConnection := webrtc_NewPeerConnection w;
     gopus_NewEncoder := gopus_NewEncoder w;
     webrtc_NewTrackLocalStaticSample := webrtc_NewTrackLocalStaticSample w;
     pc_AddTrack := pc_AddTrack w; pc_CreateOffer := pc_CreateOffer w;
     pc_SetLocalDescription := pc_SetLocalDescription w;
     gathering_completes := gathering_completes w;
     json_Decode_loginResp := json_Decode_loginResp w |}.

Definition with_pc_CreateOffer (o : result string) (w : World) : World :=
  {| uuid_NewString := uuid_NewString w; time_Now_Unix := time_Now_Unix w;
     json_Marshal := json_Marshal w; json_Decode := json_Decode w;
     http_NewRequest := http_NewRequest w; http_Do := http_Do w;
     mautrix_NewClient := mautrix_NewClient w; mautrix_Login := mautrix_Login w;
     mautrix_SendMessageEvent := mautrix_SendMessageEvent w;
     webrtc_NewPeerConnection := webrtc_NewPeerConnection w;
     gopus_NewEncoder := gopus_NewEncoder w;
     webrtc_NewTrackLocalStaticSample := webrtc_NewTrackLocalStaticSample w;
     pc_AddTrack := pc_AddTrack w; pc_CreateOffer := o;
     pc_SetLocalDescription := pc_SetLocalDescription w;
     gathering_completes := gathering_completes w;
     json_Decode_loginResp := json_Decode_loginResp w |}.

(** The server accepts the request and answers 200 with no body. *)
Definition silent_ok : World := with_http_Do (fun _ => Ok (mkResponse 200 "")) calm.

(** The server refuses the request. *)
Definition forbidden : World :=
  with_http_Do (fun _ => Ok (mkResponse 403 "M_FORBIDDEN")) calm.

(** The engine cannot produce an offer (its connection is closed), while
    gathering is long complete and the server is fine. *)
Definition no_offer : World := with_pc_CreateOffer (Err "connection closed") calm.

(** A second subscriber, on another device. *)
Definition bob3 : HttpCall.Client :=
  {| HttpCall.homeserver := "https://example.org"; HttpCall.accessToken := "token-b";
     HttpCall.userID := "@bob:example.org"; HttpCall.roomID := "!other:example.org";
     HttpCall.currentCallID := ""; HttpCall.myPartyID := "party-b";
     HttpCall.dataCh := Chan.make 50; HttpCall.decodeCh := Chan.make 50 |}.

(** The identifier [StartCall] forms from the clock. *)
Definition clock_call_id (w : World) : string :=
  "call-" +:+ string_of_Z (time_Now_Unix w).

(** A queue as [NewClient] makes it and as every later step leaves it:
    made, of capacity 50, and holding no more than that. *)
Definition queue_made (ch : option (chan (list Z))) : Prop :=
  exists q, ch = Some q /\ cap q = 50%nat /\ (length (buf q) <= 50)%nat.

(** A string with no percent sign: as a prefix of a format it is copied
    to the output unchanged. *)
Fixpoint plain (s : string) : bool :=
  match s with
  | EmptyString => true
  | String c rest => negb (Ascii.eqb c "%") && plain rest
  end.

(** The endpoint an event is posted to. *)
Definition event_url (hs room evt txn : string) : string :=
  hs +:+ "/_matrix/client/r0/rooms/" +:+ room +:+ "/send/" +:+ evt +:+ "/" +:+ txn.

(** The [calm] world one second later. *)
Definition calm_later : World :=
  {| uuid_NewString := uuid_NewString calm; time_Now_Unix := 1700000001;
     json_Marshal := json_Marshal calm; json_Decode := json_Decode calm;
     http_NewRequest := http_NewRequest calm; http_Do := http_Do calm;
     mautrix_NewClient := mautrix_NewClient calm; mautrix_Login := mautrix_Login calm;
     mautrix_SendMessageEvent := mautrix_SendMessageEvent calm;
     webrtc_NewPeerConnection := webrtc_NewPeerConnection calm;
     gopus_NewEncoder := gopus_NewEncoder calm;
     webrtc_NewTrackLocalStaticSample := webrtc_NewTrackLocalStaticSample calm;
     pc_AddTrack := pc_AddTrack calm; pc_CreateOffer := pc_CreateOffer calm;
     pc_SetLocalDescription := pc_SetLocalDescription calm;
     gathering_completes := gathering_completes calm;
     json_Decode_loginResp := json_Decode_loginResp calm |}.

(** The server accepts the login and answers with the account. *)
Definition welcoming : World :=
  {| uuid_NewString := uuid_NewString calm; time_Now_Unix := time_Now_Unix calm;
     json_Marshal := json_Marshal calm;
     json_Decode := fun _ _ =>
       Ok (JObject [("user_id", JString "@alice:example.org"); ("access_token", JString "syt_abc")]);
     http_NewRequest := http_NewRequest calm;
     http_Do := fun _ => Ok (mkResponse 200 "account");
     mautrix_NewClient := mautrix_NewClient calm; mautrix_Login := mautrix_Login calm;
     mautrix_SendMessageEvent := mautrix_SendMessageEvent calm;
     webrtc_NewPeerConnection := webrtc_NewPeerConnection calm;
     gopus_NewEncoder := gopus_NewEncoder calm;
     webrtc_NewTrackLocalStaticSample := webrtc_NewTrackLocalStaticSample calm;
     pc_AddTrack := pc_AddTrack calm; pc_CreateOffer := pc_CreateOffer calm;
     pc_SetLocalDescription := pc_SetLocalDescription calm;
     gathering_completes := gathering_completes calm;
     json_Decode_loginResp := fun _ => Ok (Login.mkLoginResp "@alice:example.org" "syt_abc") |}.

(** The engine refuses to make a peer connection. *)
Definition no_engine : World :=
  {| uuid_NewString := uuid_NewString calm; time_Now_Unix := time_Now_Unix calm;
     json_Marshal := json_Marshal calm; json_Decode := json_Decode calm;
     http_NewRequest := http_NewRequest calm; http_Do := http_Do calm;
     mautrix_NewClient := mautrix_NewClient calm; mautrix_Login := mautrix_Login calm;
     mautrix_SendMessageEvent := mautrix_SendMessageEvent calm;
     webrtc_NewPeerConnection := Some "invalid configuration";
     gopus_NewEncoder := gopus_NewEncoder calm;
     webrtc_NewTrackLocalStaticSample := webrtc_NewTrackLocalStaticSample calm;
     pc_AddTrack := pc_AddTrack calm; pc_CreateOffer := pc_CreateOffer calm;
     pc_SetLocalDescription := pc_SetLocalDescription calm;
     gathering_completes := gathering_completes calm;
     json_Decode_loginResp := json_Decode_loginResp calm |}.

(** The clients with one free slot left in the outgoing queue. *)
Definition one_slot : option (chan (list Z)) := Some (mkChan 50 (replicate 49 [0; 0])).
Definition alice2_busy : MautrixCall.Client := MautrixCall.set_dataCh one_slot alice2.
Definition alice3_busy : HttpCall.Client := HttpCall.set_dataCh one_slot alice3.

(** The clients with two decoded frames waiting to be played. *)
Definition two_frames : option (chan (list Z)) := Some (mkChan 50 [[-2; 513]; [7]]).
Definition alice2_ringing : MautrixCall.Client := MautrixCall.set_decodeCh two_frames alice2.
Definition alice3_ringing : HttpCall.Client := HttpCall.set_decodeCh two_frames alice3.

(** A client value whose queues were never made (the zero [Client]). *)
Definition zero2 : MautrixCall.Client :=
  MautrixCall.set_decodeCh None (MautrixCall.set_dataCh None alice2).
Definition zero3 : HttpCall.Client :=
  HttpCall.set_decodeCh None (HttpCall.set_dataCh None alice3).

(** The wire format of an Answer:
    [{"call_id","party_id","answer":{"type":"answer","sdp":<string>},"version":"1"}]. *)
Definition is_Answer (callID partyID sdp : string) (j : JSON) : Prop :=
  keys j ≡ₚ ["call_id"; "party_id"; "answer"; "version"] /\
  field "call_id" j = Some (JString callID) /\
  field "party_id" j = Some (JString partyID) /\
  field "answer" j = Some (JObject [("type", JString "answer"); ("sdp", JString sdp)]) /\
  field "version" j = Some (JString "1").

(** The wire format of a Candidates message carrying this slice: its
    elements in order as an array, [null] for the nil slice. *)
Definition is_Candidates (callID partyID : string) (cands : option (list JSON)) (j : JSON)
  : Prop :=
  keys j ≡ₚ ["call_id"; "party_id"; "version"; "candidates"] /\
  field "call_id" j = Some (JString callID) /\
  field "party_id" j = Some (JString partyID) /\
  field "candidates" j = Some match cands with
                               | Some items => JArray items
                               | None => JNull
                               end /\
  field "version" j = Some (JString "1").



(** Steps of a client's life other than [StartCall], and among them those
    in which the engine reports a gathered candidate. *)
Definition starts_no_call2 (op : MautrixCall.call) : bool :=
  match op with
  | MautrixCall.DoStartCall _ => false
  | _ => true
  end.

Definition gathered2 (op : MautrixCall.call) : bool :=
  match op with
  | MautrixCall.FireICECandidate _ (Some _) => true
  | _ => false
  end.

Definition starts_no_call3 (op : HttpCall.call) : bool :=
  match op with
  | HttpCall.DoStartCall _ => false
  | _ => true
  end.

Definition gathered3 (op : HttpCall.call) : bool :=
  match op with
  | HttpCall.FireICECandidate _ (Some _) => true
  | _ => false
  end.

(** A Candidates event about this call. *)
Definition candidates_for (callID : string) (m : Sent) : Prop :=
  event_type m = "m.call.candidates" /\
  field "call_id" (content m) = Some (JString callID).

(** ** The sending goroutine *)

(** A [media.Sample] as the sending goroutine writes it to the track:
    the encoded packet and the declared duration in milliseconds. *)
Record Sample := mkSample { Data : list Z; Duration : Z }.

(** What a call of [enc.Encode] can do: return its two results, the
    packet and the error, or panic.  gopus's [Encode] takes the address
    of [pcm[0]] before anything else, an index out of range on an empty
    frame; the HTTP client, which drops the error of [NewEncoder], may
    also call it on a nil encoder. *)
Inductive encoding :=
| Encodes (data : list Z) (err : option error)
| EncodePanics.

(** What the sending goroutine has done when it parks or dies: the
    frames it handed to the encoder, the samples it wrote to the track
    (both oldest first), whether a panic ended it (the goroutine
    recovers from none, so the process ends with it), and the client as
    it left it. *)
Record pumped (C : Type) := mkPumped {
  encoded : list (list Z);
  written : list Sample;
  died : bool;
  parked : C
}.
Arguments mkPumped {C}.
Arguments encoded {C}.
Arguments written {C}.
Arguments died {C}.
Arguments parked {C}.

(** The goroutine started on [PeerConnectionStateConnected] by the
    mautrix client (lines 340-349):
    [for pcm := range c.dataCh { pkt, err := enc.Encode(...);
       if err != nil { log; continue }; sendTrack.WriteSample(...) }].
    [Encode k] is what the encoder does at its k-th call; the error of
    [WriteSample] is only logged.  The loop never ends by itself: [fuel]
    bounds the turns looked at, and the run stops early where the
    goroutine parks on an empty (or nil) channel or dies. *)
Fixpoint Mautrix_send_loop (Encode : nat -> list Z -> encoding) (k fuel : nat)
  (c : MautrixCall.Client) : pumped MautrixCall.Client :=
  match fuel with
  | O => mkPumped [] [] false c
  | S fuel' =>
      match MautrixCall.send_loop_next c with
      | Blocks => mkPumped [] [] false c
      | Returns (pcm, c') =>
          match Encode k pcm with
          | EncodePanics => mkPumped [pcm] [] true c'
          | Encodes _ (Some _) =>
              let rest := Mautrix_send_loop Encode (S k) fuel' c' in
              mkPumped (pcm :: encoded rest) (written rest) (died rest) (parked rest)
          | Encodes pkt None =>
              let rest := Mautrix_send_loop Encode (S k) fuel' c' in
              mkPumped (pcm :: encoded rest) (mkSample pkt 20 :: written rest)
                       (died rest) (parked rest)
          end
      end
  end.

(** The same goroutine of the HTTP client (lines 607-610), which drops
    the encoder's error and writes whatever data came back:
    [for pcm := range c.dataCh { data, _ := enc.Encode(...);
       sendTrack.WriteSample(media.Sample{Data: data, ...}) }]. *)
Fixpoint Http_send_loop (Encode : nat -> list Z -> encoding) (k fuel : nat)
  (c : HttpCall.Client) : pumped HttpCall.Client :=
  match fuel with
  | O => mkPumped [] [] false c
  | S fuel' =>
      match HttpCall.send_loop_next c with
      | Blocks => mkPumped [] [] false c
      | Returns (pcm, c') =>
          match Encode k pcm with
          | EncodePanics => mkPumped [pcm] [] true c'
          | Encodes data _ =>
              let rest := Http_send_loop Encode (S k) fuel' c' in
              mkPumped (pcm :: encoded rest) (mkSample data 20 :: written rest)
                       (died rest) (parked rest)
          end
      end
  end.

(** Where the goroutine stops on these frames, the encoder being at its
    k-th call: at the first frame the encoder panics on, or behind the
    last one ([n] is then the number of frames). *)
Definition stops_at (Encode : nat -> list Z -> encoding) (k : nat) (frames : list (list Z))
  (n : nat) : Prop :=
  (n <= length frames)%nat /\
  (forall i pcm, (i < n)%nat -> frames !! i = Some pcm -> Encode (k + i)%nat pcm <> EncodePanics) /\
  (forall pcm, frames !! n = Some pcm -> Encode (k + n)%nat pcm = EncodePanics).

(** An encoder in the manner of gopus: it panics on an empty frame,
    reports an error and no data for a frame of more than two samples,
    and otherwise makes one byte of each sample. *)
Definition toy_Encode (k : nat) (pcm : list Z) : encoding :=
  match pcm with
  | [] => EncodePanics
  | [_] | [_; _] => Encodes (map byte pcm) None
  | _ => Encodes [] (Some "bad argument")
  end.

(** The clients with three frames waiting to be sent, the second too
    long for the encoder. *)
Definition three_frames : option (chan (list Z)) :=
  Some (mkChan 50 [[1; 2]; [4; 5; 6]; [3]]).
Definition alice2_talking : MautrixCall.Client := MautrixCall.set_dataCh three_frames alice2.
Definition alice3_talking : HttpCall.Client := HttpCall.set_dataCh three_frames alice3.

(** Three calls of [SendAudio], the second with a single byte. *)
Definition short_burst : list (list Z) := [[1; 0; 2; 0]; [7]; [3; 0]].

(** * Properties *)

(** ** The two PCM loops *)

Section PCMFacts.
Import PCM.

Lemma byte_range v : is_byte (byte v).
Proof. unfold is_byte, byte. apply Z.mod_pos_bound. lia. Qed.

Lemma int16_range z : is_int16 (int16 z).
Proof. unfold is_int16, int16. pose proof (Z.mod_pos_bound (z + 32768) 65536). lia. Qed.

Lemma int16_id z : is_int16 z -> int16 z = z.
Proof. unfold is_int16, int16. intros H. rewrite Z.mod_small; lia. Qed.

(** The high byte, moved back up, is the sample with its low byte
    cleared: the wrap-around of [int16] restores the sign. *)
Lemma high_part v :
  is_int16 v -> int16 (Z.shiftl (int16 (byte (Z.shiftr v 8))) 8) = v / 256 * 256.
Proof.
  unfold is_int16. intros Hv.
  rewrite Z.shiftr_div_pow2, Z.shiftl_mul_pow2 by lia.
  change (2 ^ 8) with 256.
  rewrite (int16_id (byte _)) by (pose proof (byte_range (v / 256)); unfold is_int16, is_byte in *; lia).
  unfold byte, int16.
  assert (Hq : -128 <= v / 256 < 128) by (split; [apply Z.div_le_lower_bound | apply Z.div_lt_upper_bound]; lia).
  destruct (Z_lt_le_dec (v / 256) 0) as [Hneg | Hpos].
  - replace ((v / 256) mod 256) with (v / 256 + 256).
    + replace ((v / 256 + 256) * 256 + 32768) with ((v / 256 * 256 + 32768) + 1 * 65536) by lia.
      rewrite Z.mod_add by lia. rewrite Z.mod_small; lia.
    + symmetry. replace (v / 256) with ((v / 256 + 256) + (-1) * 256) at 1 by lia.
      rewrite Z.mod_add by lia. apply Z.mod_small. lia.
  - rewrite (Z.mod_small (v / 256)) by lia. rewrite Z.mod_small; lia.
Qed.

Lemma low_high_disjoint v : Z.land (v mod 256) (v / 256 * 256) = 0.
Proof.
  apply Z.bits_inj'. intros n Hn.
  rewrite Z.land_spec, Z.bits_0.
  change 256 with (2 ^ 8).
  destruct (Z_lt_le_dec n 8) as [Hlt | Hge].
  - rewrite (Z.mul_pow2_bits_low (v / 2 ^ 8) 8 n) by lia. apply andb_false_r.
  - rewrite (Z.mod_pow2_bits_high v 8 n) by lia. reflexivity.
Qed.

(** One sample survives the trip through its two bytes. *)
Lemma sample_roundtrip v :
  is_int16 v -> sample_of (byte v) (byte (Z.shiftr v 8)) = v.
Proof.
  intros Hv. unfold sample_of.
  rewrite high_part by assumption.
  rewrite (int16_id (byte v)) by (pose proof (byte_range v); unfold is_int16, is_byte in *; lia).
  unfold byte. rewrite <- Z.add_nocarry_lor by apply low_high_disjoint.
  pose proof (Z.div_mod v 256). lia.
Qed.

(** Lists two elements at a time, as both loops walk them. *)
Lemma pair_ind (P : list Z -> Prop) :
  P [] -> (forall x, P [x]) -> (forall x y l, P l -> P (x :: y :: l)) ->
  forall l, P l.
Proof.
  intros H0 H1 H2 l.
  assert (Hboth : P l /\ forall x, P (x :: l)).
  { induction l as [| y l [IHl IHxl]]; split; auto. }
  apply Hboth.
Qed.

(** A counted loop that writes slot [i] at turn [i]. *)
Lemma foldl_insert_seq (f : nat -> Z) (n a : nat) (l : list Z) :
  length l = (a + n)%nat ->
  foldl (fun acc i => <[i := f i]> acc) l (seq a n) = take a l ++ map f (seq a n).
Proof.
  revert a l. induction n as [| n IH]; intros a l Hlen; simpl.
  - rewrite app_nil_r, take_ge; [reflexivity | lia].
  - rewrite IH by (rewrite length_insert; lia).
    rewrite (take_S_r _ a (f a)) by (apply list_lookup_insert_eq; lia).
    rewrite take_insert_ge by lia.
    rewrite <- app_assoc. reflexivity.
Qed.

Lemma SendAudio_reads_in_range (data : list Z) (i : nat) :
  (i < length data / 2)%nat ->
  is_Some (data !! (2 * i)%nat) /\ is_Some (data !! (2 * i + 1)%nat).
Proof.
  intros Hi.
  assert (2 * i + 1 < length data)%nat.
  { pose proof (Nat.div_mod_eq (length data) 2).
    pose proof (Nat.mod_upper_bound (length data) 2). lia. }
  split; apply lookup_lt_is_Some; lia.
Qed.

Lemma map_sample_pairs (data : list Z) :
  map (fun i => sample_of (at_index data (2 * i)) (at_index data (2 * i + 1)))
      (seq 0 (length data / 2)) = pairs data.
Proof.
  induction data as [| x | x y l IH] using pair_ind; try reflexivity.
  change (length (x :: y :: l)) with (2 + length l)%nat.
  replace ((2 + length l) / 2)%nat with (S (length l / 2)).
  2:{ replace (2 + length l)%nat with (1 * 2 + length l)%nat by lia.
      rewrite Nat.div_add_l by lia. reflexivity. }
  rewrite <- cons_seq, <- seq_shift. cbn [map pairs]. rewrite map_map.
  f_equal.
  rewrite <- IH. apply map_ext. intros i.
  replace (2 * S i)%nat with (S (S (2 * i))) by lia.
  replace (S (S (2 * i)) + 1)%nat with (S (S (2 * i + 1))) by lia.
  reflexivity.
Qed.

Lemma SendAudio_samples_pairs (data : list Z) : SendAudio_samples data = pairs data.
Proof.
  unfold SendAudio_samples.
  rewrite foldl_insert_seq by (rewrite length_replicate; lia).
  rewrite take_0. apply map_sample_pairs.
Qed.

Lemma ReceiveAudio_loop (pcm : list Z) (a : nat) (out : list Z) :
  length out = (2 * (a + length pcm))%nat ->
  foldl (fun out iv =>
           <[(2 * iv.1 + 1)%nat := byte (Z.shiftr iv.2 8)]> (<[(2 * iv.1)%nat := byte iv.2]> out))
        out (zip (seq a (length pcm)) pcm)
  = take (2 * a) out ++ flat_map le_bytes pcm.
Proof.
  revert a out. induction pcm as [| v pcm IH]; intros a out Hlen; simpl in *.
  - rewrite app_nil_r, take_ge; [reflexivity | lia].
  - rewrite IH by (rewrite !length_insert; lia).
    set (k := (a + (a + 0))%nat).
    replace (S a + (S a + 0))%nat with (S (S k)) by lia.
    replace (k + 1)%nat with (S k) by lia.
    rewrite (take_S_r _ _ (byte (Z.shiftr v 8)))
      by (apply list_lookup_insert_eq; rewrite length_insert; lia).
    rewrite take_insert_ge by lia.
    rewrite (take_S_r _ _ (byte v)) by (apply list_lookup_insert_eq; lia).
    rewrite take_insert_ge by lia.
    rewrite <- !app_assoc. reflexivity.
Qed.

Lemma ReceiveAudio_out_bytes (pcm : list Z) : ReceiveAudio_out pcm = flat_map le_bytes pcm.
Proof.
  unfold ReceiveAudio_out.
  rewrite (ReceiveAudio_loop pcm 0) by (rewrite length_replicate; lia).
  reflexivity.
Qed.

Lemma pairs_le_bytes (pcm : list Z) :
  Forall is_int16 pcm -> pairs (flat_map le_bytes pcm) = pcm.
Proof.
  induction 1 as [| v pcm Hv _ IH]; simpl; [reflexivity |].
  rewrite sample_roundtrip by assumption. f_equal. exact IH.
Qed.

Lemma length_le_bytes (pcm : list Z) :
  length (flat_map le_bytes pcm) = (2 * length pcm)%nat.
Proof. induction pcm as [| v pcm IH]; simpl; [reflexivity | rewrite IH; lia]. Qed.

Lemma length_pairs (data : list Z) : length (pairs data) = (length data / 2)%nat.
Proof.
  induction data as [| x | x y l IH] using pair_ind; try reflexivity.
  change (length (x :: y :: l)) with (2 + length l)%nat.
  replace (2 + length l)%nat with (1 * 2 + length l)%nat by lia.
  rewrite Nat.div_add_l by lia. simpl. rewrite IH. reflexivity.
Qed.

(** A byte left over after the last pair is never read. *)
Lemma pairs_odd_tail (data : list Z) (b : Z) :
  Nat.Even (length data) -> pairs (data ++ [b]) = pairs data.
Proof.
  induction data as [| x | x y l IH] using pair_ind; intros Hev.
  - reflexivity.
  - destruct Hev as [k Hk]. simpl in Hk. lia.
  - simpl. f_equal. apply IH.
    destruct Hev as [k Hk]. simpl in Hk. exists (k - 1)%nat. lia.
Qed.

Lemma pairs_drop_last (data : list Z) :
  Nat.Odd (length data) -> pairs data = pairs (take (length data - 1) data).
Proof.
  intros [k Hk].
  destruct (exists_last (l := data)) as (front & b & ->).
  { intros ->. simpl in Hk. lia. }
  rewrite length_app in *. simpl in *.
  replace (length front + 1 - 1)%nat with (length front) by lia.
  rewrite take_app_length.
  apply pairs_odd_tail. exists k. lia.
Qed.

End PCMFacts.

(** ** Channels *)

Section ChanFacts.
Context {A : Type}.
Implicit Types (ch : option (chan A)) (x : A).

(** A [select] with an empty [default] never parks. *)
Lemma try_send_returns ch x : exists ch', Chan.try_send ch x = Returns ch'.
Proof. unfold Chan.try_send. destruct (Chan.send ch x); eauto. Qed.

Lemma try_send_nil x : Chan.try_send (None : option (chan A)) x = Returns None.
Proof. reflexivity. Qed.

Lemma try_send_room q x :
  (length (buf q) < cap q)%nat ->
  Chan.try_send (Some q) x = Returns (Some (mkChan (cap q) (buf q ++ [x]))).
Proof.
  intros Hroom. unfold Chan.try_send, Chan.send.
  destruct (decide (length (buf q) < cap q)%nat); [reflexivity | contradiction].
Qed.

Lemma try_send_full q x :
  (cap q <= length (buf q))%nat -> Chan.try_send (Some q) x = Returns (Some q).
Proof.
  intros Hfull. unfold Chan.try_send, Chan.send.
  destruct (decide (length (buf q) < cap q)%nat); [lia | reflexivity].
Qed.

(** Whatever was waiting is still waiting, in the same order, and at
    most the new element was added behind it. *)
Lemma try_send_frames ch ch' x :
  Chan.try_send ch x = Returns ch' ->
  Chan.frames ch' = Chan.frames ch \/ Chan.frames ch' = Chan.frames ch ++ [x].
Proof.
  unfold Chan.try_send, Chan.send. destruct ch as [q |].
  - destruct (decide (length (buf q) < cap q)%nat); intros [= <-]; simpl; auto.
  - intros [= <-]. auto.
Qed.

Lemma try_send_cap q ch' x :
  Chan.try_send (Some q) x = Returns ch' ->
  exists q', ch' = Some q' /\ cap q' = cap q.
Proof.
  unfold Chan.try_send, Chan.send.
  destruct (decide (length (buf q) < cap q)%nat); intros [= <-]; eauto.
Qed.

End ChanFacts.

(** ** The audio queue of both clients *)

Lemma Mautrix_set_dataCh_same (c : MautrixCall.Client) :
  MautrixCall.set_dataCh (MautrixCall.dataCh c) c = c.
Proof. destruct c; reflexivity. Qed.

Lemma Http_set_dataCh_same (c : HttpCall.Client) :
  HttpCall.set_dataCh (HttpCall.dataCh c) c = c.
Proof. destruct c; reflexivity. Qed.

Lemma Mautrix_SendAudio_effect (c : MautrixCall.Client) (data : list Z) :
  exists ch e,
    Chan.try_send (MautrixCall.dataCh c) (PCM.SendAudio_samples data) = Returns ch /\
    MautrixCall.SendAudio c data = mkRan (MautrixCall.set_dataCh ch c) [] (Returns e) /\
    (MautrixCall.dataCh c <> None -> e = None).
Proof.
  unfold MautrixCall.SendAudio.
  destruct (try_send_returns (MautrixCall.dataCh c) (PCM.SendAudio_samples data)) as [ch Hch].
  destruct (MautrixCall.dataCh c) as [q |] eqn:Hq.
  - rewrite Hch. exists ch, None. auto.
  - exists None, (Some (Errorf "client not initialized" [])).
    split; [reflexivity |]. split; [| congruence].
    rewrite <- Hq, Mautrix_set_dataCh_same. reflexivity.
Qed.

Lemma Http_SendAudio_effect (c : HttpCall.Client) (data : list Z) :
  exists ch,
    Chan.try_send (HttpCall.dataCh c) (PCM.SendAudio_samples data) = Returns ch /\
    HttpCall.SendAudio c data = mkRan (HttpCall.set_dataCh ch c) [] (Returns tt).
Proof.
  unfold HttpCall.SendAudio.
  destruct (try_send_returns (HttpCall.dataCh c) (PCM.SendAudio_samples data)) as [ch Hch].
  rewrite Hch. eauto.
Qed.

Lemma Mautrix_SendAudio_full (c : MautrixCall.Client) (data : list Z) :
  queue_full (MautrixCall.dataCh c) -> after (MautrixCall.SendAudio c data) = c.
Proof.
  intros (q & Hq & Hcap & Hlen).
  destruct (Mautrix_SendAudio_effect c data) as (ch & e & Hch & -> & _).
  rewrite Hq, try_send_full in Hch by lia.
  injection Hch as <-. rewrite <- Hq. apply Mautrix_set_dataCh_same.
Qed.

Lemma Http_SendAudio_full (c : HttpCall.Client) (data : list Z) :
  queue_full (HttpCall.dataCh c) -> after (HttpCall.SendAudio c data) = c.
Proof.
  intros (q & Hq & Hcap & Hlen).
  destruct (Http_SendAudio_effect c data) as (ch & Hch & ->).
  rewrite Hq, try_send_full in Hch by lia.
  injection Hch as <-. rewrite <- Hq. apply Http_set_dataCh_same.
Qed.

(** Any burst of calls on a full queue leaves it as it found it. *)
Lemma Mautrix_SendAudio_burst (c : MautrixCall.Client) (burst : list (list Z)) :
  queue_full (MautrixCall.dataCh c) ->
  (MautrixCall.run c (map MautrixCall.DoSendAudio burst)).1 = c.
Proof.
  intros Hfull. induction burst as [| data burst IH]; [reflexivity |].
  cbn [map MautrixCall.run MautrixCall.exec].
  rewrite (Mautrix_SendAudio_full c data Hfull).
  destruct (MautrixCall.run c _) as [c2 s2]. exact IH.
Qed.

Lemma Http_SendAudio_burst (c : HttpCall.Client) (burst : list (list Z)) :
  queue_full (HttpCall.dataCh c) ->
  (HttpCall.run c (map HttpCall.DoSendAudio burst)).1 = c.
Proof.
  intros Hfull. induction burst as [| data burst IH]; [reflexivity |].
  cbn [map HttpCall.run HttpCall.exec].
  rewrite (Http_SendAudio_full c data Hfull).
  destruct (HttpCall.run c _) as [c2 s2]. exact IH.
Qed.

(** C1. [SendAudio] never parks its caller, whatever the state of the
    outgoing queue.  What is already queued stays queued in the same
    order: the queue afterwards is the queue before, or the queue before
    with the new frame behind it.  On a queue that holds its 50 frames
    the call changes nothing, and neither does any burst of calls: the
    arriving frames are the ones dropped. *)
Theorem SendAudio_nonblocking_drops_newest_when_full :
  forall (c2 : MautrixCall.Client) (c3 : HttpCall.Client) (data : list Z),
    let r2 := MautrixCall.SendAudio c2 data in
    let r3 := HttpCall.SendAudio c3 data in
    let frame := PCM.SendAudio_samples data in
    (exists e, ret r2 = Returns e) /\
    ret r3 = Returns tt /\
    (Chan.frames (MautrixCall.dataCh (after r2)) = Chan.frames (MautrixCall.dataCh c2) \/
     Chan.frames (MautrixCall.dataCh (after r2)) = Chan.frames (MautrixCall.dataCh c2) ++ [frame]) /\
    (Chan.frames (HttpCall.dataCh (after r3)) = Chan.frames (HttpCall.dataCh c3) \/
     Chan.frames (HttpCall.dataCh (after r3)) = Chan.frames (HttpCall.dataCh c3) ++ [frame]) /\
    (queue_full (MautrixCall.dataCh c2) ->
       after r2 = c2 /\
       forall burst, (MautrixCall.run c2 (map MautrixCall.DoSendAudio burst)).1 = c2) /\
    (queue_full (HttpCall.dataCh c3) ->
       after r3 = c3 /\
       forall burst, (HttpCall.run c3 (map HttpCall.DoSendAudio burst)).1 = c3).
Proof.
  intros c2 c3 data r2 r3 frame.
  destruct (Mautrix_SendAudio_effect c2 data) as (ch2 & e & Hch2 & Hr2 & _).
  destruct (Http_SendAudio_effect c3 data) as (ch3 & Hch3 & Hr3).
  split; [subst r2; rewrite Hr2; eauto |].
  split; [subst r3; rewrite Hr3; reflexivity |].
  split; [subst r2; rewrite Hr2; destruct c2; apply (try_send_frames _ _ _ Hch2) |].
  split; [subst r3; rewrite Hr3; destruct c3; apply (try_send_frames _ _ _ Hch3) |].
  split; intros Hfull.
  - split; [apply Mautrix_SendAudio_full; exact Hfull |].
    intros burst. apply Mautrix_SendAudio_burst. exact Hfull.
  - split; [apply Http_SendAudio_full; exact Hfull |].
    intros burst. apply Http_SendAudio_burst. exact Hfull.
Qed.

Lemma SendAudio_full_queue_witness :
  queue_full backlog /\
  after (MautrixCall.SendAudio alice2_full [1; 2; 3; 4]) = alice2_full /\
  after (HttpCall.SendAudio alice3_full [1; 2; 3; 4]) = alice3_full /\
  (HttpCall.run alice3_full (map HttpCall.DoSendAudio [[1; 2]; [3; 4]; [5; 6]])).1 = alice3_full.
Proof.
  assert (Hfull : queue_full backlog).
  { eexists. repeat split; reflexivity. }
  destruct (SendAudio_nonblocking_drops_newest_when_full alice2_full alice3_full [1; 2; 3; 4])
    as (_ & _ & _ & _ & H2 & H3).
  destruct (H2 Hfull) as [H2one _]. destruct (H3 Hfull) as [H3one H3all].
  split; [exact Hfull |]. split; [exact H2one |]. split; [exact H3one | apply H3all].
Defined.

(** ** The byte codec of the boundary *)

(** What [ReceiveAudio] hands out for the frame at the head of the
    incoming queue is the output of its loop on that frame. *)
Lemma Http_ReceiveAudio_head (c : HttpCall.Client) q pcm rest :
  HttpCall.decodeCh c = Some q -> buf q = pcm :: rest ->
  ret (HttpCall.ReceiveAudio c) = Returns (PCM.ReceiveAudio_out pcm) /\
  Chan.frames (HttpCall.decodeCh (after (HttpCall.ReceiveAudio c))) = rest.
Proof.
  intros Hq Hbuf. unfold HttpCall.ReceiveAudio, Chan.recv. rewrite Hq, Hbuf.
  destruct c; split; reflexivity.
Qed.

Lemma Mautrix_ReceiveAudio_head (c : MautrixCall.Client) q pcm rest :
  MautrixCall.decodeCh c = Some q -> buf q = pcm :: rest ->
  ret (MautrixCall.ReceiveAudio c) = Returns (PCM.ReceiveAudio_out pcm, None) /\
  Chan.frames (MautrixCall.decodeCh (after (MautrixCall.ReceiveAudio c))) = rest.
Proof.
  intros Hq Hbuf. unfold MautrixCall.ReceiveAudio, Chan.recv. rewrite Hq, Hbuf.
  destruct c; split; reflexivity.
Qed.

(** C8. The bytes [ReceiveAudio] writes for a frame of int16 samples
    (low byte, then high byte), read back the way [SendAudio] reads its
    input, are the frame again; the bytes are twice as many as the
    samples, and each of them is a byte. *)
Theorem pcm_bytes_roundtrip (pcm : list Z) :
  Forall is_int16 pcm ->
  PCM.SendAudio_samples (PCM.ReceiveAudio_out pcm) = pcm /\
  length (PCM.ReceiveAudio_out pcm) = (2 * length pcm)%nat /\
  PCM.ReceiveAudio_out pcm = flat_map (fun v => [byte v; byte (Z.shiftr v 8)]) pcm.
Proof.
  intros Hpcm.
  rewrite SendAudio_samples_pairs, ReceiveAudio_out_bytes.
  split; [apply pairs_le_bytes; assumption |].
  split; [apply length_le_bytes | reflexivity].
Qed.

Lemma pcm_bytes_roundtrip_witness :
  Forall is_int16 [-32768; -1; 0; 255; 256; 32767] /\
  PCM.ReceiveAudio_out [-32768; -1; 0; 255; 256; 32767]
    = [0; 128; 255; 255; 0; 0; 255; 0; 0; 1; 255; 127] /\
  PCM.SendAudio_samples [0; 128; 255; 255; 0; 0; 255; 0; 0; 1; 255; 127]
    = [-32768; -1; 0; 255; 256; 32767].
Proof.
  assert (H : Forall is_int16 [-32768; -1; 0; 255; 256; 32767]).
  { repeat constructor; unfold is_int16; lia. }
  destruct (pcm_bytes_roundtrip _ H) as (Hback & _ & Hout).
  split; [exact H |].
  split; [rewrite Hout; reflexivity |].
  change [0; 128; 255; 255; 0; 0; 255; 0; 0; 1; 255; 127]
    with (flat_map (fun v => [byte v; byte (Z.shiftr v 8)]) [-32768; -1; 0; 255; 256; 32767]).
  rewrite <- Hout. exact Hback.
Defined.

(** C10, as stated, does not hold in every state of the client.  The
    five bytes [1; 2; 3; 4; 5] make the frame [[513; 1027]]; on a client
    whose queue holds its fifty frames the call leaves the client as it
    was and the frame is in no queue.  Fifty calls on a fresh client,
    with nothing sent in between, lead there.  And on a mautrix client
    whose queue was never made the call reports
    [client not initialized]. *)
Lemma SendAudio_odd_length_not_always_queued :
  Nat.Odd (length [1; 2; 3; 4; 5]) /\
  PCM.SendAudio_samples [1; 2; 3; 4; 5] = [513; 1027] /\
  queue_full (MautrixCall.dataCh alice2_full) /\
  after (MautrixCall.SendAudio alice2_full [1; 2; 3; 4; 5]) = alice2_full /\
  Chan.frames (MautrixCall.dataCh (after (MautrixCall.SendAudio alice2_full [1; 2; 3; 4; 5])))
    = replicate 50 [0; 0] /\
  queue_full (HttpCall.dataCh alice3_full) /\
  after (HttpCall.SendAudio alice3_full [1; 2; 3; 4; 5]) = alice3_full /\
  Chan.frames (HttpCall.dataCh (after (HttpCall.SendAudio alice3_full [1; 2; 3; 4; 5])))
    = replicate 50 [0; 0] /\
  (MautrixCall.run alice2 (map MautrixCall.DoSendAudio (replicate 50 [0; 0; 0; 0]))).1
    = alice2_full /\
  (HttpCall.run alice3 (map HttpCall.DoSendAudio (replicate 50 [0; 0; 0; 0]))).1
    = alice3_full /\
  Chan.frames (HttpCall.dataCh
                 (HttpCall.run alice3
                    (map HttpCall.DoSendAudio
                       (replicate 50 [0; 0; 0; 0] ++ [[1; 2; 3; 4; 5]]))).1)
    = replicate 50 [0; 0] /\
  ret (MautrixCall.SendAudio zero2 [1; 2; 3; 4; 5]) = Returns (Some "client not initialized") /\
  Chan.frames (MautrixCall.dataCh (after (MautrixCall.SendAudio zero2 [1; 2; 3; 4; 5]))) = [].
Proof.
  split; [exists 2%nat; reflexivity |].
  split; [reflexivity |].
  split; [eexists; split; [reflexivity | split; reflexivity] |].
  split; [reflexivity |].
  split; [reflexivity |].
  split; [eexists; split; [reflexivity | split; reflexivity] |].
  split; [reflexivity |].
  split; [reflexivity |].
  split; [vm_compute; reflexivity |].
  split; [vm_compute; reflexivity |].
  split; [vm_compute; reflexivity |].
  split; reflexivity.
Qed.

(** C10, amended.  A slice of odd length loses its last byte without a
    word: [SendAudio] builds one frame of [len/2] samples, the frame of
    the slice without that byte, and runs exactly as it does on that
    shorter slice.  What becomes of the frame depends on the queue: with
    room left it is appended behind the frames already waiting; on a
    full queue, and on a queue that was never made, the client is left
    as it was and the frame is lost.  The HTTP client never reports
    anything; the mautrix client reports no error when it has a queue,
    and [client not initialized] when it has none.  Nothing is sent to
    the room. *)
Theorem SendAudio_odd_length_ignores_last_byte :
  forall (c2 : MautrixCall.Client) (c3 : HttpCall.Client) (data : list Z),
    Nat.Odd (length data) ->
    let front := take (length data - 1) data in
    let samples := PCM.SendAudio_samples data in
    let r2 := MautrixCall.SendAudio c2 data in
    let r3 := HttpCall.SendAudio c3 data in
    length samples = (length data / 2)%nat /\
    samples = PCM.SendAudio_samples front /\
    r2 = MautrixCall.SendAudio c2 front /\
    r3 = HttpCall.SendAudio c3 front /\
    (forall q, MautrixCall.dataCh c2 = Some q -> (length (buf q) < cap q)%nat ->
       after r2 = MautrixCall.set_dataCh (Some (mkChan (cap q) (buf q ++ [samples]))) c2 /\
       ret r2 = Returns None) /\
    (forall q, MautrixCall.dataCh c2 = Some q -> (cap q <= length (buf q))%nat ->
       after r2 = c2 /\ ret r2 = Returns None) /\
    (MautrixCall.dataCh c2 = None ->
       after r2 = c2 /\ ret r2 = Returns (Some "client not initialized")) /\
    (forall q, HttpCall.dataCh c3 = Some q -> (length (buf q) < cap q)%nat ->
       after r3 = HttpCall.set_dataCh (Some (mkChan (cap q) (buf q ++ [samples]))) c3) /\
    (forall q, HttpCall.dataCh c3 = Some q -> (cap q <= length (buf q))%nat ->
       after r3 = c3) /\
    (HttpCall.dataCh c3 = None -> after r3 = c3) /\
    ret r3 = Returns tt /\
    sent r2 = [] /\ sent r3 = [].
Proof.
  intros c2 c3 data Hodd front samples r2 r3.
  assert (Hsame : samples = PCM.SendAudio_samples front).
  { subst samples. rewrite !SendAudio_samples_pairs. apply pairs_drop_last. exact Hodd. }
  split; [subst samples; rewrite SendAudio_samples_pairs; apply length_pairs |].
  split; [exact Hsame |].
  split; [subst r2; unfold MautrixCall.SendAudio; fold samples; rewrite Hsame; reflexivity |].
  split; [subst r3; unfold HttpCall.SendAudio; fold samples; rewrite Hsame; reflexivity |].
  subst r2 r3. unfold MautrixCall.SendAudio, HttpCall.SendAudio. fold samples.
  split; [| split; [| split; [| split; [| split; [| split; [| split; [| split]]]]]]].
  - intros q Hq Hroom. rewrite Hq, (try_send_room q samples Hroom). split; reflexivity.
  - intros q Hq Hfull. rewrite Hq, (try_send_full q samples Hfull), <- Hq.
    rewrite Mautrix_set_dataCh_same. split; reflexivity.
  - intros Hq. rewrite Hq. split; reflexivity.
  - intros q Hq Hroom. rewrite Hq, (try_send_room q samples Hroom). reflexivity.
  - intros q Hq Hfull. rewrite Hq, (try_send_full q samples Hfull), <- Hq.
    rewrite Http_set_dataCh_same. reflexivity.
  - intros Hq. rewrite Hq, try_send_nil, <- Hq. cbn [after].
    apply Http_set_dataCh_same.
  - destruct (try_send_returns (HttpCall.dataCh c3) samples) as [ch ->]. reflexivity.
  - destruct (MautrixCall.dataCh c2); [| reflexivity].
    destruct (try_send_returns (Some c) samples) as [ch ->]. reflexivity.
  - destruct (try_send_returns (HttpCall.dataCh c3) samples) as [ch ->]. reflexivity.
Qed.

Lemma SendAudio_odd_length_witness :
  Nat.Odd (length [1; 2; 3; 4; 5]) /\
  PCM.SendAudio_samples [1; 2; 3; 4; 5] = [513; 1027] /\
  HttpCall.SendAudio alice3 [1; 2; 3; 4; 5] = HttpCall.SendAudio alice3 [1; 2; 3; 4] /\
  MautrixCall.SendAudio alice2 [1; 2; 3; 4; 5] = MautrixCall.SendAudio alice2 [1; 2; 3; 4] /\
  Chan.frames (MautrixCall.dataCh (after (MautrixCall.SendAudio alice2 [1; 2; 3; 4; 5])))
    = [[513; 1027]] /\
  ret (MautrixCall.SendAudio alice2 [1; 2; 3; 4; 5]) = Returns None /\
  Chan.frames (HttpCall.dataCh (after (HttpCall.SendAudio alice3 [1; 2; 3; 4; 5])))
    = [[513; 1027]] /\
  after (MautrixCall.SendAudio alice2_full [1; 2; 3; 4; 5]) = alice2_full /\
  after (HttpCall.SendAudio alice3_full [1; 2; 3; 4; 5]) = alice3_full /\
  ret (MautrixCall.SendAudio zero2 [1; 2; 3; 4; 5]) = Returns (Some "client not initialized") /\
  after (HttpCall.SendAudio zero3 [1; 2; 3; 4; 5]) = zero3.
Proof.
  assert (H : Nat.Odd (length [1; 2; 3; 4; 5])) by (exists 2%nat; reflexivity).
  destruct (SendAudio_odd_length_ignores_last_byte alice2 alice3 _ H)
    as (_ & Hs & H2 & H3 & Hroom2 & _ & _ & Hroom3 & _).
  destruct (SendAudio_odd_length_ignores_last_byte alice2_full alice3_full _ H)
    as (_ & _ & _ & _ & _ & Hfull2 & _ & _ & Hfull3 & _).
  destruct (SendAudio_odd_length_ignores_last_byte zero2 zero3 _ H)
    as (_ & _ & _ & _ & _ & _ & Hnil2 & _ & _ & Hnil3 & _).
  destruct (Hroom2 (mkChan 50 []) eq_refl ltac:(cbn; lia)) as [Hafter2 Hret2].
  split; [exact H |].
  split; [rewrite Hs; reflexivity |].
  split; [exact H3 |].
  split; [exact H2 |].
  split; [rewrite Hafter2; reflexivity |].
  split; [exact Hret2 |].
  split; [rewrite (Hroom3 (mkChan 50 []) eq_refl ltac:(cbn; lia)); reflexivity |].
  split; [exact (proj1 (Hfull2 (mkChan 50 (replicate 50 [0; 0])) eq_refl ltac:(cbn; lia))) |].
  split; [exact (Hfull3 (mkChan 50 (replicate 50 [0; 0])) eq_refl ltac:(cbn; lia)) |].
  split; [exact (proj2 (Hnil2 eq_refl)) |].
  exact (Hnil3 eq_refl).
Defined.

(** ** Signaling payloads *)

Lemma append_nil_r (s : string) : s +:+ "" = s.
Proof.
  induction s as [| a s IH]; [reflexivity |].
  change (String a (s +:+ "") = String a s). f_equal. exact IH.
Qed.

(** C3. [SendCallAnswer] and [SendCandidates] send one message each.
    With an empty [callID] the stored [CurrentCallID] stays as it was and
    is the [call_id] of the message; with any other [callID] that value
    is stored and sent. *)
Theorem answer_and_candidates_call_id :
  forall (w : World) (c : Signaling.MatrixClient) (sdpAnswer callID : string)
         (candidates : option (list JSON)),
    let a := Signaling.SendCallAnswer w c sdpAnswer callID in
    let k := Signaling.SendCandidates w c candidates callID in
    (callID = "" ->
       Signaling.CurrentCallID (after a) = Signaling.CurrentCallID c /\
       call_ids (sent a) = [Some (JString (Signaling.CurrentCallID c))] /\
       Signaling.CurrentCallID (after k) = Signaling.CurrentCallID c /\
       call_ids (sent k) = [Some (JString (Signaling.CurrentCallID c))]) /\
    (callID <> "" ->
       Signaling.CurrentCallID (after a) = callID /\
       call_ids (sent a) = [Some (JString callID)] /\
       Signaling.CurrentCallID (after k) = callID /\
       call_ids (sent k) = [Some (JString callID)]).
Proof.
  intros w c sdpAnswer callID candidates a k. subst a k.
  unfold Signaling.SendCallAnswer, Signaling.SendCandidates.
  destruct (String.eqb_spec callID "") as [Hempty | Hgiven]; cbn.
  - split; [intros _; repeat split | intros Hne; contradiction].
  - split; [intros He; contradiction | intros _; repeat split].
Qed.

Lemma answer_and_candidates_call_id_witness :
  Signaling.CurrentCallID (after (Signaling.SendCallAnswer calm alice1 "v=0" ""))
    = "call-in-progress" /\
  call_ids (sent (Signaling.SendCandidates calm alice1 (Some []) "")) = [Some (JString "call-in-progress")] /\
  Signaling.CurrentCallID (after (Signaling.SendCallAnswer calm alice1 "v=0" "call-7")) = "call-7" /\
  call_ids (sent (Signaling.SendCandidates calm alice1 (Some []) "call-7")) = [Some (JString "call-7")].
Proof.
  destruct (answer_and_candidates_call_id calm alice1 "v=0" "" (Some [])) as [Hkeep _].
  destruct (answer_and_candidates_call_id calm alice1 "v=0" "call-7" (Some [])) as [_ Hset].
  destruct (Hkeep eq_refl) as (Ha & _ & _ & Hk).
  destruct (Hset ltac:(discriminate)) as (Ha' & _ & _ & Hk').
  repeat split; assumption.
Defined.

(** C6. For a gathered candidate the handler makes exactly one send: a
    [m.call.candidates] event whose [candidates] array holds that one
    candidate and whose [call_id] and [party_id] are the client's at
    that moment.  Over any run of gathered candidates there are as many
    messages as candidates, one candidate in each. *)
Theorem one_candidate_per_message :
  forall (w : World) (c2 : MautrixCall.Client) (c3 : HttpCall.Client),
    (forall ice, exists m,
        MautrixCall.OnICECandidate w c2 (Some ice) = [m] /\
        announces (MautrixCall.currentCallID c2) (MautrixCall.myPartyID c2) ice m) /\
    (forall ice, exists m,
        HttpCall.OnICECandidate w c3 (Some ice) = [m] /\
        announces (HttpCall.currentCallID c3) (HttpCall.myPartyID c3) ice m) /\
    (forall ices,
        Forall2 (announces (MautrixCall.currentCallID c2) (MautrixCall.myPartyID c2)) ices
          (snd (MautrixCall.run c2 (map (fun ice => MautrixCall.FireICECandidate w (Some ice)) ices)))) /\
    (forall ices,
        Forall2 (announces (HttpCall.currentCallID c3) (HttpCall.myPartyID c3)) ices
          (snd (HttpCall.run c3 (map (fun ice => HttpCall.FireICECandidate w (Some ice)) ices)))).
Proof.
  intros w c2 c3.
  assert (H2 : forall ice, exists m,
             MautrixCall.OnICECandidate w c2 (Some ice) = [m] /\
             announces (MautrixCall.currentCallID c2) (MautrixCall.myPartyID c2) ice m).
  { intros ice. eexists. split; [reflexivity |]. repeat split. }
  assert (H3 : forall ice, exists m,
             HttpCall.OnICECandidate w c3 (Some ice) = [m] /\
             announces (HttpCall.currentCallID c3) (HttpCall.myPartyID c3) ice m).
  { intros ice. eexists. split; [reflexivity |]. repeat split. }
  split; [exact H2 |]. split; [exact H3 |]. split.
  - induction ices as [| ice ices IH]; [constructor |].
    cbn [map MautrixCall.run MautrixCall.exec].
    destruct (MautrixCall.run c2 _) as [c' msgs] eqn:Hrun.
    destruct (H2 ice) as (m & -> & Hm). cbn. constructor; assumption.
  - induction ices as [| ice ices IH]; [constructor |].
    cbn [map HttpCall.run HttpCall.exec].
    destruct (HttpCall.run c3 _) as [c' msgs] eqn:Hrun.
    destruct (H3 ice) as (m & -> & Hm). cbn. constructor; assumption.
Qed.

Ltac invite_shape :=
  unfold sends_Invite, is_Invite, is_offer; cbn;
  repeat match goal with
         | |- _ /\ _ => split
         | |- exists _, _ => eexists
         | |- _ ≡ₚ _ => solve_Permutation
         | |- _ = _ => reflexivity
         end.

(** C7. The payload of every Invite has exactly the keys [call_id],
    [party_id], [lifetime], [offer] and [version]; [lifetime] is an
    integer (120000 from [SendCallInvite], 60000 from [StartCall]),
    [offer] is [{"type":"offer","sdp":...}] and [version] is ["1"].
    [SendCallInvite] always sends one; either [StartCall] sends one or,
    when it stopped before the send, none. *)
Theorem invite_payload_shape :
  forall (w : World) (c1 : Signaling.MatrixClient) (c2 : MautrixCall.Client)
         (c3 : HttpCall.Client) (sdpOffer : string),
    (exists m, sent (Signaling.SendCallInvite w c1 sdpOffer) = [m] /\
               sends_Invite sdpOffer m /\
               field "lifetime" (content m) = Some (JNumber 120000)) /\
    (sent (MautrixCall.StartCall w c2) = [] \/
     exists m sdp, sent (MautrixCall.StartCall w c2) = [m] /\
                   pc_CreateOffer w = Ok sdp /\
                   sends_Invite sdp m /\
                   field "lifetime" (content m) = Some (JNumber 60000)) /\
    (sent (HttpCall.StartCall w c3) = [] \/
     exists m sdp, sent (HttpCall.StartCall w c3) = [m] /\
                   sends_Invite sdp m /\
                   field "lifetime" (content m) = Some (JNumber 60000)).
Proof.
  intros w c1 c2 c3 sdpOffer. split; [| split].
  - eexists. split; [reflexivity |]. invite_shape.
  - unfold MautrixCall.StartCall, MautrixCall.BuildOfferSDP.
    destruct (gopus_NewEncoder w); [left; reflexivity |].
    destruct (webrtc_NewTrackLocalStaticSample w); [left; reflexivity |].
    destruct (pc_AddTrack w); [left; reflexivity |].
    destruct (pc_CreateOffer w) as [sdp | err]; [| left; reflexivity].
    destruct (pc_SetLocalDescription w sdp); [left; reflexivity |].
    destruct (gathering_completes w); [| left; reflexivity].
    right. exists (mkSent (MautrixCall.roomID c2) "m.call.invite"
                     (JObject [("call_id", JString (Sprintf "call-%d" [AInt (time_Now_Unix w)]));
                               ("lifetime", JNumber 60000);
                               ("offer", JObject [("type", JString "offer"); ("sdp", JString sdp)]);
                               ("version", JString "1");
                               ("party_id", JString (MautrixCall.myPartyID c2))])), sdp.
    split; [reflexivity |]. split; [reflexivity |]. invite_shape.
  - unfold HttpCall.StartCall.
    destruct (gathering_completes w); [| left; reflexivity].
    right. eexists. eexists. split; [reflexivity |]. invite_shape.
Qed.

(** ** The party identifier *)

Section PartyId.

Lemma Signaling_exec_party (c : Signaling.MatrixClient) (op : Signaling.call) :
  Signaling.MyPartyID (Signaling.exec c op).1 = Signaling.MyPartyID c /\
  Forall (tagged_with (Signaling.MyPartyID c)) (Signaling.exec c op).2.
Proof.
  destruct op as [w sdp | w sdp callID | w cands callID | | | |]; cbn;
    try solve [split; [reflexivity | constructor]].
  - split; [reflexivity |]. repeat constructor.
  - destruct (String.eqb callID ""); (split; [reflexivity |]); repeat constructor.
  - destruct (String.eqb callID ""); (split; [reflexivity |]); repeat constructor.
Qed.

Lemma Signaling_run_party (ops : list Signaling.call) :
  forall c, Signaling.MyPartyID (Signaling.run c ops).1 = Signaling.MyPartyID c /\
            Forall (tagged_with (Signaling.MyPartyID c)) (Signaling.run c ops).2.
Proof.
  induction ops as [| op ops IH]; intros c; cbn [Signaling.run].
  - split; [reflexivity | constructor].
  - pose proof (Signaling_exec_party c op) as [Hid Hmsgs].
    destruct (Signaling.exec c op) as [c1 s1]. cbn [fst snd] in *.
    pose proof (IH c1) as [Hid' Hmsgs'].
    destruct (Signaling.run c1 ops) as [c2 s2]. cbn [fst snd] in *.
    split; [congruence |].
    apply Forall_app. split; [assumption |]. rewrite <- Hid. assumption.
Qed.

Lemma Mautrix_StartCall_party (w : World) (c : MautrixCall.Client) :
  MautrixCall.myPartyID (after (MautrixCall.StartCall w c)) = MautrixCall.myPartyID c /\
  Forall (tagged_with (MautrixCall.myPartyID c)) (sent (MautrixCall.StartCall w c)).
Proof.
  unfold MautrixCall.StartCall, MautrixCall.BuildOfferSDP.
  destruct (gopus_NewEncoder w); [split; [reflexivity | constructor] |].
  destruct (webrtc_NewTrackLocalStaticSample w); [split; [reflexivity | constructor] |].
  destruct (pc_AddTrack w); [split; [reflexivity | constructor] |].
  destruct (pc_CreateOffer w) as [sdp | err]; [| split; [reflexivity | constructor]].
  destruct (pc_SetLocalDescription w sdp); [split; [reflexivity | constructor] |].
  destruct (gathering_completes w); (split; [reflexivity |]); repeat constructor.
Qed.

Lemma Mautrix_exec_party (c : MautrixCall.Client) (op : MautrixCall.call) :
  MautrixCall.myPartyID (MautrixCall.exec c op).1 = MautrixCall.myPartyID c /\
  Forall (tagged_with (MautrixCall.myPartyID c)) (MautrixCall.exec c op).2.
Proof.
  destruct op as [w | data | | w [ice |] | pcm |]; cbn [MautrixCall.exec fst snd].
  - apply Mautrix_StartCall_party.
  - destruct (Mautrix_SendAudio_effect c data) as (ch & e & _ & -> & _).
    split; [reflexivity | constructor].
  - unfold MautrixCall.ReceiveAudio.
    destruct (MautrixCall.decodeCh c); [| split; [reflexivity | constructor]].
    destruct (Chan.recv _) as [[pcm ch] |]; split; try reflexivity; constructor.
  - split; [reflexivity |]. repeat constructor.
  - split; [reflexivity | constructor].
  - unfold MautrixCall.OnTrack_frame.
    destruct (Chan.try_send _ _); split; try reflexivity; constructor.
  - unfold MautrixCall.send_loop_next.
    destruct (Chan.recv _) as [[pcm ch] |]; split; try reflexivity; constructor.
Qed.

Lemma Mautrix_run_party (ops : list MautrixCall.call) :
  forall c, MautrixCall.myPartyID (MautrixCall.run c ops).1 = MautrixCall.myPartyID c /\
            Forall (tagged_with (MautrixCall.myPartyID c)) (MautrixCall.run c ops).2.
Proof.
  induction ops as [| op ops IH]; intros c; cbn [MautrixCall.run].
  - split; [reflexivity | constructor].
  - pose proof (Mautrix_exec_party c op) as [Hid Hmsgs].
    destruct (MautrixCall.exec c op) as [c1 s1]. cbn [fst snd] in *.
    pose proof (IH c1) as [Hid' Hmsgs'].
    destruct (MautrixCall.run c1 ops) as [c2 s2]. cbn [fst snd] in *.
    split; [congruence |].
    apply Forall_app. split; [assumption |]. rewrite <- Hid. assumption.
Qed.

Lemma Http_exec_party (c : HttpCall.Client) (op : HttpCall.call) :
  HttpCall.myPartyID (HttpCall.exec c op).1 = HttpCall.myPartyID c /\
  Forall (tagged_with (HttpCall.myPartyID c)) (HttpCall.exec c op).2.
Proof.
  destruct op as [w | data | | w [ice |] | pcm |]; cbn [HttpCall.exec fst snd].
  - unfold HttpCall.StartCall.
    destruct (gathering_completes w); (split; [reflexivity |]); repeat constructor.
  - destruct (Http_SendAudio_effect c data) as (ch & _ & ->).
    split; [reflexivity | constructor].
  - unfold HttpCall.ReceiveAudio.
    destruct (Chan.recv _) as [[pcm ch] |]; split; try reflexivity; constructor.
  - split; [reflexivity |]. repeat constructor.
  - split; [reflexivity | constructor].
  - unfold HttpCall.OnTrack_frame.
    destruct (Chan.try_send _ _); split; try reflexivity; constructor.
  - unfold HttpCall.send_loop_next.
    destruct (Chan.recv _) as [[pcm ch] |]; split; try reflexivity; constructor.
Qed.

Lemma Http_run_party (ops : list HttpCall.call) :
  forall c, HttpCall.myPartyID (HttpCall.run c ops).1 = HttpCall.myPartyID c /\
            Forall (tagged_with (HttpCall.myPartyID c)) (HttpCall.run c ops).2.
Proof.
  induction ops as [| op ops IH]; intros c; cbn [HttpCall.run].
  - split; [reflexivity | constructor].
  - pose proof (Http_exec_party c op) as [Hid Hmsgs].
    destruct (HttpCall.exec c op) as [c1 s1]. cbn [fst snd] in *.
    pose proof (IH c1) as [Hid' Hmsgs'].
    destruct (HttpCall.run c1 ops) as [c2 s2]. cbn [fst snd] in *.
    split; [congruence |].
    apply Forall_app. split; [assumption |]. rewrite <- Hid. assumption.
Qed.

End PartyId.

(** C9. The party identifier is drawn once, when the client is built,
    and no later step touches it: after any sequence of method calls and
    engine callbacks the accessor still returns the identifier of the
    construction, and every signaling message sent along the way carries
    it as its [party_id]. *)
Theorem party_id_is_stable :
  (forall w hs user pw room c,
      Signaling.NewMatrixClient w hs user pw room = Ok c ->
      Signaling.MyPartyID c = uuid_NewString w 0 /\
      forall ops, Signaling.GetPartyID (Signaling.run c ops).1 = uuid_NewString w 0 /\
                  Forall (tagged_with (uuid_NewString w 0)) (Signaling.run c ops).2) /\
  (forall w hs user pw room c,
      MautrixCall.NewClient w hs user pw room = Ok c ->
      MautrixCall.myPartyID c = uuid_NewString w 0 /\
      forall ops, MautrixCall.myPartyID (MautrixCall.run c ops).1 = uuid_NewString w 0 /\
                  Forall (tagged_with (uuid_NewString w 0)) (MautrixCall.run c ops).2) /\
  (forall w hs user pw room c,
      HttpCall.NewClient w hs user pw room = Ok c ->
      HttpCall.myPartyID c = uuid_NewString w 0 /\
      forall ops, HttpCall.myPartyID (HttpCall.run c ops).1 = uuid_NewString w 0 /\
                  Forall (tagged_with (uuid_NewString w 0)) (HttpCall.run c ops).2).
Proof.
  split; [| split].
  - intros w hs user pw room c Hnew.
    assert (Hid : Signaling.MyPartyID c = uuid_NewString w 0).
    { unfold Signaling.NewMatrixClient in Hnew.
      destruct (Signaling.postJSON_login _ _ _); [| discriminate].
      injection Hnew as <-. reflexivity. }
    split; [exact Hid |]. intros ops. rewrite <- Hid.
    apply Signaling_run_party.
  - intros w hs user pw room c Hnew.
    assert (Hid : MautrixCall.myPartyID c = uuid_NewString w 0).
    { unfold MautrixCall.NewClient in Hnew.
      destruct (mautrix_NewClient w hs); [discriminate |].
      destruct (mautrix_Login w user pw) as [[uid tok] |]; [| discriminate].
      destruct (webrtc_NewPeerConnection w); [discriminate |].
      injection Hnew as <-. reflexivity. }
    split; [exact Hid |]. intros ops. rewrite <- Hid.
    apply Mautrix_run_party.
  - intros w hs user pw room c Hnew.
    assert (Hid : HttpCall.myPartyID c = uuid_NewString w 0).
    { unfold HttpCall.NewClient in Hnew.
      destruct (HttpCall.postJSON_login _ _ _); [| discriminate].
      destruct (webrtc_NewPeerConnection w); [discriminate |].
      injection Hnew as <-. reflexivity. }
    split; [exact Hid |]. intros ops. rewrite <- Hid.
    apply Http_run_party.
Qed.

Lemma party_id_is_stable_witness :
  (exists c, Signaling.NewMatrixClient calm "https://example.org" "alice" "secret" "!r:example.org" = Ok c /\
             Signaling.GetPartyID (Signaling.run c day1).1 = "uuid-0" /\
             length (Signaling.run c day1).2 = 3%nat /\
             Forall (tagged_with "uuid-0") (Signaling.run c day1).2) /\
  (exists c, MautrixCall.NewClient calm "https://example.org" "alice" "secret" "!r:example.org" = Ok c /\
             length (MautrixCall.run c day2).2 = 2%nat /\
             Forall (tagged_with "uuid-0") (MautrixCall.run c day2).2) /\
  (exists c, HttpCall.NewClient calm "https://example.org" "alice" "secret" "!r:example.org" = Ok c /\
             length (HttpCall.run c day3).2 = 2%nat /\
             Forall (tagged_with "uuid-0") (HttpCall.run c day3).2).
Proof.
  destruct party_id_is_stable as (H1 & H2 & H3).
  split; [| split].
  - pose (c := Signaling.mkMatrixClient "https://example.org" "" "" "!r:example.org" "" "uuid-0").
    assert (Hnew : Signaling.NewMatrixClient calm "https://example.org" "alice" "secret"
                     "!r:example.org" = Ok c) by reflexivity.
    destruct (H1 _ _ _ _ _ _ Hnew) as [_ Hrun].
    destruct (Hrun day1) as [Hid Hall].
    exists c. split; [exact Hnew |]. split; [exact Hid |].
    split; [reflexivity | exact Hall].
  - pose (c := MautrixCall.mkClient "https://example.org" "alice" "secret" "!r:example.org"
                 "" "uuid-0" "@alice:example.org" (Chan.make 50) (Chan.make 50)).
    assert (Hnew : MautrixCall.NewClient calm "https://example.org" "alice" "secret"
                     "!r:example.org" = Ok c) by reflexivity.
    destruct (H2 _ _ _ _ _ _ Hnew) as [_ Hrun].
    destruct (Hrun day2) as [_ Hall].
    exists c. split; [exact Hnew |]. split; [reflexivity | exact Hall].
  - pose (c := HttpCall.mkClient "https://example.org" "" "" "!r:example.org"
                 "" "uuid-0" (Chan.make 50) (Chan.make 50)).
    assert (Hnew : HttpCall.NewClient calm "https://example.org" "alice" "secret"
                     "!r:example.org" = Ok c) by reflexivity.
    destruct (H3 _ _ _ _ _ _ Hnew) as [_ Hrun].
    destruct (Hrun day3) as [_ Hall].
    exists c. split; [exact Hnew |]. split; [reflexivity | exact Hall].
Defined.

(** ** The HTTP helper *)

Section PostJSON.
Variables (w : World) (url : string) (payload : JSON) (out : bool).

Lemma status_error_text (resp : Response) :
  Errorf "HTTP %d: %s" [AInt (StatusCode resp); AStr (RespBody resp)] = status_error resp.
Proof.
  unfold Errorf, status_error. cbn [Sprintf Ascii.eqb Bool.eqb orb andb render].
  rewrite append_nil_r. reflexivity.
Qed.

(** Both helpers, read from the moment the response is in. *)
Lemma Signaling_postJSON_cases :
  Signaling.postJSON w url payload out =
  match round_trip w url payload with
  | Err e => Err e
  | Ok resp =>
      if 300 <=? StatusCode resp then Err (status_error resp)
      else if out then json_Decode w true (RespBody resp) else Ok JNull
  end.
Proof.
  unfold Signaling.postJSON, round_trip, mbind, result_bind, must.
  destruct (json_Marshal w payload); [reflexivity |].
  destruct (http_NewRequest w url); [reflexivity |].
  destruct (http_Do w _) as [resp | e]; [| reflexivity].
  rewrite status_error_text. reflexivity.
Qed.

Lemma Http_postJSON_cases :
  HttpCall.postJSON w url payload out =
  match round_trip w url payload with
  | Err e => Err e
  | Ok resp =>
      if 300 <=? StatusCode resp then Err (status_error resp)
      else json_Decode w out (RespBody resp)
  end.
Proof.
  unfold HttpCall.postJSON, http_Post, round_trip, mbind, result_bind, must.
  destruct (json_Marshal w payload); [reflexivity |].
  destruct (http_NewRequest w url); [reflexivity |].
  destruct (http_Do w _) as [resp | e]; [| reflexivity].
  rewrite status_error_text. reflexivity.
Qed.

End PostJSON.

(** C4, as stated, does not hold.  The server accepts the request and
    answers 200 with an empty body: the request was performed, the status
    is below 300, and both helpers return the decoder's error. *)
Lemma postJSON_errs_on_accepted_request :
  round_trip silent_ok "https://example.org/send" (JObject []) = Ok (mkResponse 200 "") /\
  Signaling.postJSON silent_ok "https://example.org/send" (JObject []) true = Err "EOF" /\
  HttpCall.postJSON silent_ok "https://example.org/send" (JObject []) true = Err "EOF" /\
  ~ errs_only_on_failure_or_status Signaling.postJSON
      silent_ok "https://example.org/send" (JObject []) true /\
  ~ errs_only_on_failure_or_status HttpCall.postJSON
      silent_ok "https://example.org/send" (JObject []) true.
Proof.
  assert (Hno : ~ (is_Err (round_trip silent_ok "https://example.org/send" (JObject [])) \/
                   exists resp, round_trip silent_ok "https://example.org/send" (JObject []) = Ok resp /\
                                300 <= StatusCode resp)).
  { intros [Hrt | (resp & Hrt & Hst)].
    - exact Hrt.
    - injection Hrt as <-. cbn in Hst. lia. }
  repeat split; try reflexivity.
  - intros [Hclaim _]. apply Hno, Hclaim. exact I.
  - intros [Hclaim _]. apply Hno, Hclaim. exact I.
Qed.

(** C4, amended.  [postJSON] returns an error in exactly these cases:
    the request could not be performed (encoding the payload, building
    the request or the exchange itself failed), and then it is that
    error; the status is 300 or more, and then the error reads
    "HTTP <status>: <body>"; or the status is below 300 and the body does
    not decode into [out], and then it is the decoder's error (the first
    helper skips decoding when [out] is nil). *)
Theorem postJSON_error_cases :
  forall (w : World) (url : string) (payload : JSON) (out : bool),
    let rt := round_trip w url payload in
    let p1 := Signaling.postJSON w url payload out in
    let p3 := HttpCall.postJSON w url payload out in
    (forall e, rt = Err e -> p1 = Err e /\ p3 = Err e) /\
    (forall resp, rt = Ok resp -> 300 <= StatusCode resp ->
                  p1 = Err (status_error resp) /\ p3 = Err (status_error resp)) /\
    (forall resp, rt = Ok resp -> StatusCode resp < 300 ->
                  p1 = (if out then json_Decode w true (RespBody resp) else Ok JNull) /\
                  p3 = json_Decode w out (RespBody resp)) /\
    (is_Err p1 <->
       is_Err rt \/
       exists resp, rt = Ok resp /\
         (300 <= StatusCode resp \/
          (StatusCode resp < 300 /\ out = true /\ is_Err (json_Decode w true (RespBody resp))))) /\
    (is_Err p3 <->
       is_Err rt \/
       exists resp, rt = Ok resp /\
         (300 <= StatusCode resp \/
          (StatusCode resp < 300 /\ is_Err (json_Decode w out (RespBody resp))))).
Proof.
  intros w url payload out rt p1 p3. subst p1 p3.
  rewrite Signaling_postJSON_cases, Http_postJSON_cases. fold rt.
  destruct rt as [resp | e]; [destruct (Z.leb_spec 300 (StatusCode resp)) as [Hhigh | Hlow] |];
    (split; [| split; [| split; [| split]]]).
  (* refused: the status is 300 or more *)
  - discriminate.
  - intros r [= <-] _. split; reflexivity.
  - intros r [= <-] Hr. lia.
  - split; [intros _ | intros _; exact I]. right. exists resp. auto.
  - split; [intros _ | intros _; exact I]. right. exists resp. auto.
  (* accepted: the status is below 300 *)
  - discriminate.
  - intros r [= <-] Hr. lia.
  - intros r [= <-] _. split; reflexivity.
  - split.
    + intros Herr. right. exists resp. split; [reflexivity |]. right.
      destruct out; [auto | destruct Herr].
    + intros [[] | (r & [= <-] & [Hr | (_ & -> & Hd)])]; [lia | exact Hd].
  - split.
    + intros Herr. right. exists resp. auto.
    + intros [[] | (r & [= <-] & [Hr | (_ & Hd)])]; [lia | exact Hd].
  (* the request was not performed *)
  - intros e' [= <-]. split; reflexivity.
  - discriminate.
  - discriminate.
  - split; intros _; [left |]; exact I.
  - split; intros _; [left |]; exact I.
Qed.

Lemma postJSON_error_cases_witness :
  Signaling.postJSON forbidden "https://example.org/send" (JObject []) true
    = Err "HTTP 403: M_FORBIDDEN" /\
  HttpCall.postJSON forbidden "https://example.org/send" (JObject []) true
    = Err "HTTP 403: M_FORBIDDEN" /\
  Signaling.postJSON calm "https://example.org/send" (JObject []) true = Ok (JObject []) /\
  HttpCall.postJSON silent_ok "https://example.org/send" (JObject []) true = Err "EOF".
Proof.
  destruct (postJSON_error_cases forbidden "https://example.org/send" (JObject []) true)
    as (_ & Hhigh & _).
  destruct (Hhigh (mkResponse 403 "M_FORBIDDEN") eq_refl ltac:(cbn; lia)) as [H1 H3].
  destruct (postJSON_error_cases calm "https://example.org/send" (JObject []) true)
    as (_ & _ & Hcalm & _).
  destruct (Hcalm (mkResponse 200 "{}") eq_refl ltac:(cbn; lia)) as [H1' _].
  destruct (postJSON_error_cases silent_ok "https://example.org/send" (JObject []) true)
    as (_ & _ & Hsilent & _).
  destruct (Hsilent (mkResponse 200 "") eq_refl ltac:(cbn; lia)) as [_ H3'].
  repeat split; assumption.
Defined.

(** ** Call identifiers *)

Lemma call_id_text (w : World) :
  Sprintf "call-%d" [AInt (time_Now_Unix w)] = clock_call_id w.
Proof.
  unfold clock_call_id. cbn [Sprintf Ascii.eqb Bool.eqb orb andb render].
  rewrite append_nil_r. reflexivity.
Qed.


(** Both [StartCall]s take it from the clock, to the second. *)
Lemma Http_StartCall_call_id (w : World) (c : HttpCall.Client) :
  gathering_completes w = true ->
  HttpCall.currentCallID (after (HttpCall.StartCall w c)) = clock_call_id w /\
  call_ids (sent (HttpCall.StartCall w c)) = [Some (JString (clock_call_id w))].
Proof.
  intros Hdone. unfold HttpCall.StartCall. rewrite Hdone, call_id_text.
  split; reflexivity.
Qed.

Lemma Mautrix_StartCall_call_id (w : World) (c : MautrixCall.Client) m :
  sent (MautrixCall.StartCall w c) = [m] ->
  MautrixCall.currentCallID (after (MautrixCall.StartCall w c)) = clock_call_id w /\
  field "call_id" (content m) = Some (JString (clock_call_id w)).
Proof.
  unfold MautrixCall.StartCall, MautrixCall.BuildOfferSDP.
  destruct (gopus_NewEncoder w); [discriminate |].
  destruct (webrtc_NewTrackLocalStaticSample w); [discriminate |].
  destruct (pc_AddTrack w); [discriminate |].
  destruct (pc_CreateOffer w) as [sdp | err]; [| discriminate].
  destruct (pc_SetLocalDescription w sdp); [discriminate |].
  destruct (gathering_completes w); [| discriminate].
  rewrite call_id_text. cbn [sent after]. intros [= <-]. split; reflexivity.
Qed.

Lemma clock_call_id_nonempty (w : World) : clock_call_id w <> "".
Proof. unfold clock_call_id. discriminate. Qed.

(** C2 fails on [StartCall]: the identifier is the clock reading in
    whole seconds, so attempts made within the same second share it.
    Here one client starts two calls in a row, and two clients on
    different devices start one each, all at 1700000000: every Invite
    carries [call-1700000000]. *)
Theorem StartCall_call_id_repeats_within_a_second :
  call_ids (HttpCall.run alice3 [HttpCall.DoStartCall calm; HttpCall.DoStartCall calm]).2
    = [Some (JString "call-1700000000"); Some (JString "call-1700000000")] /\
  call_ids (MautrixCall.run alice2 [MautrixCall.DoStartCall calm; MautrixCall.DoStartCall calm]).2
    = [Some (JString "call-1700000000"); Some (JString "call-1700000000")] /\
  call_ids (sent (HttpCall.StartCall calm alice3)) = [Some (JString "call-1700000000")] /\
  call_ids (sent (HttpCall.StartCall calm bob3)) = [Some (JString "call-1700000000")] /\
  HttpCall.myPartyID alice3 <> HttpCall.myPartyID bob3.
Proof.
  repeat split; try reflexivity. discriminate.
Qed.

(** ** Failures of [StartCall] *)

(** The mautrix client reports a failed offer and sends nothing. *)
Lemma Mautrix_StartCall_offer_failure (w : World) (c : MautrixCall.Client) :
  (is_Err (pc_CreateOffer w) \/
   exists sdp, pc_CreateOffer w = Ok sdp /\ is_Some (pc_SetLocalDescription w sdp)) ->
  exists e, ret (MautrixCall.StartCall w c) = Returns (Some e) /\
            sent (MautrixCall.StartCall w c) = [].
Proof.
  intros Hfail. unfold MautrixCall.StartCall, MautrixCall.BuildOfferSDP.
  destruct (gopus_NewEncoder w); [eauto |].
  destruct (webrtc_NewTrackLocalStaticSample w); [eauto |].
  destruct (pc_AddTrack w); [eauto |].
  destruct Hfail as [Hoffer | (sdp & -> & [e He])].
  - destruct (pc_CreateOffer w); [destruct Hoffer | eauto].
  - rewrite He. eauto.
Qed.

(** Both clients report a failed send of the Invite. *)
Lemma Mautrix_StartCall_send_failure (w : World) (c : MautrixCall.Client) m :
  sent (MautrixCall.StartCall w c) = [m] ->
  is_Some (mautrix_SendMessageEvent w (target m) (event_type m) (content m)) ->
  exists e, ret (MautrixCall.StartCall w c) = Returns (Some e).
Proof.
  unfold MautrixCall.StartCall, MautrixCall.BuildOfferSDP.
  destruct (gopus_NewEncoder w); [discriminate |].
  destruct (webrtc_NewTrackLocalStaticSample w); [discriminate |].
  destruct (pc_AddTrack w); [discriminate |].
  destruct (pc_CreateOffer w) as [sdp | err]; [| discriminate].
  destruct (pc_SetLocalDescription w sdp); [discriminate |].
  destruct (gathering_completes w); [| discriminate].
  cbn. intros [= <-]. cbn. intros [e ->]. eauto.
Qed.

Lemma Http_StartCall_send_failure (w : World) (c : HttpCall.Client) m :
  sent (HttpCall.StartCall w c) = [m] ->
  is_Err (HttpCall.postJSON w (target m) (content m) true) ->
  exists e, ret (HttpCall.StartCall w c) = Returns (Some e).
Proof.
  unfold HttpCall.StartCall.
  destruct (gathering_completes w); [| discriminate].
  cbn. intros [= <-]. cbn.
  destruct (HttpCall.postJSON _ _ _ _); [intros [] | eauto].
Qed.

(** The HTTP client never looks at the outcome of the offer. *)
Lemma Http_StartCall_ignores_offer (w : World) (c : HttpCall.Client) (o : result string) :
  ret (HttpCall.StartCall (with_pc_CreateOffer o w) c) = Blocks \/
  exists m, sent (HttpCall.StartCall (with_pc_CreateOffer o w) c) = [m] /\
            ret (HttpCall.StartCall (with_pc_CreateOffer o w) c)
              = Returns (err_of (HttpCall.postJSON w (target m) (content m) true)).
Proof.
  unfold HttpCall.StartCall. cbn.
  destruct (gathering_completes w); [right | left; reflexivity].
  eexists. split; reflexivity.
Qed.

(** C5 fails on the HTTP client: [CreateOffer] fails, [StartCall] still
    sends an Invite, with an empty SDP, and returns nil.  The mautrix
    client in the same world returns the error and sends nothing. *)
Theorem StartCall_reports_success_without_offer :
  pc_CreateOffer no_offer = Err "connection closed" /\
  ret (HttpCall.StartCall no_offer alice3) = Returns None /\
  (exists m, sent (HttpCall.StartCall no_offer alice3) = [m] /\ sends_Invite "" m) /\
  ret (MautrixCall.StartCall no_offer alice2)
    = Returns (Some "BuildOfferSDP error: CreateOffer error: connection closed") /\
  sent (MautrixCall.StartCall no_offer alice2) = [].
Proof.
  split; [reflexivity |]. split; [reflexivity |].
  split; [eexists; split; [reflexivity | invite_shape] |].
  split; reflexivity.
Qed.

(** ** The queues of a client that [NewClient] built *)

Section Queues.

Lemma try_send_made ch (x : list Z) ch' :
  queue_made ch -> Chan.try_send ch x = Returns ch' -> queue_made ch'.
Proof.
  intros (q & -> & Hcap & Hlen). unfold Chan.try_send, Chan.send.
  destruct (decide (length (buf q) < cap q)%nat) as [Hroom | Hfull]; intros [= <-].
  - eexists. split; [reflexivity |]. cbn. rewrite length_app. cbn. lia.
  - exists q. auto.
Qed.

Lemma recv_made ch (x : list Z) ch' :
  queue_made ch -> Chan.recv ch = Returns (x, ch') -> queue_made ch'.
Proof.
  intros (q & -> & Hcap & Hlen). unfold Chan.recv.
  destruct (buf q) as [| y rest] eqn:Hbuf; [discriminate |]. intros [= <- <-].
  eexists. split; [reflexivity |]. cbn in *. lia.
Qed.

Lemma Mautrix_exec_queues (c : MautrixCall.Client) (op : MautrixCall.call) :
  queue_made (MautrixCall.dataCh c) /\ queue_made (MautrixCall.decodeCh c) ->
  queue_made (MautrixCall.dataCh (MautrixCall.exec c op).1) /\
  queue_made (MautrixCall.decodeCh (MautrixCall.exec c op).1).
Proof.
  intros [Hdata Hdec].
  destruct op as [w | data | | w cand | pcm |]; cbn [MautrixCall.exec fst].
  - unfold MautrixCall.StartCall, MautrixCall.BuildOfferSDP.
    destruct (gopus_NewEncoder w); [auto |].
    destruct (webrtc_NewTrackLocalStaticSample w); [auto |].
    destruct (pc_AddTrack w); [auto |].
    destruct (pc_CreateOffer w) as [sdp | err]; [| auto].
    destruct (pc_SetLocalDescription w sdp); [auto |].
    destruct (gathering_completes w); auto.
  - destruct (Mautrix_SendAudio_effect c data) as (ch & e & Hch & -> & _).
    split; [exact (try_send_made _ _ _ Hdata Hch) | exact Hdec].
  - unfold MautrixCall.ReceiveAudio.
    destruct (MautrixCall.decodeCh c) as [q |] eqn:Hd; [| cbn [after]; rewrite Hd; auto].
    destruct (Chan.recv (Some q)) as [[pcm ch] |] eqn:Hrecv;
      [| cbn [after]; rewrite Hd; auto].
    split; [exact Hdata | exact (recv_made _ _ _ Hdec Hrecv)].
  - auto.
  - unfold MautrixCall.OnTrack_frame.
    destruct (Chan.try_send _ _) as [ch |] eqn:Hch; [| auto].
    split; [exact Hdata | exact (try_send_made _ _ _ Hdec Hch)].
  - unfold MautrixCall.send_loop_next.
    destruct (Chan.recv _) as [[pcm ch] |] eqn:Hrecv; [| auto].
    split; [exact (recv_made _ _ _ Hdata Hrecv) | exact Hdec].
Qed.

Lemma Http_exec_queues (c : HttpCall.Client) (op : HttpCall.call) :
  queue_made (HttpCall.dataCh c) /\ queue_made (HttpCall.decodeCh c) ->
  queue_made (HttpCall.dataCh (HttpCall.exec c op).1) /\
  queue_made (HttpCall.decodeCh (HttpCall.exec c op).1).
Proof.
  intros [Hdata Hdec].
  destruct op as [w | data | | w cand | pcm |]; cbn [HttpCall.exec fst].
  - unfold HttpCall.StartCall. destruct (gathering_completes w); auto.
  - destruct (Http_SendAudio_effect c data) as (ch & Hch & ->).
    split; [exact (try_send_made _ _ _ Hdata Hch) | exact Hdec].
  - unfold HttpCall.ReceiveAudio.
    destruct (Chan.recv _) as [[pcm ch] |] eqn:Hrecv; [| auto].
    split; [exact Hdata | exact (recv_made _ _ _ Hdec Hrecv)].
  - auto.
  - unfold HttpCall.OnTrack_frame.
    destruct (Chan.try_send _ _) as [ch |] eqn:Hch; [| auto].
    split; [exact Hdata | exact (try_send_made _ _ _ Hdec Hch)].
  - unfold HttpCall.send_loop_next.
    destruct (Chan.recv _) as [[pcm ch] |] eqn:Hrecv; [| auto].
    split; [exact (recv_made _ _ _ Hdata Hrecv) | exact Hdec].
Qed.

(** Whatever happens to a client after [NewClient], both its queues
    stay made, with room for 50 frames. *)
Lemma Mautrix_queues_stay_made w hs user pw room c (ops : list MautrixCall.call) :
  MautrixCall.NewClient w hs user pw room = Ok c ->
  queue_made (MautrixCall.dataCh (MautrixCall.run c ops).1) /\
  queue_made (MautrixCall.decodeCh (MautrixCall.run c ops).1).
Proof.
  intros Hnew.
  assert (Hstart : queue_made (MautrixCall.dataCh c) /\ queue_made (MautrixCall.decodeCh c)).
  { unfold MautrixCall.NewClient in Hnew.
    destruct (mautrix_NewClient w hs); [discriminate |].
    destruct (mautrix_Login w user pw) as [[uid tok] |]; [| discriminate].
    destruct (webrtc_NewPeerConnection w); [discriminate |].
    injection Hnew as <-. split; eexists; (split; [reflexivity |]); cbn; lia. }
  clear Hnew. revert c Hstart.
  induction ops as [| op ops IH]; intros c Hstart; cbn [MautrixCall.run]; [exact Hstart |].
  pose proof (Mautrix_exec_queues c op Hstart) as Hnext.
  destruct (MautrixCall.exec c op) as [c1 s1]. cbn [fst] in Hnext.
  specialize (IH c1 Hnext). destruct (MautrixCall.run c1 ops) as [c2 s2]. exact IH.
Qed.

Lemma Http_queues_stay_made w hs user pw room c (ops : list HttpCall.call) :
  HttpCall.NewClient w hs user pw room = Ok c ->
  queue_made (HttpCall.dataCh (HttpCall.run c ops).1) /\
  queue_made (HttpCall.decodeCh (HttpCall.run c ops).1).
Proof.
  intros Hnew.
  assert (Hstart : queue_made (HttpCall.dataCh c) /\ queue_made (HttpCall.decodeCh c)).
  { unfold HttpCall.NewClient in Hnew.
    destruct (HttpCall.postJSON_login _ _ _); [| discriminate].
    destruct (webrtc_NewPeerConnection w); [discriminate |].
    injection Hnew as <-. split; eexists; (split; [reflexivity |]); cbn; lia. }
  clear Hnew. revert c Hstart.
  induction ops as [| op ops IH]; intros c Hstart; cbn [HttpCall.run]; [exact Hstart |].
  pose proof (Http_exec_queues c op Hstart) as Hnext.
  destruct (HttpCall.exec c op) as [c1 s1]. cbn [fst] in Hnext.
  specialize (IH c1 Hnext). destruct (HttpCall.run c1 ops) as [c2 s2]. exact IH.
Qed.

End Queues.

(** ** Sample evaluations *)

Example send_url_example :
  Signaling.send_url alice1 "m.call.invite" "txn-1"
  = "https://example.org/_matrix/client/r0/rooms/!room:example.org/send/m.call.invite/txn-1".
Proof. reflexivity. Qed.

Example SendAudio_samples_example :
  PCM.SendAudio_samples [0; 128; 52; 18; 255; 255; 9] = [-32768; 4660; -1].
Proof. reflexivity. Qed.

Example SendCallInvite_example :
  ret (Signaling.SendCallInvite calm alice1 "v=0") = Ok "uuid-0" /\
  ret (Signaling.SendCallInvite forbidden alice1 "v=0") = Err "HTTP 403: M_FORBIDDEN".
Proof. split; reflexivity. Qed.

Example StartCall_parks_example :
  ret (HttpCall.StartCall
         (mkWorld (uuid_NewString calm) 1700000000 (json_Marshal calm) (json_Decode calm)
                  (http_NewRequest calm) (http_Do calm) (mautrix_NewClient calm)
                  (mautrix_Login calm) (mautrix_SendMessageEvent calm) None None None None
                  (Ok "v=0") (fun _ => None) false (json_Decode_loginResp calm))
         alice3) = Blocks.
Proof. reflexivity. Qed.

(** * Further properties of the code *)

(** ** Formatting *)

Lemma Sprintf_cons (c : ascii) (rest : string) (args : list operand) :
  Ascii.eqb c "%" = false -> Sprintf (String c rest) args = String c (Sprintf rest args).
Proof.
  intros Hc. cbn [Sprintf]. rewrite Hc. destruct rest; reflexivity.
Qed.

Lemma Sprintf_plain_prefix (hs format : string) (args : list operand) :
  plain hs = true -> Sprintf (hs +:+ format) args = hs +:+ Sprintf format args.
Proof.
  induction hs as [| c hs IH]; intros Hplain; [reflexivity |].
  cbn [plain] in Hplain. apply andb_true_iff in Hplain as [Hc Hrest].
  apply negb_true_iff in Hc.
  change (String c hs +:+ format) with (String c (hs +:+ format)).
  change (String c hs +:+ Sprintf format args) with (String c (hs +:+ Sprintf format args)).
  rewrite Sprintf_cons by exact Hc. f_equal. apply IH. exact Hrest.
Qed.

Lemma sendEventPath_filled (room evt txn : string) :
  Sprintf sendEventPath [AStr room; AStr evt; AStr txn]
  = "/_matrix/client/r0/rooms/" +:+ room +:+ "/send/" +:+ evt +:+ "/" +:+ txn.
Proof.
  unfold sendEventPath. cbn [Sprintf Ascii.eqb Bool.eqb orb andb render].
  rewrite append_nil_r. reflexivity.
Qed.

(** X1. With a homeserver address free of percent signs, every event is
    posted to [<homeserver>/_matrix/client/r0/rooms/<room>/send/<type>/<txn>]:
    room and transaction identifier are inserted as they are, and the
    transaction identifier is a uuid drawn for that send alone (for an
    Invite the draw after the one that made the call_id). *)
Theorem events_are_posted_to_the_room_endpoint :
  forall (w : World) (c1 : Signaling.MatrixClient) (c3 : HttpCall.Client)
         (sdp callID : string) (cands : option (list JSON)) (ice : ICECandidateInit),
    plain (Signaling.Homeserver c1) = true ->
    plain (HttpCall.homeserver c3) = true ->
    let url1 := event_url (Signaling.Homeserver c1) (Signaling.RoomID c1) in
    let url3 := event_url (HttpCall.homeserver c3) (HttpCall.roomID c3) in
    map target (sent (Signaling.SendCallInvite w c1 sdp))
      = [url1 "m.call.invite" (uuid_NewString w 1)] /\
    map target (sent (Signaling.SendCallAnswer w c1 sdp callID))
      = [url1 "m.call.answer" (uuid_NewString w 0)] /\
    map target (sent (Signaling.SendCandidates w c1 cands callID))
      = [url1 "m.call.candidates" (uuid_NewString w 0)] /\
    map target (HttpCall.OnICECandidate w c3 (Some ice))
      = [url3 "m.call.candidates" (uuid_NewString w 0)] /\
    (gathering_completes w = true ->
     map target (sent (HttpCall.StartCall w c3)) = [url3 "m.call.invite" (uuid_NewString w 0)]).
Proof.
  intros w c1 c3 sdp callID cands ice H1 H3 url1 url3.
  assert (U1 : forall c evt txn,
             Signaling.Homeserver c = Signaling.Homeserver c1 ->
             Signaling.RoomID c = Signaling.RoomID c1 ->
             Signaling.send_url c evt txn = url1 evt txn).
  { intros c evt txn Hh Hr. unfold Signaling.send_url. rewrite Hh, Hr.
    rewrite Sprintf_plain_prefix by exact H1. rewrite sendEventPath_filled. reflexivity. }
  assert (U3 : forall c evt txn,
             HttpCall.homeserver c = HttpCall.homeserver c3 ->
             HttpCall.roomID c = HttpCall.roomID c3 ->
             HttpCall.send_url c evt txn = url3 evt txn).
  { intros c evt txn Hh Hr. unfold HttpCall.send_url. rewrite Hh, Hr.
    rewrite Sprintf_plain_prefix by exact H3. rewrite sendEventPath_filled. reflexivity. }
  split; [| split; [| split; [| split]]].
  - unfold Signaling.SendCallInvite. cbn [sent map target]. rewrite U1; reflexivity.
  - unfold Signaling.SendCallAnswer. cbn [sent map target].
    rewrite U1; [reflexivity | |]; destruct (String.eqb callID ""); reflexivity.
  - unfold Signaling.SendCandidates. cbn [sent map target].
    rewrite U1; [reflexivity | |]; destruct (String.eqb callID ""); reflexivity.
  - unfold HttpCall.OnICECandidate. cbn [map target]. rewrite U3; reflexivity.
  - intros Hdone. unfold HttpCall.StartCall. rewrite Hdone. cbn [sent map target].
    rewrite U3; reflexivity.
Qed.

Lemma events_are_posted_to_the_room_endpoint_witness :
  map target (sent (Signaling.SendCallInvite calm alice1 "v=0"))
    = ["https://example.org/_matrix/client/r0/rooms/!room:example.org/send/m.call.invite/uuid-1"] /\
  map target (sent (HttpCall.StartCall calm alice3))
    = ["https://example.org/_matrix/client/r0/rooms/!room:example.org/send/m.call.invite/uuid-0"].
Proof.
  destruct (events_are_posted_to_the_room_endpoint calm alice1 alice3 "v=0" "" (Some []) sample_ice
              eq_refl eq_refl) as (Hinvite & _ & _ & _ & Hstart).
  split; [exact Hinvite | exact (Hstart eq_refl)].
Defined.

(** ** Call identifiers from the clock *)

Lemma decimal_reads_back (d : Decimal.signed_int) :
  exists d', NilZero.int_of_string (NilZero.string_of_int d) = Some d' /\
             Z.of_int d' = Z.of_int d.
Proof.
  destruct (Decimal.signed_int_eq_dec d (Decimal.Pos Decimal.Nil)) as [-> | Hp].
  - rewrite NilZero.isi_posnil. eexists. split; reflexivity.
  - destruct (Decimal.signed_int_eq_dec d (Decimal.Neg Decimal.Nil)) as [-> | Hn].
    + rewrite NilZero.isi_negnil. eexists. split; reflexivity.
    + rewrite NilZero.isi by assumption. eexists. split; reflexivity.
Qed.

Lemma string_of_Z_inj (a b : Z) : string_of_Z a = string_of_Z b -> a = b.
Proof.
  unfold string_of_Z. intros Heq.
  destruct (decimal_reads_back (Z.to_int a)) as (da & Ha & Hza).
  destruct (decimal_reads_back (Z.to_int b)) as (db & Hb & Hzb).
  rewrite Heq, Hb in Ha. injection Ha as <-.
  rewrite <- (DecimalZ.of_to a), <- (DecimalZ.of_to b). congruence.
Qed.

Lemma clock_call_id_inj (w1 w2 : World) :
  clock_call_id w1 = clock_call_id w2 <-> time_Now_Unix w1 = time_Now_Unix w2.
Proof.
  unfold clock_call_id. split; [| intros ->; reflexivity].
  intros Heq. apply string_of_Z_inj. exact (String.app_inj _ _ _ Heq).
Qed.

(** X2. The identifier [StartCall] gives a call is [call-] followed by
    the clock reading in decimal, in both clients.  The HTTP client
    stores it and sends it as the Invite's [call_id] whenever candidate
    gathering completes, whatever the engine answered before.  The
    mautrix client stores it as soon as the encoder and the track are
    set up, and every Invite it sends carries it.  So, in either
    client, two attempts that reach the send carry the same [call_id]
    exactly when their clocks read the same second. *)
Theorem StartCall_call_ids_differ_across_seconds :
  forall (w1 w2 : World),
    (forall a : HttpCall.Client,
       gathering_completes w1 = true ->
       HttpCall.currentCallID (after (HttpCall.StartCall w1 a))
         = "call-" +:+ string_of_Z (time_Now_Unix w1) /\
       call_ids (sent (HttpCall.StartCall w1 a))
         = [Some (JString ("call-" +:+ string_of_Z (time_Now_Unix w1)))]) /\
    (forall a b : HttpCall.Client,
       gathering_completes w1 = true ->
       gathering_completes w2 = true ->
       (call_ids (sent (HttpCall.StartCall w1 a)) = call_ids (sent (HttpCall.StartCall w2 b))
          <-> time_Now_Unix w1 = time_Now_Unix w2)) /\
    (forall a' : MautrixCall.Client,
       gopus_NewEncoder w1 = None ->
       webrtc_NewTrackLocalStaticSample w1 = None ->
       pc_AddTrack w1 = None ->
       MautrixCall.currentCallID (after (MautrixCall.StartCall w1 a'))
         = "call-" +:+ string_of_Z (time_Now_Unix w1)) /\
    (forall (a' : MautrixCall.Client) (m : Sent),
       sent (MautrixCall.StartCall w1 a') = [m] ->
       field "call_id" (content m)
         = Some (JString ("call-" +:+ string_of_Z (time_Now_Unix w1))) /\
       MautrixCall.currentCallID (after (MautrixCall.StartCall w1 a'))
         = "call-" +:+ string_of_Z (time_Now_Unix w1)) /\
    (forall (a' b' : MautrixCall.Client) (m1 m2 : Sent),
       sent (MautrixCall.StartCall w1 a') = [m1] ->
       sent (MautrixCall.StartCall w2 b') = [m2] ->
       (field "call_id" (content m1) = field "call_id" (content m2)
          <-> time_Now_Unix w1 = time_Now_Unix w2)).
Proof.
  intros w1 w2. split; [| split; [| split; [| split]]].
  - intros a Hg1. exact (Http_StartCall_call_id w1 a Hg1).
  - intros a b Hg1 Hg2.
    destruct (Http_StartCall_call_id w1 a Hg1) as [_ Hids1].
    destruct (Http_StartCall_call_id w2 b Hg2) as [_ Hids2].
    rewrite Hids1, Hids2.
    split; [intros [= H]; apply string_of_Z_inj; exact H |].
    intros H. apply clock_call_id_inj in H. rewrite H. reflexivity.
  - intros a' Henc Htrack Hadd. unfold MautrixCall.StartCall.
    rewrite Henc, Htrack, Hadd, call_id_text.
    destruct (MautrixCall.BuildOfferSDP w1) as [[sdp | err] |]; reflexivity.
  - intros a' m Hm.
    destruct (Mautrix_StartCall_call_id w1 a' m Hm) as [Hcur Hf]. split; assumption.
  - intros a' b' m1 m2 Hm1 Hm2.
    destruct (Mautrix_StartCall_call_id w1 a' m1 Hm1) as [_ Hf1].
    destruct (Mautrix_StartCall_call_id w2 b' m2 Hm2) as [_ Hf2].
    rewrite Hf1, Hf2.
    split; [intros [= H]; apply string_of_Z_inj; exact H |].
    intros H. apply clock_call_id_inj in H. rewrite H. reflexivity.
Qed.

Lemma StartCall_call_ids_differ_across_seconds_witness :
  call_ids (sent (HttpCall.StartCall calm alice3))
    <> call_ids (sent (HttpCall.StartCall calm_later bob3)) /\
  HttpCall.currentCallID (after (HttpCall.StartCall no_offer alice3)) = "call-1700000000" /\
  call_ids (sent (HttpCall.StartCall no_offer alice3)) = [Some (JString "call-1700000000")] /\
  MautrixCall.currentCallID (after (MautrixCall.StartCall no_offer alice2)) = "call-1700000000" /\
  call_ids (sent (MautrixCall.StartCall calm alice2)) = [Some (JString "call-1700000000")] /\
  call_ids (sent (MautrixCall.StartCall calm alice2))
    <> call_ids (sent (MautrixCall.StartCall calm_later alice2)).
Proof.
  destruct (StartCall_call_ids_differ_across_seconds calm calm_later)
    as (_ & Hhttp & _ & Hsent & Hmautrix).
  destruct (StartCall_call_ids_differ_across_seconds no_offer calm)
    as (Hstored & _ & Hkept & _).
  split; [intros Heq; apply (Hhttp alice3 bob3 eq_refl eq_refl) in Heq; discriminate Heq |].
  split; [exact (proj1 (Hstored alice3 eq_refl)) |].
  split; [exact (proj2 (Hstored alice3 eq_refl)) |].
  split; [exact (Hkept alice2 eq_refl eq_refl eq_refl) |].
  split; [exact (f_equal (fun x => [x]) (proj1 (Hsent alice2 _ eq_refl))) |].
  intros Heq.
  pose proof (Hmautrix alice2 alice2 _ _ eq_refl eq_refl) as Hiff.
  assert (Hsame : time_Now_Unix calm = time_Now_Unix calm_later)
    by (apply Hiff; exact (f_equal (hd None) Heq)).
  discriminate Hsame.
Defined.

(** ** Building a client *)

Lemma login_error_text (e : error) :
  Errorf "login error: %w" [AStr e] = "login error: " +:+ e.
Proof.
  unfold Errorf. cbn [Sprintf Ascii.eqb Bool.eqb orb andb render].
  rewrite append_nil_r. reflexivity.
Qed.

Lemma peer_connection_error_text (e : error) :
  Errorf "NewPeerConnection: %w" [AStr e] = "NewPeerConnection: " +:+ e.
Proof.
  unfold Errorf. cbn [Sprintf Ascii.eqb Bool.eqb orb andb render].
  rewrite append_nil_r. reflexivity.
Qed.

Lemma mautrix_error_text (e : error) :
  Errorf "mautrix NewClient: %w" [AStr e] = "mautrix NewClient: " +:+ e.
Proof.
  unfold Errorf. cbn [Sprintf Ascii.eqb Bool.eqb orb andb render].
  rewrite append_nil_r. reflexivity.
Qed.

Lemma Signaling_postJSON_login_cases (w : World) (url : string) (payload : JSON) :
  Signaling.postJSON_login w url payload =
  match round_trip w url payload with
  | Err e => Err e
  | Ok resp =>
      if 300 <=? StatusCode resp then Err (status_error resp)
      else json_Decode_loginResp w (RespBody resp)
  end.
Proof.
  unfold Signaling.postJSON_login, round_trip, mbind, result_bind, must.
  destruct (json_Marshal w payload); [reflexivity |].
  destruct (http_NewRequest w url); [reflexivity |].
  destruct (http_Do w _) as [resp | e]; [| reflexivity].
  rewrite status_error_text. reflexivity.
Qed.

Lemma Http_postJSON_login_cases (w : World) (url : string) (payload : JSON) :
  HttpCall.postJSON_login w url payload =
  match round_trip w url payload with
  | Err e => Err e
  | Ok resp =>
      if 300 <=? StatusCode resp then Err (status_error resp)
      else json_Decode_loginResp w (RespBody resp)
  end.
Proof.
  unfold HttpCall.postJSON_login, http_Post, round_trip, mbind, result_bind, must.
  destruct (json_Marshal w payload); [reflexivity |].
  destruct (http_NewRequest w url); [reflexivity |].
  destruct (http_Do w _) as [resp | e]; [| reflexivity].
  rewrite status_error_text. reflexivity.
Qed.

(** X3. [NewMatrixClient] succeeds exactly when the login request was
    performed, answered with a status below 300 and decoded into the
    [loginResp] struct without error.  Every failure is wrapped as
    [login error: <cause>], where the cause of a refused login is
    [HTTP <status>: <body>] and that of an undecodable answer the
    decoder's error.  On success the client is for the given homeserver
    and room, has no call and a fresh party identifier, and its user id
    and access token are the two fields of the struct as the decoder
    left them: they are not checked, so empty ones are accepted. *)
Theorem NewMatrixClient_result :
  forall (w : World) (hs user pw room : string),
    let rt := round_trip w (hs +:+ loginPath) (loginReq user pw) in
    let new := Signaling.NewMatrixClient w hs user pw room in
    (forall e, rt = Err e -> new = Err ("login error: " +:+ e)) /\
    (forall resp, rt = Ok resp -> 300 <= StatusCode resp ->
       new = Err ("login error: " +:+ status_error resp)) /\
    (forall resp e, rt = Ok resp -> StatusCode resp < 300 ->
       json_Decode_loginResp w (RespBody resp) = Err e ->
       new = Err ("login error: " +:+ e)) /\
    (forall resp r, rt = Ok resp -> StatusCode resp < 300 ->
       json_Decode_loginResp w (RespBody resp) = Ok r ->
       new = Ok (Signaling.mkMatrixClient hs (Login.AccessToken r) (Login.UserID r) room
                   "" (uuid_NewString w 0))) /\
    ((exists c, new = Ok c) <->
       exists resp r, rt = Ok resp /\ StatusCode resp < 300 /\
                      json_Decode_loginResp w (RespBody resp) = Ok r).
Proof.
  intros w hs user pw room rt new. subst new. unfold Signaling.NewMatrixClient.
  rewrite Signaling_postJSON_login_cases. fold rt.
  split; [| split; [| split; [| split]]].
  - intros e ->. rewrite login_error_text. reflexivity.
  - intros resp -> Hhigh. apply Z.leb_le in Hhigh. rewrite Hhigh, login_error_text. reflexivity.
  - intros resp e -> Hlow Hdec. apply Z.leb_gt in Hlow.
    rewrite Hlow, Hdec, login_error_text. reflexivity.
  - intros resp r -> Hlow Hdec. apply Z.leb_gt in Hlow. rewrite Hlow, Hdec. reflexivity.
  - destruct rt as [resp | e].
    + destruct (Z.leb_spec 300 (StatusCode resp)) as [Hhigh | Hlow].
      * split; [intros [c Hc]; discriminate |].
        intros (resp' & r & [= <-] & Hlow & _). lia.
      * destruct (json_Decode_loginResp w (RespBody resp)) as [r | e] eqn:Hdec.
        -- split; [intros _; exists resp, r; auto | intros _; eauto].
        -- split; [intros [c Hc]; discriminate |].
           intros (resp' & r & [= <-] & _ & Hr). congruence.
    + split; [intros [c Hc]; discriminate | intros (resp & r & Hrt & _); discriminate].
Qed.

Lemma NewMatrixClient_result_witness :
  Signaling.NewMatrixClient forbidden "https://example.org" "alice" "secret" "!r:example.org"
    = Err "login error: HTTP 403: M_FORBIDDEN" /\
  Signaling.NewMatrixClient silent_ok "https://example.org" "alice" "secret" "!r:example.org"
    = Err "login error: EOF" /\
  (exists c, Signaling.NewMatrixClient welcoming "https://example.org" "alice" "secret"
               "!r:example.org" = Ok c /\
             Signaling.GetUserID c = "@alice:example.org" /\
             Signaling.GetAccessToken c = "syt_abc") /\
  (exists c, Signaling.NewMatrixClient calm "https://example.org" "alice" "secret"
               "!r:example.org" = Ok c /\
             Signaling.GetUserID c = "").
Proof.
  destruct (NewMatrixClient_result forbidden "https://example.org" "alice" "secret" "!r:example.org")
    as (_ & Hrefused & _).
  destruct (NewMatrixClient_result silent_ok "https://example.org" "alice" "secret" "!r:example.org")
    as (_ & _ & Hgarbled & _).
  destruct (NewMatrixClient_result welcoming "https://example.org" "alice" "secret" "!r:example.org")
    as (_ & _ & _ & Hwelcome & _).
  destruct (NewMatrixClient_result calm "https://example.org" "alice" "secret" "!r:example.org")
    as (_ & _ & _ & Hcalm & _).
  split; [exact (Hrefused (mkResponse 403 "M_FORBIDDEN") eq_refl ltac:(cbn; lia)) |].
  split; [exact (Hgarbled (mkResponse 200 "") "EOF" eq_refl ltac:(cbn; lia) eq_refl) |].
  split.
  - eexists. split; [exact (Hwelcome (mkResponse 200 "account") _ eq_refl ltac:(cbn; lia) eq_refl) |].
    split; reflexivity.
  - eexists. split; [exact (Hcalm (mkResponse 200 "{}") _ eq_refl ltac:(cbn; lia) eq_refl) |].
    reflexivity.
Defined.

(** X4. [NewClient] of the HTTP client logs in first: a failed login is
    reported as [login error: <cause>] whatever the engine would have
    answered, the cause of a refused login being [HTTP <status>: <body>].
    After an accepted login a refusal of the engine is reported as
    [NewPeerConnection: <cause>]; otherwise the client comes back with
    no call, a fresh party identifier, the user id and access token the
    decoder left in the [loginResp] struct, and two empty queues of
    capacity 50. *)
Theorem Http_NewClient_result :
  forall (w : World) (hs user pw room : string),
    let rt := round_trip w (hs +:+ loginPath) (loginReq user pw) in
    let login := HttpCall.postJSON_login w (hs +:+ loginPath) (loginReq user pw) in
    let new := HttpCall.NewClient w hs user pw room in
    (forall e, login = Err e -> new = Err ("login error: " +:+ e)) /\
    (forall resp, rt = Ok resp -> 300 <= StatusCode resp ->
       new = Err ("login error: " +:+ status_error resp)) /\
    (forall r e, login = Ok r -> webrtc_NewPeerConnection w = Some e ->
       new = Err ("NewPeerConnection: " +:+ e)) /\
    (forall r, login = Ok r -> webrtc_NewPeerConnection w = None ->
       new = Ok (HttpCall.mkClient hs (Login.AccessToken r) (Login.UserID r) room
                   "" (uuid_NewString w 0) (Some (mkChan 50 [])) (Some (mkChan 50 [])))) /\
    (login = match rt with
             | Err e => Err e
             | Ok resp =>
                 if 300 <=? StatusCode resp then Err (status_error resp)
                 else json_Decode_loginResp w (RespBody resp)
             end).
Proof.
  intros w hs user pw room rt login new.
  assert (Hcases : login = match rt with
                           | Err e => Err e
                           | Ok resp =>
                               if 300 <=? StatusCode resp then Err (status_error resp)
                               else json_Decode_loginResp w (RespBody resp)
                           end) by apply Http_postJSON_login_cases.
  subst new. unfold HttpCall.NewClient. fold login.
  split; [| split; [| split; [| split]]].
  - intros e ->. rewrite login_error_text. reflexivity.
  - intros resp Hrt Hhigh. apply Z.leb_le in Hhigh. rewrite Hcases, Hrt, Hhigh.
    rewrite login_error_text. reflexivity.
  - intros r e -> ->. rewrite peer_connection_error_text. reflexivity.
  - intros r -> ->. reflexivity.
  - exact Hcases.
Qed.

Lemma Http_NewClient_result_witness :
  HttpCall.NewClient forbidden "https://example.org" "alice" "secret" "!r:example.org"
    = Err "login error: HTTP 403: M_FORBIDDEN" /\
  HttpCall.NewClient no_engine "https://example.org" "alice" "secret" "!r:example.org"
    = Err "NewPeerConnection: invalid configuration" /\
  (exists c, HttpCall.NewClient welcoming "https://example.org" "alice" "secret" "!r:example.org"
               = Ok c /\
             HttpCall.userID c = "@alice:example.org" /\
             Chan.frames (HttpCall.dataCh c) = []).
Proof.
  destruct (Http_NewClient_result forbidden "https://example.org" "alice" "secret" "!r:example.org")
    as (Hlogin & _).
  destruct (Http_NewClient_result no_engine "https://example.org" "alice" "secret" "!r:example.org")
    as (_ & _ & Hengine & _).
  destruct (Http_NewClient_result welcoming "https://example.org" "alice" "secret" "!r:example.org")
    as (_ & _ & _ & Hok & _).
  split; [exact (Hlogin "HTTP 403: M_FORBIDDEN" eq_refl) |].
  split; [exact (Hengine (Login.mkLoginResp "" "") "invalid configuration" eq_refl eq_refl) |].
  eexists. split; [exact (Hok _ eq_refl eq_refl) |]. split; reflexivity.
Defined.

(** X5. [NewClient] of the mautrix client succeeds exactly when the SDK
    client, the login and the peer connection all succeed, and reports
    the first step that failed: [mautrix NewClient: ...], then
    [login error: ...], then [NewPeerConnection: ...].  The client that
    comes back keeps the credentials it was given, takes its user id from
    the login and starts with no call and two empty queues of
    capacity 50. *)
Theorem Mautrix_NewClient_result :
  forall (w : World) (hs user pw room : string),
    let new := MautrixCall.NewClient w hs user pw room in
    (forall e, mautrix_NewClient w hs = Some e -> new = Err ("mautrix NewClient: " +:+ e)) /\
    (forall e, mautrix_NewClient w hs = None -> mautrix_Login w user pw = Err e ->
       new = Err ("login error: " +:+ e)) /\
    (forall uid tok e, mautrix_NewClient w hs = None -> mautrix_Login w user pw = Ok (uid, tok) ->
       webrtc_NewPeerConnection w = Some e -> new = Err ("NewPeerConnection: " +:+ e)) /\
    ((exists c, new = Ok c) <->
       mautrix_NewClient w hs = None /\
       (exists uid tok, mautrix_Login w user pw = Ok (uid, tok)) /\
       webrtc_NewPeerConnection w = None) /\
    (forall c, new = Ok c ->
       MautrixCall.homeserver c = hs /\ MautrixCall.username c = user /\
       MautrixCall.password c = pw /\ MautrixCall.roomID c = room /\
       (exists tok, mautrix_Login w user pw = Ok (MautrixCall.myUserID c, tok)) /\
       MautrixCall.currentCallID c = "" /\
       MautrixCall.myPartyID c = uuid_NewString w 0 /\
       MautrixCall.dataCh c = Some (mkChan 50 []) /\
       MautrixCall.decodeCh c = Some (mkChan 50 [])).
Proof.
  intros w hs user pw room new. subst new. unfold MautrixCall.NewClient.
  split; [| split; [| split; [| split]]].
  - intros e ->. rewrite mautrix_error_text. reflexivity.
  - intros e -> ->. rewrite login_error_text. reflexivity.
  - intros uid tok e -> -> ->. rewrite peer_connection_error_text. reflexivity.
  - destruct (mautrix_NewClient w hs) as [e1 |].
    { split; [intros [c Hc]; discriminate | intros (H & _); discriminate]. }
    destruct (mautrix_Login w user pw) as [[uid tok] | e2].
    2:{ split; [intros [c Hc]; discriminate | intros (_ & (u & t & H) & _); discriminate]. }
    destruct (webrtc_NewPeerConnection w) as [e3 |].
    { split; [intros [c Hc]; discriminate | intros (_ & _ & H); discriminate]. }
    split; [intros _ | intros _; eauto]. split; [reflexivity |]. split; [eauto | reflexivity].
  - intros c Hc.
    destruct (mautrix_NewClient w hs) as [e1 |]; [discriminate |].
    destruct (mautrix_Login w user pw) as [[uid tok] | e2]; [| discriminate].
    destruct (webrtc_NewPeerConnection w) as [e3 |]; [discriminate |].
    injection Hc as <-. cbn. repeat split. eauto.
Qed.

Lemma Mautrix_NewClient_result_witness :
  MautrixCall.NewClient no_engine "https://example.org" "alice" "secret" "!r:example.org"
    = Err "NewPeerConnection: invalid configuration" /\
  (exists c, MautrixCall.NewClient calm "https://example.org" "alice" "secret" "!r:example.org"
               = Ok c /\
             MautrixCall.myUserID c = "@alice:example.org" /\
             MautrixCall.decodeCh c = Some (mkChan 50 [])).
Proof.
  destruct (Mautrix_NewClient_result no_engine "https://example.org" "alice" "secret"
              "!r:example.org") as (_ & _ & Hengine & _).
  destruct (Mautrix_NewClient_result calm "https://example.org" "alice" "secret"
              "!r:example.org") as (_ & _ & _ & Hiff & Hfields).
  split; [exact (Hengine _ _ _ eq_refl eq_refl eq_refl) |].
  destruct (proj2 Hiff) as [c Hc].
  { split; [reflexivity |]. split; [do 2 eexists; reflexivity | reflexivity]. }
  destruct (Hfields c Hc) as (_ & _ & _ & _ & (tok & Htok) & _ & _ & _ & Hdec).
  exists c. split; [exact Hc |]. split; [| exact Hdec].
  cbn in Htok. injection Htok as Hu _. symmetry. exact Hu.
Defined.

(** ** The outgoing queue under load *)

Section Bursts.
Context {A : Type}.

Lemma take_take_app (n : nat) (l k : list A) : take n (take n l ++ k) = take n (l ++ k).
Proof.
  destruct (le_lt_dec n (length l)) as [Hlong | Hshort].
  - rewrite (take_app_le l k n) by lia.
    rewrite take_app_le by (rewrite length_take; lia).
    rewrite take_take, Nat.min_id. reflexivity.
  - rewrite (take_ge l n) by lia. reflexivity.
Qed.

(** One non-blocking send on a queue within its capacity: the queue
    followed by the new element, cut at the capacity. *)
Lemma try_send_take (q : chan A) (x : A) :
  (length (buf q) <= cap q)%nat ->
  exists q', Chan.try_send (Some q) x = Returns (Some q') /\
             cap q' = cap q /\ buf q' = take (cap q) (buf q ++ [x]).
Proof.
  intros Hlen. unfold Chan.try_send, Chan.send.
  destruct (decide (length (buf q) < cap q)%nat) as [Hroom | Hfull].
  - eexists. split; [reflexivity |]. split; [reflexivity |]. cbn.
    rewrite take_ge; [reflexivity |]. rewrite length_app. cbn. lia.
  - exists q. split; [reflexivity |]. split; [reflexivity |].
    rewrite take_app_le by lia. rewrite take_ge; [reflexivity | lia].
Qed.

End Bursts.

Lemma Http_burst_frames (burst : list (list Z)) :
  forall c, queue_made (HttpCall.dataCh c) ->
    let r := HttpCall.run c (map HttpCall.DoSendAudio burst) in
    Chan.frames (HttpCall.dataCh r.1)
      = take 50 (Chan.frames (HttpCall.dataCh c) ++ map PCM.SendAudio_samples burst) /\
    HttpCall.decodeCh r.1 = HttpCall.decodeCh c /\
    r.2 = [].
Proof.
  induction burst as [| data burst IH]; intros c (q & Hq & Hcap & Hlen).
  - cbn. rewrite Hq. cbn. rewrite app_nil_r, take_ge by lia. auto.
  - cbn [map HttpCall.run HttpCall.exec].
    destruct (Http_SendAudio_effect c data) as (ch & Hch & ->). cbn [after sent].
    rewrite Hq in Hch.
    destruct (try_send_take q (PCM.SendAudio_samples data)) as (q' & Hsend & Hcap' & Hbuf');
      [lia |].
    rewrite Hsend in Hch. injection Hch as <-.
    assert (Hmade : queue_made (HttpCall.dataCh (HttpCall.set_dataCh (Some q') c))).
    { exists q'. split; [reflexivity |]. split; [lia |].
      rewrite Hbuf', length_take. lia. }
    destruct (IH _ Hmade) as (Hframes & Hdec & Hsent).
    destruct (HttpCall.run _ _) as [c2 s2]. cbn [fst snd] in *.
    rewrite Hframes, Hdec, Hsent, Hq. cbn [HttpCall.dataCh HttpCall.decodeCh HttpCall.set_dataCh Chan.frames].
    rewrite Hbuf', Hcap, take_take_app, <- app_assoc. auto.
Qed.

Lemma Mautrix_burst_frames (burst : list (list Z)) :
  forall c, queue_made (MautrixCall.dataCh c) ->
    let r := MautrixCall.run c (map MautrixCall.DoSendAudio burst) in
    Chan.frames (MautrixCall.dataCh r.1)
      = take 50 (Chan.frames (MautrixCall.dataCh c) ++ map PCM.SendAudio_samples burst) /\
    MautrixCall.decodeCh r.1 = MautrixCall.decodeCh c /\
    r.2 = [].
Proof.
  induction burst as [| data burst IH]; intros c (q & Hq & Hcap & Hlen).
  - cbn. rewrite Hq. cbn. rewrite app_nil_r, take_ge by lia. auto.
  - cbn [map MautrixCall.run MautrixCall.exec].
    destruct (Mautrix_SendAudio_effect c data) as (ch & e & Hch & -> & _). cbn [after sent].
    rewrite Hq in Hch.
    destruct (try_send_take q (PCM.SendAudio_samples data)) as (q' & Hsend & Hcap' & Hbuf');
      [lia |].
    rewrite Hsend in Hch. injection Hch as <-.
    assert (Hmade : queue_made (MautrixCall.dataCh (MautrixCall.set_dataCh (Some q') c))).
    { exists q'. split; [reflexivity |]. split; [lia |].
      rewrite Hbuf', length_take. lia. }
    destruct (IH _ Hmade) as (Hframes & Hdec & Hsent).
    destruct (MautrixCall.run _ _) as [c2 s2]. cbn [fst snd] in *.
    rewrite Hframes, Hdec, Hsent, Hq.
    cbn [MautrixCall.dataCh MautrixCall.decodeCh MautrixCall.set_dataCh Chan.frames].
    rewrite Hbuf', Hcap, take_take_app, <- app_assoc. auto.
Qed.

(** X6. However many times [SendAudio] is called in a row, the outgoing
    queue ends up holding the frames it had, followed by the new ones in
    the order of the calls, cut off after the 50th: the frames beyond
    the capacity are the ones that are lost.  The calls send nothing and
    leave the incoming queue alone. *)
Theorem SendAudio_burst_keeps_the_first_fifty :
  forall (c2 : MautrixCall.Client) (c3 : HttpCall.Client) (burst : list (list Z)),
    queue_made (MautrixCall.dataCh c2) ->
    queue_made (HttpCall.dataCh c3) ->
    let r2 := MautrixCall.run c2 (map MautrixCall.DoSendAudio burst) in
    let r3 := HttpCall.run c3 (map HttpCall.DoSendAudio burst) in
    let frames := map PCM.SendAudio_samples burst in
    Chan.frames (MautrixCall.dataCh r2.1) = take 50 (Chan.frames (MautrixCall.dataCh c2) ++ frames) /\
    Chan.frames (HttpCall.dataCh r3.1) = take 50 (Chan.frames (HttpCall.dataCh c3) ++ frames) /\
    MautrixCall.decodeCh r2.1 = MautrixCall.decodeCh c2 /\
    HttpCall.decodeCh r3.1 = HttpCall.decodeCh c3 /\
    r2.2 = [] /\ r3.2 = [].
Proof.
  intros c2 c3 burst H2 H3 r2 r3 frames.
  destruct (Mautrix_burst_frames burst c2 H2) as (F2 & D2 & S2).
  destruct (Http_burst_frames burst c3 H3) as (F3 & D3 & S3).
  repeat split; assumption.
Qed.

Lemma SendAudio_burst_keeps_the_first_fifty_witness :
  queue_made one_slot /\
  Chan.frames (HttpCall.dataCh
                 (HttpCall.run alice3_busy (map HttpCall.DoSendAudio [[1; 0]; [2; 0]; [3; 0]])).1)
    = replicate 49 [0; 0] ++ [[1]] /\
  Chan.frames (MautrixCall.dataCh
                 (MautrixCall.run alice2 (map MautrixCall.DoSendAudio [[1; 0]; [2; 0]])).1)
    = [[1]; [2]].
Proof.
  assert (Hslot : queue_made one_slot).
  { eexists. split; [reflexivity |]. split; [reflexivity | cbn; lia]. }
  assert (Hfresh : queue_made (Chan.make 50)).
  { eexists. split; [reflexivity |]. split; [reflexivity | cbn; lia]. }
  destruct (SendAudio_burst_keeps_the_first_fifty alice2 alice3_busy [[1; 0]; [2; 0]; [3; 0]]
              Hfresh Hslot) as (_ & H3 & _).
  destruct (SendAudio_burst_keeps_the_first_fifty alice2 alice3_busy [[1; 0]; [2; 0]]
              Hfresh Hslot) as (H2 & _).
  split; [exact Hslot |]. split; [rewrite H3; reflexivity | rewrite H2; reflexivity].
Defined.

(** ** The incoming queue *)

Lemma Http_set_decodeCh_same (c : HttpCall.Client) :
  HttpCall.set_decodeCh (HttpCall.decodeCh c) c = c.
Proof. destruct c; reflexivity. Qed.

(** X7. [ReceiveAudio] hands out the oldest decoded frame, as twice as
    many bytes as it has samples, and removes that frame only; the
    outgoing queue is not touched and nothing is sent.  With no frame
    waiting the caller is parked and the client is left as it is.  On a
    client whose queue was never made the mautrix variant returns at
    once with no bytes and the error [client not initialized], while the
    HTTP variant parks. *)
Theorem ReceiveAudio_takes_the_oldest_frame :
  forall (c2 : MautrixCall.Client) (c3 : HttpCall.Client),
    (forall q pcm rest,
        MautrixCall.decodeCh c2 = Some q -> buf q = pcm :: rest ->
        let r := MautrixCall.ReceiveAudio c2 in
        ret r = Returns (PCM.ReceiveAudio_out pcm, None) /\
        length (PCM.ReceiveAudio_out pcm) = (2 * length pcm)%nat /\
        MautrixCall.decodeCh (after r) = Some (mkChan (cap q) rest) /\
        MautrixCall.dataCh (after r) = MautrixCall.dataCh c2 /\
        sent r = []) /\
    (forall q pcm rest,
        HttpCall.decodeCh c3 = Some q -> buf q = pcm :: rest ->
        let r := HttpCall.ReceiveAudio c3 in
        ret r = Returns (PCM.ReceiveAudio_out pcm) /\
        length (PCM.ReceiveAudio_out pcm) = (2 * length pcm)%nat /\
        HttpCall.decodeCh (after r) = Some (mkChan (cap q) rest) /\
        HttpCall.dataCh (after r) = HttpCall.dataCh c3 /\
        sent r = []) /\
    (forall q, MautrixCall.decodeCh c2 = Some q -> buf q = [] ->
        MautrixCall.ReceiveAudio c2 = mkRan c2 [] Blocks) /\
    (Chan.frames (HttpCall.decodeCh c3) = [] ->
        HttpCall.ReceiveAudio c3 = mkRan c3 [] Blocks) /\
    (MautrixCall.decodeCh c2 = None ->
        MautrixCall.ReceiveAudio c2 = mkRan c2 [] (Returns ([], Some "client not initialized"))).
Proof.
  intros c2 c3. split; [| split; [| split; [| split]]].
  - intros q pcm rest Hq Hbuf r. subst r.
    unfold MautrixCall.ReceiveAudio, Chan.recv. rewrite Hq, Hbuf. cbn.
    rewrite ReceiveAudio_out_bytes, length_le_bytes. repeat split.
  - intros q pcm rest Hq Hbuf r. subst r.
    unfold HttpCall.ReceiveAudio, Chan.recv. rewrite Hq, Hbuf. cbn.
    rewrite ReceiveAudio_out_bytes, length_le_bytes. repeat split.
  - intros q Hq Hbuf. unfold MautrixCall.ReceiveAudio, Chan.recv.
    rewrite Hq, Hbuf. reflexivity.
  - intros Hnone. unfold HttpCall.ReceiveAudio, Chan.recv.
    destruct (HttpCall.decodeCh c3) as [q |]; [| reflexivity].
    cbn in Hnone. rewrite Hnone. reflexivity.
  - intros Hnil. unfold MautrixCall.ReceiveAudio. rewrite Hnil. reflexivity.
Qed.

Lemma ReceiveAudio_takes_the_oldest_frame_witness :
  ret (HttpCall.ReceiveAudio alice3_ringing) = Returns [254; 255; 1; 2] /\
  Chan.frames (HttpCall.decodeCh (after (HttpCall.ReceiveAudio alice3_ringing))) = [[7]] /\
  ret (MautrixCall.ReceiveAudio alice2_ringing) = Returns ([254; 255; 1; 2], None) /\
  HttpCall.ReceiveAudio alice3 = mkRan alice3 [] Blocks /\
  MautrixCall.ReceiveAudio alice2 = mkRan alice2 [] Blocks /\
  HttpCall.ReceiveAudio zero3 = mkRan zero3 [] Blocks /\
  ret (MautrixCall.ReceiveAudio zero2) = Returns ([], Some "client not initialized").
Proof.
  destruct (ReceiveAudio_takes_the_oldest_frame alice2_ringing alice3_ringing)
    as (Hm & Hh & _).
  destruct (Hm _ _ _ eq_refl eq_refl) as (Hm1 & _).
  destruct (Hh _ _ _ eq_refl eq_refl) as (Hh1 & _ & Hh3 & _).
  destruct (ReceiveAudio_takes_the_oldest_frame alice2 alice3) as (_ & _ & He2 & He3 & _).
  destruct (ReceiveAudio_takes_the_oldest_frame zero2 zero3) as (_ & _ & _ & Hz3 & Hz2).
  split; [rewrite Hh1; reflexivity |].
  split; [rewrite Hh3; reflexivity |].
  split; [rewrite Hm1; reflexivity |].
  split; [exact (He3 eq_refl) |].
  split; [exact (He2 _ eq_refl eq_refl) |].
  split; [exact (Hz3 eq_refl) |].
  rewrite (Hz2 eq_refl). reflexivity.
Defined.

(** ** The codec read the other way *)

(** The sample two bytes stand for. *)
Lemma sample_of_bytes (lo hi : Z) :
  is_byte lo -> is_byte hi ->
  let v := lo + (if hi <? 128 then hi else hi - 256) * 256 in
  PCM.sample_of lo hi = v /\ is_int16 v /\ byte v = lo /\ byte (Z.shiftr v 8) = hi.
Proof.
  intros Hlo Hhi v. unfold is_byte in Hlo, Hhi.
  set (h := if hi <? 128 then hi else hi - 256) in *.
  assert (Hh : -128 <= h < 128) by (subst h; destruct (Z.ltb_spec hi 128); lia).
  assert (Hv : is_int16 v) by (unfold is_int16; subst v; lia).
  assert (Hb : byte v = lo).
  { unfold byte. subst v. rewrite Z.mod_add by lia. apply Z.mod_small. lia. }
  assert (Hs : byte (Z.shiftr v 8) = hi).
  { rewrite Z.shiftr_div_pow2 by lia. change (2 ^ 8) with 256.
    subst v. rewrite Z.div_add by lia. rewrite (Z.div_small lo), Z.add_0_l by lia.
    unfold byte. subst h. destruct (Z.ltb_spec hi 128).
    - apply Z.mod_small. lia.
    - transitivity ((hi - 256 + 1 * 256) mod 256); [symmetry; apply Z.mod_add; lia |].
      replace (hi - 256 + 1 * 256) with hi by lia. apply Z.mod_small. lia. }
  split; [| auto].
  rewrite <- Hb at 1. rewrite <- Hs at 1. apply sample_roundtrip. exact Hv.
Qed.

Lemma le_bytes_pairs (data : list Z) :
  Forall is_byte data ->
  flat_map PCM.le_bytes (PCM.pairs data) = take (2 * (length data / 2)) data /\
  Forall is_int16 (PCM.pairs data).
Proof.
  induction data as [| x | x y l IH] using pair_ind; intros Hall.
  - split; [reflexivity | constructor].
  - split; [reflexivity | constructor].
  - apply Forall_cons in Hall as [Hx Hall]. apply Forall_cons in Hall as [Hy Hall].
    destruct (IH Hall) as [IHbytes IHrange].
    destruct (sample_of_bytes x y Hx Hy) as (Hv & Hr & Hlo & Hhi).
    change (length (x :: y :: l)) with (2 + length l)%nat.
    replace ((2 + length l) / 2)%nat with (S (length l / 2)).
    2:{ replace (2 + length l)%nat with (1 * 2 + length l)%nat by lia.
        rewrite Nat.div_add_l by lia. reflexivity. }
    replace (2 * S (length l / 2))%nat with (S (S (2 * (length l / 2)))) by lia.
    cbn [PCM.pairs flat_map PCM.le_bytes app take]. rewrite Hv at 1 2.
    rewrite Hlo, Hhi, IHbytes. split; [reflexivity |].
    constructor; [rewrite Hv; exact Hr | exact IHrange].
Qed.

(** X8. Read the other way, the codec is exact as well: the samples
    [SendAudio] builds from a slice of bytes are all within int16, and
    written out the way [ReceiveAudio] writes them they give the slice
    back, up to its last whole pair. *)
Theorem bytes_pcm_roundtrip (data : list Z) :
  Forall is_byte data ->
  Forall is_int16 (PCM.SendAudio_samples data) /\
  PCM.ReceiveAudio_out (PCM.SendAudio_samples data) = take (2 * (length data / 2)) data /\
  (Nat.Even (length data) -> PCM.ReceiveAudio_out (PCM.SendAudio_samples data) = data).
Proof.
  intros Hall.
  destruct (le_bytes_pairs data Hall) as [Hbytes Hrange].
  rewrite ReceiveAudio_out_bytes, SendAudio_samples_pairs.
  split; [exact Hrange |]. split; [exact Hbytes |].
  intros [k Hk]. rewrite Hbytes, Hk.
  replace (2 * k / 2)%nat with k by (rewrite Nat.mul_comm, Nat.div_mul; lia).
  rewrite <- Hk. apply take_ge. lia.
Qed.

Lemma bytes_pcm_roundtrip_witness :
  Forall is_byte [0; 128; 255; 127; 52; 18; 9] /\
  PCM.SendAudio_samples [0; 128; 255; 127; 52; 18; 9] = [-32768; 32767; 4660] /\
  PCM.ReceiveAudio_out [-32768; 32767; 4660] = [0; 128; 255; 127; 52; 18].
Proof.
  assert (H : Forall is_byte [0; 128; 255; 127; 52; 18; 9]).
  { repeat constructor; unfold is_byte; lia. }
  destruct (bytes_pcm_roundtrip _ H) as (_ & Hback & _).
  split; [exact H |]. split; [reflexivity |].
  change [-32768; 32767; 4660] with (PCM.SendAudio_samples [0; 128; 255; 127; 52; 18; 9]).
  rewrite Hback. reflexivity.
Defined.

(** ** A frame through both queues *)

Lemma codec_echo (pcm : list Z) :
  Forall is_int16 pcm -> PCM.SendAudio_samples (PCM.ReceiveAudio_out pcm) = pcm.
Proof.
  intros Hpcm. rewrite SendAudio_samples_pairs, ReceiveAudio_out_bytes.
  apply pairs_le_bytes. exact Hpcm.
Qed.

(** X9. On a client whose queues are empty, as [NewClient] leaves them,
    a frame decoded from the remote track and pushed by the track
    goroutine is what [ReceiveAudio] returns next, as bytes; those bytes
    given to [SendAudio] queue the very same samples, which the sending
    goroutine then takes, leaving the client exactly as it was. *)
Theorem frame_passes_through_both_queues :
  forall (c2 : MautrixCall.Client) (c3 : HttpCall.Client) (pcm : list Z),
    Forall is_int16 pcm ->
    MautrixCall.dataCh c2 = Some (mkChan 50 []) ->
    MautrixCall.decodeCh c2 = Some (mkChan 50 []) ->
    HttpCall.dataCh c3 = Some (mkChan 50 []) ->
    HttpCall.decodeCh c3 = Some (mkChan 50 []) ->
    (exists heard played queued out,
        MautrixCall.OnTrack_frame c2 pcm = Returns heard /\
        MautrixCall.ReceiveAudio heard = mkRan played [] (Returns (out, None)) /\
        length out = (2 * length pcm)%nat /\
        MautrixCall.SendAudio played out = mkRan queued [] (Returns None) /\
        MautrixCall.send_loop_next queued = Returns (pcm, c2)) /\
    (exists heard played queued out,
        HttpCall.OnTrack_frame c3 pcm = Returns heard /\
        HttpCall.ReceiveAudio heard = mkRan played [] (Returns out) /\
        length out = (2 * length pcm)%nat /\
        HttpCall.SendAudio played out = mkRan queued [] (Returns tt) /\
        HttpCall.send_loop_next queued = Returns (pcm, c3)).
Proof.
  intros c2 c3 pcm Hpcm Hd2 He2 Hd3 He3. split.
  - destruct c2 as [hs user pw room cid pid uid dch ech]. cbn in Hd2, He2. subst dch ech.
    exists (MautrixCall.mkClient hs user pw room cid pid uid
              (Some (mkChan 50 [])) (Some (mkChan 50 [pcm]))),
           (MautrixCall.mkClient hs user pw room cid pid uid
              (Some (mkChan 50 [])) (Some (mkChan 50 []))),
           (MautrixCall.mkClient hs user pw room cid pid uid
              (Some (mkChan 50 [pcm])) (Some (mkChan 50 []))),
           (PCM.ReceiveAudio_out pcm).
    split; [reflexivity |]. split; [reflexivity |].
    split; [rewrite ReceiveAudio_out_bytes; apply length_le_bytes |].
    split; [| reflexivity].
    unfold MautrixCall.SendAudio. rewrite codec_echo by exact Hpcm. reflexivity.
  - destruct c3 as [hs tok uid room cid pid dch ech]. cbn in Hd3, He3. subst dch ech.
    exists (HttpCall.mkClient hs tok uid room cid pid
              (Some (mkChan 50 [])) (Some (mkChan 50 [pcm]))),
           (HttpCall.mkClient hs tok uid room cid pid
              (Some (mkChan 50 [])) (Some (mkChan 50 []))),
           (HttpCall.mkClient hs tok uid room cid pid
              (Some (mkChan 50 [pcm])) (Some (mkChan 50 []))),
           (PCM.ReceiveAudio_out pcm).
    split; [reflexivity |]. split; [reflexivity |].
    split; [rewrite ReceiveAudio_out_bytes; apply length_le_bytes |].
    split; [| reflexivity].
    unfold HttpCall.SendAudio. rewrite codec_echo by exact Hpcm. reflexivity.
Qed.

Lemma frame_passes_through_both_queues_witness :
  Forall is_int16 [-2; 513] /\
  (exists heard played queued,
      HttpCall.OnTrack_frame alice3 [-2; 513] = Returns heard /\
      HttpCall.ReceiveAudio heard = mkRan played [] (Returns [254; 255; 1; 2]) /\
      HttpCall.SendAudio played [254; 255; 1; 2] = mkRan queued [] (Returns tt) /\
      HttpCall.send_loop_next queued = Returns ([-2; 513], alice3)).
Proof.
  assert (H : Forall is_int16 [-2; 513]) by (repeat constructor; unfold is_int16; lia).
  destruct (frame_passes_through_both_queues alice2 alice3 _ H eq_refl eq_refl eq_refl eq_refl)
    as [_ (heard & played & queued & out & H1 & H2 & _ & H4 & H5)].
  split; [exact H |].
  assert (Hout : out = [254; 255; 1; 2]).
  { cbv in H1. injection H1 as <-. cbv in H2. injection H2 as _ ->. reflexivity. }
  subst out. exists heard, played, queued. auto.
Defined.

(** ** Bounded queues *)

(** X10. From [NewClient] on, whatever is called and whatever the engine
    fires, both queues of a client stay made, keep their capacity of 50
    and never hold more than 50 frames. *)
Theorem queues_never_exceed_fifty_frames :
  (forall w hs user pw room c (ops : list MautrixCall.call),
      MautrixCall.NewClient w hs user pw room = Ok c ->
      queue_made (MautrixCall.dataCh (MautrixCall.run c ops).1) /\
      queue_made (MautrixCall.decodeCh (MautrixCall.run c ops).1)) /\
  (forall w hs user pw room c (ops : list HttpCall.call),
      HttpCall.NewClient w hs user pw room = Ok c ->
      queue_made (HttpCall.dataCh (HttpCall.run c ops).1) /\
      queue_made (HttpCall.decodeCh (HttpCall.run c ops).1)).
Proof.
  split.
  - intros w hs user pw room c ops Hnew. exact (Mautrix_queues_stay_made _ _ _ _ _ _ ops Hnew).
  - intros w hs user pw room c ops Hnew. exact (Http_queues_stay_made _ _ _ _ _ _ ops Hnew).
Qed.

Lemma queues_never_exceed_fifty_frames_witness :
  exists c, HttpCall.NewClient calm "https://example.org" "alice" "secret" "!r:example.org" = Ok c /\
            queue_made (HttpCall.dataCh (HttpCall.run c (map HttpCall.DoSendAudio
                                                           (replicate 60 [1; 0]))).1) /\
            queue_made (HttpCall.decodeCh (HttpCall.run c day3).1).
Proof.
  destruct queues_never_exceed_fifty_frames as [_ H3].
  eexists. split; [reflexivity |].
  split; [apply (H3 calm "https://example.org" "alice" "secret" "!r:example.org" _ _ eq_refl) |
          apply (H3 calm "https://example.org" "alice" "secret" "!r:example.org" _ _ eq_refl)].
Defined.

(** ** Answer and Candidates on the wire *)

(** X11. [SendCallAnswer] sends one [m.call.answer] event whose payload
    has exactly the keys [call_id], [party_id], [answer] and [version],
    with [answer] = [{"type":"answer","sdp":<the SDP given>}].
    [SendCandidates] sends one [m.call.candidates] event whose payload has
    exactly the keys [call_id], [party_id], [version] and [candidates],
    the latter being the caller's slice as [encoding/json] writes it: an
    array of its elements in order, the empty array for an empty slice
    and [null] for the nil slice.  Both carry the client's party
    identifier, the call they are about and version ["1"], and both
    return what [postJSON] returned. *)
Theorem answer_and_candidates_payloads :
  forall (w : World) (c : Signaling.MatrixClient) (sdpAnswer callID : string)
         (candidates : option (list JSON)),
    let a := Signaling.SendCallAnswer w c sdpAnswer callID in
    let k := Signaling.SendCandidates w c candidates callID in
    (exists m, sent a = [m] /\ event_type m = "m.call.answer" /\
               is_Answer (Signaling.CurrentCallID (after a)) (Signaling.MyPartyID c)
                 sdpAnswer (content m) /\
               ret a = err_of (Signaling.postJSON w (target m) (content m) true)) /\
    (exists m, sent k = [m] /\ event_type m = "m.call.candidates" /\
               is_Candidates (Signaling.CurrentCallID (after k)) (Signaling.MyPartyID c)
                 candidates (content m) /\
               ret k = err_of (Signaling.postJSON w (target m) (content m) true)).
Proof.
  intros w c sdpAnswer callID candidates a k. subst a k.
  unfold Signaling.SendCallAnswer, Signaling.SendCandidates.
  split; (eexists; split; [reflexivity |]; split; [reflexivity |]; split; [| reflexivity]).
  - unfold is_Answer. cbn. destruct (String.eqb callID "");
      (split; [solve_Permutation |]); repeat split.
  - unfold is_Candidates. cbn. destruct (String.eqb callID "");
      (split; [solve_Permutation |]); repeat split.
Qed.

(** ** One call, one identifier *)






(** ** What [StartCall] comes back with *)

Lemma Errorf_wrap (prefix : string) (e : error) :
  plain prefix = true -> Errorf (prefix +:+ "%w") [AStr e] = prefix +:+ e.
Proof.
  intros Hplain. unfold Errorf. rewrite Sprintf_plain_prefix by exact Hplain.
  cbn [Sprintf Ascii.eqb Bool.eqb orb andb render]. rewrite append_nil_r. reflexivity.
Qed.

Ltac outcome_leaf :=
  repeat match goal with |- _ /\ _ => split end;
  first
    [ lia
    | discriminate
    | intros; simplify_eq; reflexivity
    | intros; congruence
    | split; [discriminate | let H := fresh in intros H; decompose [and ex] H; congruence] ].

(** X13. The mautrix [StartCall] returns nil exactly when the encoder,
    the track, [AddTrack], [CreateOffer] and [SetLocalDescription] all
    succeeded, gathering completed and the one Invite it sent was
    accepted.  A failure while preparing the track returns
    [gopus encoder: ...], [create send track: ...] or
    [add send track: ...] and leaves the client untouched.  The call
    parks exactly when everything up to [SetLocalDescription] succeeded
    and gathering never completes; then nothing was sent.  At most one
    message is sent in any case. *)
Theorem Mautrix_StartCall_outcomes :
  forall (w : World) (c : MautrixCall.Client),
    let r := MautrixCall.StartCall w c in
    (forall e, gopus_NewEncoder w = Some e ->
       r = mkRan c [] (Returns (Some ("gopus encoder: " +:+ e)))) /\
    (forall e, gopus_NewEncoder w = None -> webrtc_NewTrackLocalStaticSample w = Some e ->
       r = mkRan c [] (Returns (Some ("create send track: " +:+ e)))) /\
    (forall e, gopus_NewEncoder w = None -> webrtc_NewTrackLocalStaticSample w = None ->
       pc_AddTrack w = Some e ->
       r = mkRan c [] (Returns (Some ("add send track: " +:+ e)))) /\
    (ret r = Returns None <->
       gopus_NewEncoder w = None /\ webrtc_NewTrackLocalStaticSample w = None /\
       pc_AddTrack w = None /\
       exists sdp m, pc_CreateOffer w = Ok sdp /\ pc_SetLocalDescription w sdp = None /\
                     gathering_completes w = true /\ sent r = [m] /\
                     mautrix_SendMessageEvent w (target m) (event_type m) (content m) = None) /\
    (ret r = Blocks <->
       gopus_NewEncoder w = None /\ webrtc_NewTrackLocalStaticSample w = None /\
       pc_AddTrack w = None /\
       exists sdp, pc_CreateOffer w = Ok sdp /\ pc_SetLocalDescription w sdp = None /\
                   gathering_completes w = false) /\
    (ret r = Blocks -> sent r = []) /\
    (length (sent r) <= 1)%nat.
Proof.
  intros w c r. subst r. unfold MautrixCall.StartCall, MautrixCall.BuildOfferSDP.
  destruct (gopus_NewEncoder w) as [e1 |] eqn:H1.
  { rewrite (Errorf_wrap "gopus encoder: ") by reflexivity. cbn [ret sent length].
    outcome_leaf. }
  destruct (webrtc_NewTrackLocalStaticSample w) as [e2 |] eqn:H2.
  { rewrite (Errorf_wrap "create send track: ") by reflexivity. cbn [ret sent length].
    outcome_leaf. }
  destruct (pc_AddTrack w) as [e3 |] eqn:H3.
  { rewrite (Errorf_wrap "add send track: ") by reflexivity. cbn [ret sent length].
    outcome_leaf. }
  destruct (pc_CreateOffer w) as [sdp | e4] eqn:H4; [| cbn [ret sent length]; outcome_leaf].
  destruct (pc_SetLocalDescription w sdp) as [e5 |] eqn:H5;
    [cbn [ret sent length]; outcome_leaf |].
  destruct (gathering_completes w) eqn:H6.
  2:{ cbn [ret sent length].
      split; [discriminate |]. split; [discriminate |]. split; [discriminate |].
      split; [split; [discriminate | intros H; decompose [and ex] H; congruence] |].
      split; [| split; [reflexivity | lia]].
      split; [intros _ | reflexivity]. repeat (split; [reflexivity |]). eauto. }
  cbn [ret sent length].
  split; [discriminate |]. split; [discriminate |]. split; [discriminate |].
  split; [| split; [| split; [discriminate | lia]]].
  - destruct (mautrix_SendMessageEvent w _ _ _) as [e7 |] eqn:H7.
    + split; [discriminate |].
      intros (_ & _ & _ & sdp' & m & [= <-] & _ & _ & [= <-] & Hsend).
      assert (Hboth : Some e7 = None) by (rewrite <- H7; exact Hsend).
      discriminate Hboth.
    + split; [intros _ | reflexivity].
      repeat (split; [reflexivity |]). exists sdp. eexists.
      split; [reflexivity |]. split; [exact H5 |].
      split; [reflexivity |]. split; [reflexivity | exact H7].
  - split; [discriminate |].
    intros (_ & _ & _ & sdp' & _ & _ & Hg). discriminate.
Qed.

Lemma Mautrix_StartCall_outcomes_witness :
  ret (MautrixCall.StartCall calm alice2) = Returns None /\
  length (sent (MautrixCall.StartCall calm alice2)) = 1%nat /\
  MautrixCall.StartCall
    (mkWorld (uuid_NewString calm) 1700000000 (json_Marshal calm) (json_Decode calm)
       (http_NewRequest calm) (http_Do calm) (mautrix_NewClient calm) (mautrix_Login calm)
       (mautrix_SendMessageEvent calm) None (Some "no codec") None None (Ok "v=0")
       (fun _ => None) true (json_Decode_loginResp calm)) alice2
    = mkRan alice2 [] (Returns (Some "gopus encoder: no codec")).
Proof.
  destruct (Mautrix_StartCall_outcomes calm alice2) as (_ & _ & _ & Hok & _).
  destruct (Mautrix_StartCall_outcomes
              (mkWorld (uuid_NewString calm) 1700000000 (json_Marshal calm) (json_Decode calm)
                 (http_NewRequest calm) (http_Do calm) (mautrix_NewClient calm)
                 (mautrix_Login calm) (mautrix_SendMessageEvent calm) None (Some "no codec")
                 None None (Ok "v=0") (fun _ => None) true (json_Decode_loginResp calm)) alice2) as (Henc & _).
  split; [| split; [reflexivity | exact (Henc "no codec" eq_refl)]].
  apply Hok. repeat (split; [reflexivity |]).
  do 2 eexists. repeat (split; [reflexivity |]). reflexivity.
Defined.



Lemma SendCallInvite_return (w : World) (c : Signaling.MatrixClient) (sdp : string) :
  exists m, sent (Signaling.SendCallInvite w c sdp) = [m] /\
            ret (Signaling.SendCallInvite w c sdp)
              = (_ ← Signaling.postJSON w (target m) (content m) true; Ok (uuid_NewString w 0)) /\
            Signaling.CurrentCallID (after (Signaling.SendCallInvite w c sdp)) = uuid_NewString w 0.
Proof. eexists. repeat split. Qed.

Lemma SendCallAnswer_return (w : World) (c : Signaling.MatrixClient) (sdp callID : string) :
  exists m, sent (Signaling.SendCallAnswer w c sdp callID) = [m] /\
            ret (Signaling.SendCallAnswer w c sdp callID)
              = err_of (Signaling.postJSON w (target m) (content m) true) /\
            Signaling.CurrentCallID (after (Signaling.SendCallAnswer w c sdp callID))
              = (if String.eqb callID "" then Signaling.CurrentCallID c else callID).
Proof.
  eexists. split; [reflexivity |]. split; [reflexivity |].
  unfold Signaling.SendCallAnswer. cbn [after]. destruct (String.eqb callID ""); reflexivity.
Qed.

Lemma Http_StartCall_return (w : World) (c : HttpCall.Client) (m : Sent) :
  sent (HttpCall.StartCall w c) = [m] ->
  ret (HttpCall.StartCall w c) = Returns (err_of (HttpCall.postJSON w (target m) (content m) true)) /\
  HttpCall.currentCallID (after (HttpCall.StartCall w c)) = clock_call_id w.
Proof.
  unfold HttpCall.StartCall. destruct (gathering_completes w); [| discriminate].
  rewrite call_id_text. cbn [sent]. intros [= <-]. split; reflexivity.
Qed.

(** X15. A send that fails still moves the client to the new call.
    When the post of the Invite fails, [SendCallInvite] returns that
    error, and [GetCallID] already returns the identifier drawn for the
    failed Invite; [SendCallAnswer] given a call identifier keeps it
    although the Answer was not accepted.  Likewise the mautrix
    [StartCall] has stored the new identifier when the offer fails, and
    the HTTP one when the post fails. *)
Theorem failed_sends_still_move_the_call :
  forall (w : World) (c1 : Signaling.MatrixClient) (c2 : MautrixCall.Client)
         (c3 : HttpCall.Client) (sdp callID : string),
    (forall m e,
        sent (Signaling.SendCallInvite w c1 sdp) = [m] ->
        Signaling.postJSON w (target m) (content m) true = Err e ->
        ret (Signaling.SendCallInvite w c1 sdp) = Err e /\
        Signaling.GetCallID (after (Signaling.SendCallInvite w c1 sdp)) = uuid_NewString w 0) /\
    (forall m e,
        callID <> "" ->
        sent (Signaling.SendCallAnswer w c1 sdp callID) = [m] ->
        Signaling.postJSON w (target m) (content m) true = Err e ->
        ret (Signaling.SendCallAnswer w c1 sdp callID) = Some e /\
        Signaling.GetCallID (after (Signaling.SendCallAnswer w c1 sdp callID)) = callID) /\
    (forall e,
        gopus_NewEncoder w = None -> webrtc_NewTrackLocalStaticSample w = None ->
        pc_AddTrack w = None -> pc_CreateOffer w = Err e ->
        ret (MautrixCall.StartCall w c2)
          = Returns (Some ("BuildOfferSDP error: CreateOffer error: " +:+ e)) /\
        sent (MautrixCall.StartCall w c2) = [] /\
        MautrixCall.currentCallID (after (MautrixCall.StartCall w c2)) = clock_call_id w) /\
    (forall m e,
        sent (HttpCall.StartCall w c3) = [m] ->
        HttpCall.postJSON w (target m) (content m) true = Err e ->
        ret (HttpCall.StartCall w c3) = Returns (Some e) /\
        HttpCall.currentCallID (after (HttpCall.StartCall w c3)) = clock_call_id w).
Proof.
  intros w c1 c2 c3 sdp callID. split; [| split; [| split]].
  - intros m e Hm Hpost.
    destruct (SendCallInvite_return w c1 sdp) as (m0 & Hm0 & Hret & Hcur).
    rewrite Hm0 in Hm. injection Hm as ->.
    rewrite Hret, Hpost. split; [reflexivity | exact Hcur].
  - intros m e Hne Hm Hpost.
    destruct (SendCallAnswer_return w c1 sdp callID) as (m0 & Hm0 & Hret & Hcur).
    rewrite Hm0 in Hm. injection Hm as ->.
    rewrite Hret, Hpost. split; [reflexivity |].
    unfold Signaling.GetCallID. rewrite Hcur.
    destruct (String.eqb_spec callID ""); [contradiction | reflexivity].
  - intros e H1 H2 H3 H4. unfold MautrixCall.StartCall, MautrixCall.BuildOfferSDP.
    rewrite H1, H2, H3, H4, call_id_text.
    rewrite (Errorf_wrap "CreateOffer error: ") by reflexivity.
    rewrite (Errorf_wrap "BuildOfferSDP error: ") by reflexivity.
    repeat split.
  - intros m e Hm Hpost.
    destruct (Http_StartCall_return w c3 m Hm) as [Hret Hcur].
    rewrite Hret, Hpost. split; [reflexivity | exact Hcur].
Qed.

Lemma failed_sends_still_move_the_call_witness :
  ret (Signaling.SendCallInvite forbidden alice1 "v=0") = Err "HTTP 403: M_FORBIDDEN" /\
  Signaling.GetCallID (after (Signaling.SendCallInvite forbidden alice1 "v=0")) = "uuid-0" /\
  Signaling.GetCallID (after (Signaling.SendCallAnswer forbidden alice1 "v=0" "call-7")) = "call-7" /\
  MautrixCall.currentCallID (after (MautrixCall.StartCall no_offer alice2)) = "call-1700000000" /\
  HttpCall.currentCallID (after (HttpCall.StartCall forbidden alice3)) = "call-1700000000".
Proof.
  destruct (failed_sends_still_move_the_call forbidden alice1 alice2 alice3 "v=0" "call-7")
    as (Hinv & Hans & _ & Hhttp).
  destruct (failed_sends_still_move_the_call no_offer alice1 alice2 alice3 "v=0" "call-7")
    as (_ & _ & Hoffer & _).
  destruct (Hinv _ "HTTP 403: M_FORBIDDEN" eq_refl eq_refl) as [Hi1 Hi2].
  destruct (Hans _ "HTTP 403: M_FORBIDDEN" ltac:(discriminate) eq_refl eq_refl) as [_ Ha].
  destruct (Hoffer "connection closed" eq_refl eq_refl eq_refl eq_refl) as (_ & _ & Ho).
  destruct (Hhttp _ "HTTP 403: M_FORBIDDEN" eq_refl eq_refl) as [_ Hh].
  repeat split; assumption.
Defined.

(** ** Between two calls *)

Lemma Mautrix_exec_between (c : MautrixCall.Client) (op : MautrixCall.call) :
  starts_no_call2 op = true ->
  MautrixCall.currentCallID (MautrixCall.exec c op).1 = MautrixCall.currentCallID c /\
  Forall (candidates_for (MautrixCall.currentCallID c)) (MautrixCall.exec c op).2 /\
  length (MautrixCall.exec c op).2 = (if gathered2 op then 1 else 0)%nat.
Proof.
  destruct op as [w | data | | w [ice |] | pcm |]; cbn [starts_no_call2 gathered2 MautrixCall.exec fst snd];
    intros Hno; try discriminate.
  - destruct (Mautrix_SendAudio_effect c data) as (ch & e & _ & -> & _).
    repeat split. constructor.
  - unfold MautrixCall.ReceiveAudio.
    destruct (MautrixCall.decodeCh c); [| repeat split; constructor].
    destruct (Chan.recv _) as [[pcm ch] |]; repeat split; constructor.
  - repeat split. repeat constructor.
  - repeat split. constructor.
  - unfold MautrixCall.OnTrack_frame.
    destruct (Chan.try_send _ _); repeat split; constructor.
  - unfold MautrixCall.send_loop_next.
    destruct (Chan.recv _) as [[pcm ch] |]; repeat split; constructor.
Qed.

Lemma Http_exec_between (c : HttpCall.Client) (op : HttpCall.call) :
  starts_no_call3 op = true ->
  HttpCall.currentCallID (HttpCall.exec c op).1 = HttpCall.currentCallID c /\
  Forall (candidates_for (HttpCall.currentCallID c)) (HttpCall.exec c op).2 /\
  length (HttpCall.exec c op).2 = (if gathered3 op then 1 else 0)%nat.
Proof.
  destruct op as [w | data | | w [ice |] | pcm |]; cbn [starts_no_call3 gathered3 HttpCall.exec fst snd];
    intros Hno; try discriminate.
  - destruct (Http_SendAudio_effect c data) as (ch & _ & ->).
    repeat split. constructor.
  - unfold HttpCall.ReceiveAudio.
    destruct (Chan.recv _) as [[pcm ch] |]; repeat split; constructor.
  - repeat split. repeat constructor.
  - repeat split. constructor.
  - unfold HttpCall.OnTrack_frame.
    destruct (Chan.try_send _ _); repeat split; constructor.
  - unfold HttpCall.send_loop_next.
    destruct (Chan.recv _) as [[pcm ch] |]; repeat split; constructor.
Qed.

Lemma Mautrix_run_between (ops : list MautrixCall.call) :
  forall c, forallb starts_no_call2 ops = true ->
    MautrixCall.currentCallID (MautrixCall.run c ops).1 = MautrixCall.currentCallID c /\
    Forall (candidates_for (MautrixCall.currentCallID c)) (MautrixCall.run c ops).2 /\
    length (MautrixCall.run c ops).2 = length (List.filter gathered2 ops).
Proof.
  induction ops as [| op ops IH]; intros c Hall; cbn [MautrixCall.run List.filter].
  - repeat split. constructor.
  - cbn [forallb] in Hall. apply andb_true_iff in Hall as [Hop Hops].
    pose proof (Mautrix_exec_between c op Hop) as (Hid & Hmsgs & Hlen).
    destruct (MautrixCall.exec c op) as [c1 s1]. cbn [fst snd] in *.
    pose proof (IH c1 Hops) as (Hid' & Hmsgs' & Hlen').
    destruct (MautrixCall.run c1 ops) as [c2 s2]. cbn [fst snd] in *.
    split; [congruence |]. split.
    + apply Forall_app. split; [assumption |]. rewrite <- Hid. assumption.
    + rewrite length_app, Hlen, Hlen'. destruct (gathered2 op); reflexivity.
Qed.

Lemma Http_run_between (ops : list HttpCall.call) :
  forall c, forallb starts_no_call3 ops = true ->
    HttpCall.currentCallID (HttpCall.run c ops).1 = HttpCall.currentCallID c /\
    Forall (candidates_for (HttpCall.currentCallID c)) (HttpCall.run c ops).2 /\
    length (HttpCall.run c ops).2 = length (List.filter gathered3 ops).
Proof.
  induction ops as [| op ops IH]; intros c Hall; cbn [HttpCall.run List.filter].
  - repeat split. constructor.
  - cbn [forallb] in Hall. apply andb_true_iff in Hall as [Hop Hops].
    pose proof (Http_exec_between c op Hop) as (Hid & Hmsgs & Hlen).
    destruct (HttpCall.exec c op) as [c1 s1]. cbn [fst snd] in *.
    pose proof (IH c1 Hops) as (Hid' & Hmsgs' & Hlen').
    destruct (HttpCall.run c1 ops) as [c2 s2]. cbn [fst snd] in *.
    split; [congruence |]. split.
    + apply Forall_app. split; [assumption |]. rewrite <- Hid. assumption.
    + rewrite length_app, Hlen, Hlen'. destruct (gathered3 op); reflexivity.
Qed.

(** X16. Only [StartCall] changes the call a client is in.  Over any
    stretch of audio calls and engine callbacks without a [StartCall] the
    stored call identifier stays what it was; the only messages sent are
    Candidates events, one for each candidate the engine reported (none
    for the nil that ends gathering), each about that call.  On a client
    that has not started a call yet that identifier is the empty string. *)
Theorem only_StartCall_changes_the_call :
  (forall (c : MautrixCall.Client) (ops : list MautrixCall.call),
      forallb starts_no_call2 ops = true ->
      MautrixCall.currentCallID (MautrixCall.run c ops).1 = MautrixCall.currentCallID c /\
      Forall (candidates_for (MautrixCall.currentCallID c)) (MautrixCall.run c ops).2 /\
      length (MautrixCall.run c ops).2 = length (List.filter gathered2 ops)) /\
  (forall (c : HttpCall.Client) (ops : list HttpCall.call),
      forallb starts_no_call3 ops = true ->
      HttpCall.currentCallID (HttpCall.run c ops).1 = HttpCall.currentCallID c /\
      Forall (candidates_for (HttpCall.currentCallID c)) (HttpCall.run c ops).2 /\
      length (HttpCall.run c ops).2 = length (List.filter gathered3 ops)) /\
  (forall w hs user pw room c (ops : list HttpCall.call),
      HttpCall.NewClient w hs user pw room = Ok c ->
      forallb starts_no_call3 ops = true ->
      Forall (candidates_for "") (HttpCall.run c ops).2).
Proof.
  split; [| split].
  - intros c ops Hno. apply Mautrix_run_between. exact Hno.
  - intros c ops Hno. apply Http_run_between. exact Hno.
  - intros w hs user pw room c ops Hnew Hno.
    destruct (Http_run_between ops c Hno) as (_ & Hall & _).
    replace (HttpCall.currentCallID c) with "" in Hall; [exact Hall |].
    unfold HttpCall.NewClient in Hnew.
    destruct (HttpCall.postJSON_login _ _ _); [| discriminate].
    destruct (webrtc_NewPeerConnection w); [discriminate |].
    injection Hnew as <-. reflexivity.
Qed.

Lemma only_StartCall_changes_the_call_witness :
  let ops := [HttpCall.FireICECandidate calm (Some sample_ice); HttpCall.DoSendAudio [1; 2];
              HttpCall.FireICECandidate calm None; HttpCall.FireTrackFrame [7];
              HttpCall.FireICECandidate calm (Some sample_ice); HttpCall.DoReceiveAudio] in
  forallb starts_no_call3 ops = true /\
  length (HttpCall.run alice3 ops).2 = 2%nat /\
  Forall (candidates_for "") (HttpCall.run alice3 ops).2.
Proof.
  intros ops.
  destruct only_StartCall_changes_the_call as (_ & H3 & _).
  destruct (H3 alice3 ops eq_refl) as (_ & Hall & Hlen).
  split; [reflexivity |]. split; [rewrite Hlen; reflexivity | exact Hall].
Defined.

(** ** The two HTTP helpers side by side *)

(** X17. Given a target to decode into, the two [postJSON] helpers
    return the same result for the same request.  They differ only for a
    nil target: on a status below 300 the first returns nil without
    reading the body, the second hands the nil target to the decoder and
    returns its verdict.  Neither reports success unless a response came
    back with a status below 300. *)
Theorem postJSON_generations_agree :
  forall (w : World) (url : string) (payload : JSON),
    Signaling.postJSON w url payload true = HttpCall.postJSON w url payload true /\
    (forall resp, round_trip w url payload = Ok resp -> StatusCode resp < 300 ->
       Signaling.postJSON w url payload false = Ok JNull /\
       HttpCall.postJSON w url payload false = json_Decode w false (RespBody resp)) /\
    (forall out j,
       Signaling.postJSON w url payload out = Ok j \/ HttpCall.postJSON w url payload out = Ok j ->
       exists resp, round_trip w url payload = Ok resp /\ StatusCode resp < 300).
Proof.
  intros w url payload. split; [| split].
  - rewrite Signaling_postJSON_cases, Http_postJSON_cases. reflexivity.
  - intros resp Hrt Hlow. apply Z.leb_gt in Hlow.
    rewrite Signaling_postJSON_cases, Http_postJSON_cases, Hrt, Hlow. split; reflexivity.
  - intros out j. rewrite Signaling_postJSON_cases, Http_postJSON_cases.
    destruct (round_trip w url payload) as [resp | e]; [| intros [Hok | Hok]; discriminate].
    destruct (Z.leb_spec 300 (StatusCode resp)) as [Hhigh | Hlow];
      [intros [Hok | Hok]; discriminate |].
    intros _. exists resp. split; [reflexivity | exact Hlow].
Qed.

Lemma postJSON_generations_agree_witness :
  Signaling.postJSON silent_ok "https://example.org/send" (JObject []) false = Ok JNull /\
  HttpCall.postJSON silent_ok "https://example.org/send" (JObject []) false = Err "EOF" /\
  Signaling.postJSON forbidden "https://example.org/send" (JObject []) false
    = HttpCall.postJSON forbidden "https://example.org/send" (JObject []) false.
Proof.
  destruct (postJSON_generations_agree silent_ok "https://example.org/send" (JObject []))
    as (_ & Hnil & _).
  destruct (Hnil (mkResponse 200 "") eq_refl ltac:(cbn; lia)) as [H1 H3].
  split; [exact H1 |]. split; [rewrite H3; reflexivity | reflexivity].
Defined.

(** ** The account a client belongs to *)

Lemma Signaling_exec_account (c : Signaling.MatrixClient) (op : Signaling.call) :
  let c' := (Signaling.exec c op).1 in
  Signaling.Homeserver c' = Signaling.Homeserver c /\
  Signaling.RoomID c' = Signaling.RoomID c /\
  Signaling.UserID c' = Signaling.UserID c /\
  Signaling.AccessToken c' = Signaling.AccessToken c.
Proof.
  destruct op as [w sdp | w sdp callID | w cands callID | | | |]; cbn;
    try (destruct (String.eqb callID "")); repeat split.
Qed.

Lemma Mautrix_exec_account (c : MautrixCall.Client) (op : MautrixCall.call) :
  let c' := (MautrixCall.exec c op).1 in
  MautrixCall.homeserver c' = MautrixCall.homeserver c /\
  MautrixCall.roomID c' = MautrixCall.roomID c /\
  MautrixCall.myUserID c' = MautrixCall.myUserID c /\
  MautrixCall.username c' = MautrixCall.username c /\
  MautrixCall.password c' = MautrixCall.password c.
Proof.
  destruct op as [w | data | | w cand | pcm |]; cbn [MautrixCall.exec fst].
  - unfold MautrixCall.StartCall, MautrixCall.BuildOfferSDP.
    destruct (gopus_NewEncoder w); [repeat split |].
    destruct (webrtc_NewTrackLocalStaticSample w); [repeat split |].
    destruct (pc_AddTrack w); [repeat split |].
    destruct (pc_CreateOffer w) as [sdp | err]; [| repeat split].
    destruct (pc_SetLocalDescription w sdp); [repeat split |].
    destruct (gathering_completes w); repeat split.
  - destruct (Mautrix_SendAudio_effect c data) as (ch & e & _ & -> & _). repeat split.
  - unfold MautrixCall.ReceiveAudio.
    destruct (MautrixCall.decodeCh c); [| repeat split].
    destruct (Chan.recv _) as [[pcm ch] |]; repeat split.
  - repeat split.
  - unfold MautrixCall.OnTrack_frame. destruct (Chan.try_send _ _); repeat split.
  - unfold MautrixCall.send_loop_next. destruct (Chan.recv _) as [[pcm ch] |]; repeat split.
Qed.

Lemma Http_exec_account (c : HttpCall.Client) (op : HttpCall.call) :
  let c' := (HttpCall.exec c op).1 in
  HttpCall.homeserver c' = HttpCall.homeserver c /\
  HttpCall.roomID c' = HttpCall.roomID c /\
  HttpCall.userID c' = HttpCall.userID c /\
  HttpCall.accessToken c' = HttpCall.accessToken c.
Proof.
  destruct op as [w | data | | w cand | pcm |]; cbn [HttpCall.exec fst].
  - unfold HttpCall.StartCall. destruct (gathering_completes w); repeat split.
  - destruct (Http_SendAudio_effect c data) as (ch & _ & ->). repeat split.
  - unfold HttpCall.ReceiveAudio. destruct (Chan.recv _) as [[pcm ch] |]; repeat split.
  - repeat split.
  - unfold HttpCall.OnTrack_frame. destruct (Chan.try_send _ _); repeat split.
  - unfold HttpCall.send_loop_next. destruct (Chan.recv _) as [[pcm ch] |]; repeat split.
Qed.

(** X18. A client stays with the account and room it was built for: no
    method call and no engine callback changes the homeserver, the room,
    the user id or the credentials, so [GetUserID] and [GetAccessToken]
    return the same values for the whole life of the client. *)
Theorem account_is_fixed :
  (forall (c : Signaling.MatrixClient) (ops : list Signaling.call),
      let c' := (Signaling.run c ops).1 in
      Signaling.GetUserID c' = Signaling.GetUserID c /\
      Signaling.GetAccessToken c' = Signaling.GetAccessToken c /\
      Signaling.Homeserver c' = Signaling.Homeserver c /\
      Signaling.RoomID c' = Signaling.RoomID c) /\
  (forall (c : MautrixCall.Client) (ops : list MautrixCall.call),
      let c' := (MautrixCall.run c ops).1 in
      MautrixCall.myUserID c' = MautrixCall.myUserID c /\
      MautrixCall.username c' = MautrixCall.username c /\
      MautrixCall.password c' = MautrixCall.password c /\
      MautrixCall.homeserver c' = MautrixCall.homeserver c /\
      MautrixCall.roomID c' = MautrixCall.roomID c) /\
  (forall (c : HttpCall.Client) (ops : list HttpCall.call),
      let c' := (HttpCall.run c ops).1 in
      HttpCall.userID c' = HttpCall.userID c /\
      HttpCall.accessToken c' = HttpCall.accessToken c /\
      HttpCall.homeserver c' = HttpCall.homeserver c /\
      HttpCall.roomID c' = HttpCall.roomID c).
Proof.
  split; [| split].
  - intros c ops. revert c. induction ops as [| op ops IH]; intros c; cbn [Signaling.run].
    + repeat split.
    + pose proof (Signaling_exec_account c op) as (H1 & H2 & H3 & H4).
      destruct (Signaling.exec c op) as [c1 s1]. cbn [fst] in *.
      pose proof (IH c1) as (I1 & I2 & I3 & I4).
      destruct (Signaling.run c1 ops) as [c2 s2]. cbn [fst] in *.
      unfold Signaling.GetUserID, Signaling.GetAccessToken in *.
      repeat split; congruence.
  - intros c ops. revert c. induction ops as [| op ops IH]; intros c; cbn [MautrixCall.run].
    + repeat split.
    + pose proof (Mautrix_exec_account c op) as (H1 & H2 & H3 & H4 & H5).
      destruct (MautrixCall.exec c op) as [c1 s1]. cbn [fst] in *.
      pose proof (IH c1) as (I1 & I2 & I3 & I4 & I5).
      destruct (MautrixCall.run c1 ops) as [c2 s2]. cbn [fst] in *.
      repeat split; congruence.
  - intros c ops. revert c. induction ops as [| op ops IH]; intros c; cbn [HttpCall.run].
    + repeat split.
    + pose proof (Http_exec_account c op) as (H1 & H2 & H3 & H4).
      destruct (HttpCall.exec c op) as [c1 s1]. cbn [fst] in *.
      pose proof (IH c1) as (I1 & I2 & I3 & I4).
      destruct (HttpCall.run c1 ops) as [c2 s2]. cbn [fst] in *.
      repeat split; congruence.
Qed.

(** ** The sending goroutine empties the queue in order *)

Lemma stops_at_exists (Encode : nat -> list Z -> encoding) (frames : list (list Z)) :
  forall k, exists n, stops_at Encode k frames n.
Proof.
  induction frames as [| pcm rest IH]; intros k.
  - exists 0%nat. split; [reflexivity |]. split; [intros; lia | intros pcm H; discriminate].
  - destruct (Encode k pcm) as [data err |] eqn:Henc.
    + destruct (IH (S k)) as (n & Hle & Hsafe & Hstop). exists (S n).
      split; [cbn; lia |]. split.
      * intros [| i] x Hi Hx; cbn in Hx.
        -- simplify_eq. rewrite Nat.add_0_r, Henc. discriminate.
        -- replace (k + S i)%nat with (S k + i)%nat by lia. apply Hsafe; [lia | exact Hx].
      * intros x Hx. cbn in Hx. replace (k + S n)%nat with (S k + n)%nat by lia.
        apply Hstop, Hx.
    + exists 0%nat. split; [cbn; lia |]. split; [intros; lia |].
      intros x Hx. cbn in Hx. simplify_eq. rewrite Nat.add_0_r. exact Henc.
Qed.

Lemma stops_at_head (Encode : nat -> list Z -> encoding) (k : nat) (pcm : list Z)
  (rest : list (list Z)) (n : nat) :
  stops_at Encode k (pcm :: rest) n ->
  (n = 0%nat /\ Encode k pcm = EncodePanics) \/
  (exists n', n = S n' /\ Encode k pcm <> EncodePanics /\ stops_at Encode (S k) rest n').
Proof.
  intros (Hle & Hsafe & Hstop). destruct n as [| n'].
  - left. split; [reflexivity |]. rewrite <- (Nat.add_0_r k). apply Hstop. reflexivity.
  - right. exists n'. split; [reflexivity |]. split.
    + rewrite <- (Nat.add_0_r k). apply Hsafe; [lia | reflexivity].
    + split; [cbn in Hle; lia |]. split.
      * intros i x Hi Hx. replace (S k + i)%nat with (k + S i)%nat by lia.
        apply Hsafe; [lia | exact Hx].
      * intros x Hx. replace (S k + n')%nat with (k + S n')%nat by lia.
        apply Hstop. exact Hx.
Qed.

(** The goroutine dies exactly when the encoder panics on a frame in
    the queue. *)
Lemma stops_at_panics (Encode : nat -> list Z -> encoding) (k : nat)
  (frames : list (list Z)) (n : nat) :
  stops_at Encode k frames n ->
  ((n < length frames)%nat <->
   exists i pcm, frames !! i = Some pcm /\ Encode (k + i)%nat pcm = EncodePanics).
Proof.
  intros (Hle & Hsafe & Hstop). split.
  - intros Hlt. destruct (lookup_lt_is_Some_2 frames n Hlt) as [pcm Hpcm].
    exists n, pcm. split; [exact Hpcm | apply Hstop, Hpcm].
  - intros (i & pcm & Hi & Hpanic).
    pose proof (lookup_lt_Some _ _ _ Hi) as Hlt.
    destruct (Nat.lt_ge_cases i n) as [Hin | Hni]; [| lia].
    exfalso. exact (Hsafe i pcm Hin Hi Hpanic).
Qed.

Lemma Http_set_dataCh_twice (a b : option (chan (list Z))) (c : HttpCall.Client) :
  HttpCall.set_dataCh a (HttpCall.set_dataCh b c) = HttpCall.set_dataCh a c.
Proof. reflexivity. Qed.

Lemma Mautrix_set_dataCh_twice (a b : option (chan (list Z))) (c : MautrixCall.Client) :
  MautrixCall.set_dataCh a (MautrixCall.set_dataCh b c) = MautrixCall.set_dataCh a c.
Proof. reflexivity. Qed.

Lemma Http_send_loop_run (Encode : nat -> list Z -> encoding) (fuel : nat) :
  forall (k : nat) (c : HttpCall.Client) (q : chan (list Z)) (n : nat),
    HttpCall.dataCh c = Some q -> (length (buf q) <= fuel)%nat ->
    stops_at Encode k (buf q) n ->
    let p := Http_send_loop Encode k fuel c in
    encoded p = take (S n) (buf q) /\
    map Some (written p)
      = imap (fun i pcm => match Encode (k + i)%nat pcm with
                           | Encodes data _ => Some (mkSample data 20)
                           | EncodePanics => None
                           end) (take n (buf q)) /\
    died p = bool_decide (n < length (buf q))%nat /\
    parked p = HttpCall.set_dataCh (Some (mkChan (cap q) (drop (S n) (buf q)))) c.
Proof.
  assert (Hnone : forall k c n cap0, HttpCall.dataCh c = Some (mkChan cap0 []) ->
            stops_at Encode k [] n ->
            let p := mkPumped [] [] false c in
            encoded p = take (S n) [] /\
            map Some (written p)
              = imap (fun i pcm => match Encode (k + i)%nat pcm with
                                   | Encodes data _ => Some (mkSample data 20)
                                   | EncodePanics => None
                                   end) (take n []) /\
            died p = bool_decide (n < length (@nil (list Z)))%nat /\
            parked p = HttpCall.set_dataCh (Some (mkChan cap0 (drop (S n) []))) c).
  { intros k c n cap0 Hq (Hle & _). cbn in Hle. assert (n = 0%nat) as -> by lia.
    cbn. repeat split. rewrite <- Hq. symmetry. apply Http_set_dataCh_same. }
  induction fuel as [| fuel IH]; intros k c q n Hq Hlen Hstop.
  - destruct q as [cap0 frames]. cbn [buf cap] in *.
    destruct frames; [| cbn in Hlen; lia]. exact (Hnone k c n cap0 Hq Hstop).
  - cbn [Http_send_loop]. unfold HttpCall.send_loop_next, Chan.recv. rewrite Hq.
    destruct q as [cap0 [| pcm rest]]; cbn [buf cap] in *.
    + exact (Hnone k c n cap0 Hq Hstop).
    + destruct (stops_at_head _ _ _ _ _ Hstop) as [[-> Hpanic] | (n' & -> & Hsafe & Hrest)].
      * rewrite Hpanic. cbn. repeat split.
      * destruct (Encode k pcm) as [data err |] eqn:Henc; [| congruence].
        destruct (IH (S k) (HttpCall.set_dataCh (Some (mkChan cap0 rest)) c) (mkChan cap0 rest)
                    n' eq_refl ltac:(cbn in *; lia) Hrest) as (He & Hw & Hd & Hp).
        cbn [buf cap] in *. cbn [encoded written died parked].
        rewrite He, Hd, Hp, Http_set_dataCh_twice.
        split; [reflexivity |]. split; [| split; [apply bool_decide_ext; cbn; lia | reflexivity]].
        cbn [map take imap]. rewrite Nat.add_0_r, Henc. f_equal.
        rewrite Hw. apply imap_ext. intros i x _. cbn.
        replace (k + S i)%nat with (S (k + i)) by lia. reflexivity.
Qed.

Lemma Http_send_loop_parks (Encode : nat -> list Z -> encoding) (fuel : nat) :
  forall (extra k : nat) (c : HttpCall.Client) (q : chan (list Z)),
    HttpCall.dataCh c = Some q -> (length (buf q) <= fuel)%nat ->
    Http_send_loop Encode k (fuel + extra) c = Http_send_loop Encode k fuel c.
Proof.
  induction fuel as [| fuel IH]; intros extra k c q Hq Hlen.
  - destruct q as [n frames]. cbn in Hlen. destruct frames; [| cbn in Hlen; lia].
    destruct extra; [reflexivity |]. cbn.
    unfold HttpCall.send_loop_next, Chan.recv. rewrite Hq. reflexivity.
  - cbn [Nat.add Http_send_loop]. unfold HttpCall.send_loop_next, Chan.recv. rewrite Hq.
    destruct q as [n [| pcm rest]]; cbn [buf cap] in *; [reflexivity |].
    cbn in Hlen.
    rewrite (IH extra (S k) (HttpCall.set_dataCh (Some (mkChan n rest)) c) (mkChan n rest)
               eq_refl ltac:(cbn; lia)).
    reflexivity.
Qed.

Lemma Mautrix_send_loop_run (Encode : nat -> list Z -> encoding) (fuel : nat) :
  forall (k : nat) (c : MautrixCall.Client) (q : chan (list Z)) (n : nat),
    MautrixCall.dataCh c = Some q -> (length (buf q) <= fuel)%nat ->
    stops_at Encode k (buf q) n ->
    let p := Mautrix_send_loop Encode k fuel c in
    encoded p = take (S n) (buf q) /\
    written p
      = omap id (imap (fun i pcm => match Encode (k + i)%nat pcm with
                                    | Encodes pkt None => Some (mkSample pkt 20)
                                    | _ => None
                                    end) (take n (buf q))) /\
    died p = bool_decide (n < length (buf q))%nat /\
    parked p = MautrixCall.set_dataCh (Some (mkChan (cap q) (drop (S n) (buf q)))) c.
Proof.
  assert (Hnone : forall k c n cap0, MautrixCall.dataCh c = Some (mkChan cap0 []) ->
            stops_at Encode k [] n ->
            let p := mkPumped [] [] false c in
            encoded p = take (S n) [] /\
            written p
              = omap id (imap (fun i pcm => match Encode (k + i)%nat pcm with
                                            | Encodes pkt None => Some (mkSample pkt 20)
                                            | _ => None
                                            end) (take n [])) /\
            died p = bool_decide (n < length (@nil (list Z)))%nat /\
            parked p = MautrixCall.set_dataCh (Some (mkChan cap0 (drop (S n) []))) c).
  { intros k c n cap0 Hq (Hle & _). cbn in Hle. assert (n = 0%nat) as -> by lia.
    cbn. repeat split. rewrite <- Hq. symmetry. apply Mautrix_set_dataCh_same. }
  induction fuel as [| fuel IH]; intros k c q n Hq Hlen Hstop.
  - destruct q as [cap0 frames]. cbn [buf cap] in *.
    destruct frames; [| cbn in Hlen; lia]. exact (Hnone k c n cap0 Hq Hstop).
  - cbn [Mautrix_send_loop]. unfold MautrixCall.send_loop_next, Chan.recv. rewrite Hq.
    destruct q as [cap0 [| pcm rest]]; cbn [buf cap] in *.
    + exact (Hnone k c n cap0 Hq Hstop).
    + destruct (stops_at_head _ _ _ _ _ Hstop) as [[-> Hpanic] | (n' & -> & Hsafe & Hrest)].
      * rewrite Hpanic. cbn. repeat split.
      * destruct (IH (S k) (MautrixCall.set_dataCh (Some (mkChan cap0 rest)) c)
                    (mkChan cap0 rest) n' eq_refl ltac:(cbn in *; lia) Hrest)
          as (He & Hw & Hd & Hp).
        cbn [buf cap] in *.
        assert (Hshift :
          imap ((fun i pcm => match Encode (k + i)%nat pcm with
                              | Encodes pkt None => Some (mkSample pkt 20)
                              | _ => None
                              end) ∘ S) (take n' rest)
          = imap (fun i pcm => match Encode (S k + i)%nat pcm with
                               | Encodes pkt None => Some (mkSample pkt 20)
                               | _ => None
                               end) (take n' rest)).
        { apply imap_ext. intros i x _. cbn.
          replace (k + S i)%nat with (S (k + i)) by lia. reflexivity. }
        destruct (Encode k pcm) as [data [err |] |] eqn:Henc; [| | congruence];
          cbn [encoded written died parked];
          rewrite He, Hd, Hp, Mautrix_set_dataCh_twice;
          (split; [reflexivity |];
           split; [| split; [apply bool_decide_ext; cbn; lia | reflexivity]]);
          cbn [take imap]; rewrite Nat.add_0_r, Henc, Hshift, Hw; reflexivity.
Qed.

Lemma Mautrix_send_loop_parks (Encode : nat -> list Z -> encoding) (fuel : nat) :
  forall (extra k : nat) (c : MautrixCall.Client) (q : chan (list Z)),
    MautrixCall.dataCh c = Some q -> (length (buf q) <= fuel)%nat ->
    Mautrix_send_loop Encode k (fuel + extra) c = Mautrix_send_loop Encode k fuel c.
Proof.
  induction fuel as [| fuel IH]; intros extra k c q Hq Hlen.
  - destruct q as [n frames]. cbn in Hlen. destruct frames; [| cbn in Hlen; lia].
    destruct extra; [reflexivity |]. cbn.
    unfold MautrixCall.send_loop_next, Chan.recv. rewrite Hq. reflexivity.
  - cbn [Nat.add Mautrix_send_loop]. unfold MautrixCall.send_loop_next, Chan.recv. rewrite Hq.
    destruct q as [n [| pcm rest]]; cbn [buf cap] in *; [reflexivity |].
    cbn in Hlen.
    rewrite (IH extra (S k) (MautrixCall.set_dataCh (Some (mkChan n rest)) c) (mkChan n rest)
               eq_refl ltac:(cbn; lia)).
    reflexivity.
Qed.

Lemma Http_burst_made (burst : list (list Z)) :
  forall c, queue_made (HttpCall.dataCh c) ->
    queue_made (HttpCall.dataCh (HttpCall.run c (map HttpCall.DoSendAudio burst)).1).
Proof.
  induction burst as [| data burst IH]; intros c Hmade; [exact Hmade |].
  cbn [map HttpCall.run HttpCall.exec].
  destruct (Http_SendAudio_effect c data) as (ch & Hch & ->). cbn [after sent].
  assert (Hnext : queue_made (HttpCall.dataCh (HttpCall.set_dataCh ch c)))
    by exact (try_send_made _ _ _ Hmade Hch).
  specialize (IH _ Hnext). destruct (HttpCall.run _ _) as [c2 s2]. exact IH.
Qed.

Lemma Mautrix_burst_made (burst : list (list Z)) :
  forall c, queue_made (MautrixCall.dataCh c) ->
    queue_made (MautrixCall.dataCh (MautrixCall.run c (map MautrixCall.DoSendAudio burst)).1).
Proof.
  induction burst as [| data burst IH]; intros c Hmade; [exact Hmade |].
  cbn [map MautrixCall.run MautrixCall.exec].
  destruct (Mautrix_SendAudio_effect c data) as (ch & e & Hch & -> & _). cbn [after sent].
  assert (Hnext : queue_made (MautrixCall.dataCh (MautrixCall.set_dataCh ch c)))
    by exact (try_send_made _ _ _ Hmade Hch).
  specialize (IH _ Hnext). destruct (MautrixCall.run _ _) as [c2 s2]. exact IH.
Qed.

(** X19. Once connected, the sending goroutine takes the queued frames,
    that is the first 50 of what [SendAudio] was offered, in the order
    they were queued, and hands each to the encoder.  It stops at the
    first frame the encoder panics on: that frame is taken from the
    queue, nothing is written for it, the frames behind it stay in the
    queue and the goroutine is dead.  If the encoder panics on none, the
    goroutine empties the queue and parks on it alive.  Up to there the
    mautrix client writes, in order, one sample per frame the encoder
    returned without error, carrying the packet returned, and skips the
    frames with an error; the HTTP client writes one sample per frame,
    carrying whatever data the encoder returned, error or not.  Every
    sample declares 20 ms.  More turns change nothing.  In particular an
    encoder that panics on the empty frame kills the goroutine as soon
    as an empty frame is in the queue. *)
Theorem send_loop_drains_in_order :
  forall (Encode2 Encode3 : nat -> list Z -> encoding)
         (c2 : MautrixCall.Client) (c3 : HttpCall.Client)
         (burst : list (list Z)) (fuel extra : nat),
    queue_made (MautrixCall.dataCh c2) ->
    queue_made (HttpCall.dataCh c3) ->
    (50 <= fuel)%nat ->
    let queued2 := take 50 (Chan.frames (MautrixCall.dataCh c2) ++ map PCM.SendAudio_samples burst) in
    let queued3 := take 50 (Chan.frames (HttpCall.dataCh c3) ++ map PCM.SendAudio_samples burst) in
    let c2' := (MautrixCall.run c2 (map MautrixCall.DoSendAudio burst)).1 in
    let c3' := (HttpCall.run c3 (map HttpCall.DoSendAudio burst)).1 in
    let p2 := Mautrix_send_loop Encode2 0 fuel c2' in
    let p3 := Http_send_loop Encode3 0 fuel c3' in
    (exists n, stops_at Encode2 0 queued2 n) /\
    (exists n, stops_at Encode3 0 queued3 n) /\
    (forall n, stops_at Encode2 0 queued2 n ->
       encoded p2 = take (S n) queued2 /\
       written p2 = omap id (imap (fun i pcm => match Encode2 i pcm with
                                                | Encodes pkt None => Some (mkSample pkt 20)
                                                | _ => None
                                                end) (take n queued2)) /\
       (died p2 = true <-> (n < length queued2)%nat) /\
       parked p2 = MautrixCall.set_dataCh (Some (mkChan 50 (drop (S n) queued2))) c2') /\
    (forall n, stops_at Encode3 0 queued3 n ->
       encoded p3 = take (S n) queued3 /\
       map Some (written p3) = imap (fun i pcm => match Encode3 i pcm with
                                                  | Encodes data _ => Some (mkSample data 20)
                                                  | EncodePanics => None
                                                  end) (take n queued3) /\
       (died p3 = true <-> (n < length queued3)%nat) /\
       parked p3 = HttpCall.set_dataCh (Some (mkChan 50 (drop (S n) queued3))) c3') /\
    (died p2 = true <->
       exists i pcm, queued2 !! i = Some pcm /\ Encode2 i pcm = EncodePanics) /\
    (died p3 = true <->
       exists i pcm, queued3 !! i = Some pcm /\ Encode3 i pcm = EncodePanics) /\
    ((forall i, Encode2 i [] = EncodePanics) -> In [] queued2 -> died p2 = true) /\
    ((forall i, Encode3 i [] = EncodePanics) -> In [] queued3 -> died p3 = true) /\
    Mautrix_send_loop Encode2 0 (fuel + extra) c2' = p2 /\
    Http_send_loop Encode3 0 (fuel + extra) c3' = p3.
Proof.
  intros Encode2 Encode3 c2 c3 burst fuel extra H2 H3 Hfuel queued2 queued3 c2' c3' p2 p3.
  destruct (Mautrix_burst_frames burst c2 H2) as (F2 & _). fold c2' in F2.
  destruct (Http_burst_frames burst c3 H3) as (F3 & _). fold c3' in F3.
  destruct (Mautrix_burst_made burst c2 H2) as (q2 & Hq2 & Hcap2 & Hlen2). fold c2' in Hq2.
  destruct (Http_burst_made burst c3 H3) as (q3 & Hq3 & Hcap3 & Hlen3). fold c3' in Hq3.
  rewrite Hq2 in F2. rewrite Hq3 in F3. cbn [Chan.frames] in F2, F3.
  fold queued2 in F2. fold queued3 in F3.
  assert (R2 : forall n, stops_at Encode2 0 queued2 n ->
             encoded p2 = take (S n) queued2 /\
             written p2 = omap id (imap (fun i pcm => match Encode2 i pcm with
                                                      | Encodes pkt None => Some (mkSample pkt 20)
                                                      | _ => None
                                                      end) (take n queued2)) /\
             (died p2 = true <-> (n < length queued2)%nat) /\
             parked p2 = MautrixCall.set_dataCh (Some (mkChan 50 (drop (S n) queued2))) c2').
  { intros n Hn. rewrite <- F2 in Hn |- *. rewrite <- Hcap2.
    destruct (Mautrix_send_loop_run Encode2 fuel 0 c2' q2 n Hq2 ltac:(lia) Hn)
      as (He & Hw & Hd & Hp).
    split; [exact He |]. split; [exact Hw |]. split; [| exact Hp].
    fold p2 in Hd. rewrite Hd. apply bool_decide_eq_true. }
  assert (R3 : forall n, stops_at Encode3 0 queued3 n ->
             encoded p3 = take (S n) queued3 /\
             map Some (written p3) = imap (fun i pcm => match Encode3 i pcm with
                                                        | Encodes data _ => Some (mkSample data 20)
                                                        | EncodePanics => None
                                                        end) (take n queued3) /\
             (died p3 = true <-> (n < length queued3)%nat) /\
             parked p3 = HttpCall.set_dataCh (Some (mkChan 50 (drop (S n) queued3))) c3').
  { intros n Hn. rewrite <- F3 in Hn |- *. rewrite <- Hcap3.
    destruct (Http_send_loop_run Encode3 fuel 0 c3' q3 n Hq3 ltac:(lia) Hn)
      as (He & Hw & Hd & Hp).
    split; [exact He |]. split; [exact Hw |]. split; [| exact Hp].
    fold p3 in Hd. rewrite Hd. apply bool_decide_eq_true. }
  assert (D2 : died p2 = true <->
               exists i pcm, queued2 !! i = Some pcm /\ Encode2 i pcm = EncodePanics).
  { destruct (stops_at_exists Encode2 queued2 0) as [n Hn].
    destruct (R2 n Hn) as (_ & _ & Hd & _). rewrite Hd.
    exact (stops_at_panics Encode2 0 queued2 n Hn). }
  assert (D3 : died p3 = true <->
               exists i pcm, queued3 !! i = Some pcm /\ Encode3 i pcm = EncodePanics).
  { destruct (stops_at_exists Encode3 queued3 0) as [n Hn].
    destruct (R3 n Hn) as (_ & _ & Hd & _). rewrite Hd.
    exact (stops_at_panics Encode3 0 queued3 n Hn). }
  split; [apply stops_at_exists |]. split; [apply stops_at_exists |].
  split; [exact R2 |]. split; [exact R3 |]. split; [exact D2 |]. split; [exact D3 |].
  split; [| split; [| split]].
  - intros Hempty Hin. apply D2. apply list_elem_of_In, list_elem_of_lookup in Hin.
    destruct Hin as [i Hi]. exists i, []. split; [exact Hi | apply Hempty].
  - intros Hempty Hin. apply D3. apply list_elem_of_In, list_elem_of_lookup in Hin.
    destruct Hin as [i Hi]. exists i, []. split; [exact Hi | apply Hempty].
  - apply (Mautrix_send_loop_parks Encode2 fuel extra 0 c2' q2 Hq2). lia.
  - apply (Http_send_loop_parks Encode3 fuel extra 0 c3' q3 Hq3). lia.
Qed.

Lemma send_loop_drains_in_order_witness :
  queue_made three_frames /\
  written (Mautrix_send_loop toy_Encode 0 50 alice2_talking)
    = [mkSample [1; 2] 20; mkSample [3] 20] /\
  map Some (written (Http_send_loop toy_Encode 0 50 alice3_talking))
    = [Some (mkSample [1; 2] 20); Some (mkSample [] 20); Some (mkSample [3] 20)] /\
  Chan.frames (MautrixCall.dataCh (parked (Mautrix_send_loop toy_Encode 0 50 alice2_talking)))
    = [] /\
  PCM.SendAudio_samples [7] = [] /\
  died (Mautrix_send_loop toy_Encode 0 50
          (MautrixCall.run alice2 (map MautrixCall.DoSendAudio short_burst)).1) = true /\
  encoded (Http_send_loop toy_Encode 0 50
             (HttpCall.run alice3 (map HttpCall.DoSendAudio short_burst)).1)
    = [[1; 2]; []] /\
  map Some (written (Http_send_loop toy_Encode 0 50
                       (HttpCall.run alice3 (map HttpCall.DoSendAudio short_burst)).1))
    = [Some (mkSample [1; 2] 20)] /\
  Chan.frames (HttpCall.dataCh
                 (parked (Http_send_loop toy_Encode 0 50
                            (HttpCall.run alice3 (map HttpCall.DoSendAudio short_burst)).1)))
    = [[3]].
Proof.
  assert (Hmade : queue_made three_frames).
  { eexists. split; [reflexivity |]. split; [reflexivity | cbn; lia]. }
  assert (Hfresh : queue_made (Chan.make 50 : option (chan (list Z)))).
  { eexists. split; [reflexivity |]. split; [reflexivity | cbn; lia]. }
  assert (Hall : stops_at toy_Encode 0 [[1; 2]; [4; 5; 6]; [3]] 3).
  { split; [cbn; lia |]. split; [| intros pcm Hpcm; discriminate Hpcm].
    intros [| [| [| i]]] pcm Hi Hpcm; cbn in Hpcm; [| | | lia]; simplify_eq; discriminate. }
  assert (Hshort : stops_at toy_Encode 0 [[1; 2]; []; [3]] 1).
  { split; [cbn; lia |]. split; [| intros pcm Hpcm; cbn in Hpcm; simplify_eq; reflexivity].
    intros [| i] pcm Hi Hpcm; cbn in Hpcm; [| lia]. simplify_eq. discriminate. }
  destruct (send_loop_drains_in_order toy_Encode toy_Encode alice2_talking alice3_talking
              [] 50 0 Hmade Hmade ltac:(lia)) as (_ & _ & Hrun2 & Hrun3 & _).
  destruct (send_loop_drains_in_order toy_Encode toy_Encode alice2 alice3
              short_burst 50 0 Hfresh Hfresh ltac:(lia))
    as (_ & _ & _ & Hdead3 & _ & _ & Hempty2 & _).
  destruct (Hrun2 3%nat Hall) as (_ & Hw2 & _ & Hp2).
  destruct (Hrun3 3%nat Hall) as (_ & Hw3 & _).
  destruct (Hdead3 1%nat Hshort) as (He3 & Hw3' & _ & Hp3).
  split; [exact Hmade |].
  split; [exact Hw2 |].
  split; [exact Hw3 |].
  split; [exact (f_equal (fun c => Chan.frames (MautrixCall.dataCh c)) Hp2) |].
  split; [reflexivity |].
  split; [apply Hempty2; [reflexivity | right; left; reflexivity] |].
  split; [exact He3 |].
  split; [exact Hw3' |].
  exact (f_equal (fun c => Chan.frames (HttpCall.dataCh c)) Hp3).
Defined.

(** ** The incoming queue under load *)

Lemma Http_OnTrack_effect (c : HttpCall.Client) (pcm : list Z) :
  exists ch, Chan.try_send (HttpCall.decodeCh c) pcm = Returns ch /\
             HttpCall.OnTrack_frame c pcm = Returns (HttpCall.set_decodeCh ch c).
Proof.
  unfold HttpCall.OnTrack_frame.
  destruct (try_send_returns (HttpCall.decodeCh c) pcm) as [ch Hch]. rewrite Hch. eauto.
Qed.

Lemma Mautrix_OnTrack_effect (c : MautrixCall.Client) (pcm : list Z) :
  exists ch, Chan.try_send (MautrixCall.decodeCh c) pcm = Returns ch /\
             MautrixCall.OnTrack_frame c pcm = Returns (MautrixCall.set_decodeCh ch c).
Proof.
  unfold MautrixCall.OnTrack_frame.
  destruct (try_send_returns (MautrixCall.decodeCh c) pcm) as [ch Hch]. rewrite Hch. eauto.
Qed.

Lemma Http_track_burst (incoming : list (list Z)) :
  forall c, queue_made (HttpCall.decodeCh c) ->
    let r := HttpCall.run c (map HttpCall.FireTrackFrame incoming) in
    Chan.frames (HttpCall.decodeCh r.1) = take 50 (Chan.frames (HttpCall.decodeCh c) ++ incoming) /\
    HttpCall.dataCh r.1 = HttpCall.dataCh c /\
    r.2 = [].
Proof.
  induction incoming as [| pcm incoming IH]; intros c (q & Hq & Hcap & Hlen).
  - cbn. rewrite Hq. cbn. rewrite app_nil_r, take_ge by lia. auto.
  - cbn [map HttpCall.run HttpCall.exec].
    destruct (Http_OnTrack_effect c pcm) as (ch & Hch & ->).
    rewrite Hq in Hch.
    destruct (try_send_take q pcm) as (q' & Hsend & Hcap' & Hbuf'); [lia |].
    rewrite Hsend in Hch. injection Hch as <-.
    assert (Hmade : queue_made (HttpCall.decodeCh (HttpCall.set_decodeCh (Some q') c))).
    { exists q'. split; [reflexivity |]. split; [lia |]. rewrite Hbuf', length_take. lia. }
    destruct (IH _ Hmade) as (Hframes & Hdata & Hsent).
    destruct (HttpCall.run _ _) as [c2 s2]. cbn [fst snd] in *.
    rewrite Hframes, Hdata, Hsent, Hq.
    cbn [HttpCall.dataCh HttpCall.decodeCh HttpCall.set_decodeCh Chan.frames].
    rewrite Hbuf', Hcap, take_take_app, <- app_assoc. auto.
Qed.

Lemma Mautrix_track_burst (incoming : list (list Z)) :
  forall c, queue_made (MautrixCall.decodeCh c) ->
    let r := MautrixCall.run c (map MautrixCall.FireTrackFrame incoming) in
    Chan.frames (MautrixCall.decodeCh r.1)
      = take 50 (Chan.frames (MautrixCall.decodeCh c) ++ incoming) /\
    MautrixCall.dataCh r.1 = MautrixCall.dataCh c /\
    r.2 = [].
Proof.
  induction incoming as [| pcm incoming IH]; intros c (q & Hq & Hcap & Hlen).
  - cbn. rewrite Hq. cbn. rewrite app_nil_r, take_ge by lia. auto.
  - cbn [map MautrixCall.run MautrixCall.exec].
    destruct (Mautrix_OnTrack_effect c pcm) as (ch & Hch & ->).
    rewrite Hq in Hch.
    destruct (try_send_take q pcm) as (q' & Hsend & Hcap' & Hbuf'); [lia |].
    rewrite Hsend in Hch. injection Hch as <-.
    assert (Hmade : queue_made (MautrixCall.decodeCh (MautrixCall.set_decodeCh (Some q') c))).
    { exists q'. split; [reflexivity |]. split; [lia |]. rewrite Hbuf', length_take. lia. }
    destruct (IH _ Hmade) as (Hframes & Hdata & Hsent).
    destruct (MautrixCall.run _ _) as [c2 s2]. cbn [fst snd] in *.
    rewrite Hframes, Hdata, Hsent, Hq.
    cbn [MautrixCall.dataCh MautrixCall.decodeCh MautrixCall.set_decodeCh Chan.frames].
    rewrite Hbuf', Hcap, take_take_app, <- app_assoc. auto.
Qed.

(** X20. The track goroutine never waits for the player: pushing a
    decoded frame always comes back at once.  When [ReceiveAudio] falls
    behind, the incoming queue keeps the frames it had, then the newly
    decoded ones in order of arrival up to 50 in all; later arrivals are
    lost.  Nothing is sent and the outgoing queue is not touched.  On a
    client whose queue was never made every decoded frame is lost. *)
Theorem decoded_frames_beyond_fifty_are_lost :
  forall (c2 : MautrixCall.Client) (c3 : HttpCall.Client) (pcm : list Z)
         (incoming : list (list Z)),
    (exists c2', MautrixCall.OnTrack_frame c2 pcm = Returns c2') /\
    (exists c3', HttpCall.OnTrack_frame c3 pcm = Returns c3') /\
    (MautrixCall.decodeCh c2 = None -> MautrixCall.OnTrack_frame c2 pcm = Returns c2) /\
    (HttpCall.decodeCh c3 = None -> HttpCall.OnTrack_frame c3 pcm = Returns c3) /\
    (queue_made (MautrixCall.decodeCh c2) ->
       let r := MautrixCall.run c2 (map MautrixCall.FireTrackFrame incoming) in
       Chan.frames (MautrixCall.decodeCh r.1)
         = take 50 (Chan.frames (MautrixCall.decodeCh c2) ++ incoming) /\
       MautrixCall.dataCh r.1 = MautrixCall.dataCh c2 /\ r.2 = []) /\
    (queue_made (HttpCall.decodeCh c3) ->
       let r := HttpCall.run c3 (map HttpCall.FireTrackFrame incoming) in
       Chan.frames (HttpCall.decodeCh r.1)
         = take 50 (Chan.frames (HttpCall.decodeCh c3) ++ incoming) /\
       HttpCall.dataCh r.1 = HttpCall.dataCh c3 /\ r.2 = []).
Proof.
  intros c2 c3 pcm incoming.
  split; [destruct (Mautrix_OnTrack_effect c2 pcm) as (ch & _ & ->); eauto |].
  split; [destruct (Http_OnTrack_effect c3 pcm) as (ch & _ & ->); eauto |].
  split; [| split; [| split]].
  - intros Hnil. unfold MautrixCall.OnTrack_frame. rewrite Hnil. cbn.
    rewrite <- Hnil. destruct c2; reflexivity.
  - intros Hnil. unfold HttpCall.OnTrack_frame. rewrite Hnil. cbn.
    rewrite <- Hnil. rewrite Http_set_decodeCh_same. reflexivity.
  - intros Hmade. apply Mautrix_track_burst. exact Hmade.
  - intros Hmade. apply Http_track_burst. exact Hmade.
Qed.

Lemma decoded_frames_beyond_fifty_are_lost_witness :
  queue_made two_frames /\
  Chan.frames (HttpCall.decodeCh
                 (HttpCall.run alice3_ringing
                    (map HttpCall.FireTrackFrame (replicate 49 [0] ++ [[9]]))).1)
    = [[-2; 513]; [7]] ++ replicate 48 [0] /\
  HttpCall.OnTrack_frame zero3 [1] = Returns zero3.
Proof.
  assert (Hmade : queue_made two_frames).
  { eexists. split; [reflexivity |]. split; [reflexivity | cbn; lia]. }
  destruct (decoded_frames_beyond_fifty_are_lost alice2_ringing alice3_ringing [1]
              (replicate 49 [0] ++ [[9]])) as (_ & _ & _ & _ & _ & H3).
  destruct (decoded_frames_beyond_fifty_are_lost zero2 zero3 [1] []) as (_ & _ & _ & Hz & _).
  destruct (H3 Hmade) as (Hframes & _).
  split; [exact Hmade |]. split; [rewrite Hframes; reflexivity | exact (Hz eq_refl)].
Defined.
